(** * Githeat: the heatmap pipeline of [githeat.py]

    A shallow embedding of the data pipeline of [githeat.py] (window
    initialisation, aggregation of commits per day, min-max normalisation
    into six colour buckets, construction of the week-column matrix), of
    the functions around it ([graph_inline], [print_stats],
    [get_months]) and the proofs of their properties.

    Conventions of the embedding.
    - A Python exception is a value of [exn]; a computation that may raise
      returns a [result].  [Diverge] stands for a loop that never exits.
    - A [dict] is a [gmap]; iteration over it follows [map_to_list].
    - A Python [float] is an exact rational ([Q]): rounding is not
      modelled.  The floats of the program hold day counts and quotients
      of day counts.
    - A [datetime.date] is its proleptic Gregorian ordinal
      ([date.toordinal()]), so that [d + timedelta(days=n)] is [d + n] and
      the order on dates is the order on [Z].  The bounds [date.min] and
      [date.max] of the library are not modelled. *)

From Stdlib Require Import ZArith QArith Qround Lia Lqa String Ascii.
From stdpp Require Import gmap strings list sorting pretty.

Open Scope Z_scope.

(** ** Exceptions and results *)

Inductive exn : Set :=
  | ValueError
  | ZeroDivisionError
  | IndexError
  | KeyError
  | SystemExit (code : Z)
  | InvalidGitRepositoryError
  | GitCommandError
  | GitCommandNotFound.

Inductive result (A : Type) : Type :=
  | Ok (a : A)
  | Raise (e : exn)
  | Diverge.

Arguments Ok {A} a.
Arguments Raise {A} e.
Arguments Diverge {A}.

#[global] Instance result_ret : MRet result := λ A a, Ok a.
#[global] Instance result_bind : MBind result := λ A B f m,
  match m with
  | Ok a => f a
  | Raise e => Raise e
  | Diverge => Diverge
  end.

(** [for a in l: s = body a s] *)
Fixpoint for_in {M : Type → Type} `{!MBind M, !MRet M} {A S : Type}
    (l : list A) (body : A → S → M S) (s : S) : M S :=
  match l with
  | [] => mret s
  | a :: rest => s' ← body a s; for_in rest body s'
  end.

(** ** Floats *)

Definition Qltb (a b : Q) : bool := negb (Qle_bool b a).

(** [a / b] on floats. *)
Definition float_div (a b : Q) : result Q :=
  if Qeq_bool b 0 then Raise ZeroDivisionError else Ok (a / b)%Q.

(** [math.ceil]: the result is integral and stays a number of the map. *)
Definition math_ceil (a : Q) : Q := inject_Z (Qceiling a).

(** [int(a)]: truncation towards zero. *)
Definition py_int (a : Q) : Z := Z.quot (Qnum a) (Zpos (Qden a)).

(** [min(l)], [max(l)]: the first smallest (largest) item. *)
Definition py_min (l : list Q) : result Q :=
  match l with
  | [] => Raise ValueError
  | v :: vs => Ok (foldl (λ cur item, if Qltb item cur then item else cur) v vs)
  end.

Definition py_max (l : list Q) : result Q :=
  match l with
  | [] => Raise ValueError
  | v :: vs => Ok (foldl (λ cur item, if Qltb cur item then item else cur) v vs)
  end.

(** ** Dictionaries *)

Section dict.
Context `{Countable K} {V : Type}.

Definition keys (d : gmap K V) : list K := (map_to_list d).*1.
Definition values (d : gmap K V) : list V := (map_to_list d).*2.

(** [d[key]] *)
Definition getitem (d : gmap K V) (key : K) : result V :=
  match d !! key with
  | Some v => Ok v
  | None => Raise KeyError
  end.

End dict.

(** ** [normalize] *)

Section normalize.
Context `{Countable K}.

Definition normalize (dictionary : gmap K Q) (x y : Q) : result (gmap K Q) :=
  min_value ← py_min (values dictionary);
  max_value ← py_max (values dictionary);
  let range1 := (max_value - min_value)%Q in
  dictionary ← for_in (keys dictionary)
    (λ key dictionary,
       v ← getitem dictionary key;
       v' ← float_div (v - min_value)%Q range1;
       Ok (<[key := v']> dictionary))
    dictionary;
  let range2 := (y - x)%Q in
  for_in (keys dictionary)
    (λ key dictionary,
       v ← getitem dictionary key;
       Ok (<[key := math_ceil (v * range2 + x)%Q]> dictionary))
    dictionary.
End normalize.

(** ** Calendar dates

    The functions of [datetime] and [dateutil] that the program calls.
    [ymd2ord] and [ord2ymd] follow the library's own conversion between a
    (year, month, day) triple and the ordinal. *)

Abbreviation date := Z (only parsing).

Definition DAYS_IN_MONTH : list Z :=
  [-1; 31; 28; 31; 30; 31; 30; 31; 31; 30; 31; 30; 31].
Definition DAYS_BEFORE_MONTH : list Z :=
  [-1; 0; 31; 59; 90; 120; 151; 181; 212; 243; 273; 304; 334].

Definition is_leap (year : Z) : bool :=
  (year mod 4 =? 0) && (negb (year mod 100 =? 0) || (year mod 400 =? 0)).

Definition days_before_year (year : Z) : Z :=
  let y := year - 1 in y * 365 + y / 4 - y / 100 + y / 400.

Definition days_in_month (year month : Z) : Z :=
  if (month =? 2) && is_leap year then 29
  else nth (Z.to_nat month) DAYS_IN_MONTH 0.

Definition days_before_month (year month : Z) : Z :=
  nth (Z.to_nat month) DAYS_BEFORE_MONTH 0
  + (if (2 <? month) && is_leap year then 1 else 0).

Definition ymd2ord (year month day : Z) : date :=
  days_before_year year + days_before_month year month + day.

(** The end of [ord2ymd]: the month and the day of the month, from the day
    of the year (from 0) and whether the year is a leap year. *)
Definition month_day (leapyear : bool) (n : Z) : Z * Z :=
  let month := Z.shiftr (n + 50) 5 in
  let preceding :=
    nth (Z.to_nat month) DAYS_BEFORE_MONTH 0
    + (if (2 <? month) && leapyear then 1 else 0) in
  if n <? preceding then
    let month := month - 1 in
    let preceding :=
      preceding - (nth (Z.to_nat month) DAYS_IN_MONTH 0
                   + (if (month =? 2) && leapyear then 1 else 0)) in
    (month, n - preceding + 1)
  else (month, n - preceding + 1).

Definition ord2ymd (n : date) : Z * Z * Z :=
  let n := n - 1 in
  let n400 := n / 146097 in
  let n := n mod 146097 in
  let year := n400 * 400 + 1 in
  let n100 := n / 36524 in
  let n := n mod 36524 in
  let n4 := n / 1461 in
  let n := n mod 1461 in
  let n1 := n / 365 in
  let n := n mod 365 in
  let year := year + n100 * 100 + n4 * 4 + n1 in
  if (n1 =? 4) || (n100 =? 4) then (year - 1, 12, 31)
  else
    let leapyear := (n1 =? 3) && (negb (n4 =? 24) || (n100 =? 3)) in
    let '(month, day) := month_day leapyear n in
    (year, month, day).

Definition year (d : date) : Z := (ord2ymd d).1.1.
Definition month (d : date) : Z := (ord2ymd d).1.2.
Definition day (d : date) : Z := (ord2ymd d).2.

(** [d.weekday()]: Monday is 0. *)
Definition weekday (d : date) : Z := (d + 6) mod 7.

(** [d.strftime("%A")] *)
Definition strftime_A (d : date) : string :=
  nth (Z.to_nat (weekday d))
    ["Monday"; "Tuesday"; "Wednesday"; "Thursday"; "Friday"; "Saturday";
     "Sunday"] "".

(** [dt - relativedelta(years=years, days=days)]: the year is moved back,
    the day is clipped to the length of the month in the new year, and the
    days are subtracted from the result. *)
Definition sub_relativedelta (dt : date) (years days : Z) : date :=
  let year := year dt - years in
  let day := Z.min (days_in_month year (month dt)) (day dt) in
  ymd2ord year (month dt) day - days.

(** A [datetime] with an offset: the calendar date and the time of day on
    the local clock, and the offset of that clock from UTC in seconds.
    Two such values are equal, and are the same key of a dictionary, when
    they are the same instant. *)
Record datetime := mkdatetime {
  dt_date : date;
  dt_time : Z;
  dt_utcoffset : Z
}.

Definition instant (dt : datetime) : Z :=
  dt_date dt * 86400 + dt_time dt - dt_utcoffset dt.

(** ** Strings and lists *)

(** [s.split(sep)] for a non-empty [sep]; [skip] counts the characters of
    a separator that are still to be dropped. *)
Fixpoint split_go (sep : string) (skip : nat) (cur s : string) : list string :=
  match s with
  | EmptyString => [cur]
  | String c s' =>
      match skip with
      | S k => split_go sep k cur s'
      | O =>
          if String.prefix sep s
          then cur :: split_go sep (String.length sep - 1) "" s'
          else split_go sep 0 (cur +:+ String c "") s'
      end
  end.

Definition split (s sep : string) : list string := split_go sep 0 "" s.

(** [s.replace(c, '')] for a one-character [c] *)
Fixpoint remove_char (c : ascii) (s : string) : string :=
  match s with
  | EmptyString => EmptyString
  | String c' s' =>
      if Ascii.eqb c c' then remove_char c s' else String c' (remove_char c s')
  end.

(** [l[i]], with the negative indices of Python *)
Definition py_index {A} (l : list A) (i : Z) : result A :=
  let n := Z.of_nat (length l) in
  let j := if i <? 0 then i + n else i in
  if (0 <=? j) && (j <? n) then
    match l !! Z.to_nat j with
    | Some a => Ok a
    | None => Raise IndexError
    end
  else Raise IndexError.

(** [l.index(x)] *)
Fixpoint list_index (x : string) (l : list string) : result nat :=
  match l with
  | [] => Raise ValueError
  | y :: l' => if String.eqb y x then Ok O else i ← list_index x l'; Ok (S i)
  end.

(** [sorted(d)]: the keys of a dictionary of dates, in increasing order *)
Definition sorted {V} (d : gmap date V) : list date := merge_sort Z.le (keys d).

(** ** Module-level settings *)

Definition COLORS_GRASS : list Z := [0; 22; 28; 34; 40; 46].
Definition COLORS_SKY : list Z := [0; 24; 31; 38; 45; 51].
Definition COLORS_FIRE : list Z := [232; 220; 214; 208; 202; 196].

Definition BLOCK_THICK : string := "   ".
Definition BLOCK_REG : string := "  ".
Definition BLOCK_THIN : string := " ".

Inductive type_choice := type_inline | type_block.
Inductive width_choice := width_thick | width_reg | width_thin.
Inductive day_choice :=
  day_sun | day_sat | day_mon | day_tues | day_wedn | day_thur | day_fri.
Inductive color_choice := color_grass | color_fire | color_sky.

(** The parsed command line ([cli]). *)
Record Namespace := {
  cli_type : type_choice;
  cli_width : width_choice;
  cli_day : option day_choice;
  cli_color : color_choice;
  cli_stat : bool;
  cli_block : bool;
  cli_merge : bool;
  cli_author : option string
}.

(** The module-level variables once [main] has read the command line.
    [SHOW_BY_DAY] is [None] where the program has [False]. *)
Record globals := {
  GRAPH_INLINE : bool;
  BLOCK_WIDTH : string;
  COLORS : list Z;
  SHOW_BY_DAY : option string;
  SHOW_STAT : bool;
  BLOCK_SEPARATION_SHOW : string;
  MONTH_SEPARATION : bool
}.

Definition day_arg (c : day_choice) : string :=
  match c with
  | day_sun => "sun" | day_sat => "sat" | day_mon => "mon"
  | day_tues => "tues" | day_wedn => "wedn" | day_thur => "thur"
  | day_fri => "fri"
  end.

Definition days_full : list string :=
  ["Sunday"; "Monday"; "Tuesday"; "Wednesday"; "Thursday"; "Friday";
   "Saturday"].

(** The first part of [main], from [cli = parser.parse_args()] to
    [author = cli.author]. *)
Definition configure (cli : Namespace) : result globals :=
  show_by_day ←
    match cli_day cli with
    | None => Ok None
    | Some c =>
        let days := ["sun"; "sat"; "mon"; "tues"; "wedn"; "thur"; "fri"] in
        i ← list_index (day_arg c) days;
        name ← py_index days_full (Z.of_nat i);
        Ok (Some name)
    end;
  Ok {|
    GRAPH_INLINE := match cli_type cli with type_inline => true | _ => false end;
    BLOCK_WIDTH :=
      match cli_width cli with
      | width_thick => BLOCK_THICK
      | width_reg => BLOCK_REG
      | width_thin => BLOCK_THIN
      end;
    COLORS :=
      match cli_color cli with
      | color_grass => COLORS_GRASS
      | color_sky => COLORS_SKY
      | color_fire => COLORS_FIRE
      end;
    SHOW_BY_DAY := show_by_day;
    SHOW_STAT := cli_stat cli;
    BLOCK_SEPARATION_SHOW := if cli_block cli then " " else "";
    MONTH_SEPARATION := negb (cli_merge cli)
  |}.

(** ** Standard output

    What the program prints is a list of pieces: a block of the graph, a
    plain string, a date formatted by [strftime], or the report that
    [print_stats] prints for the authors of the commits it is given. *)

(** A block: the bare string [s], or [colorize(s, ansi=.., ansi_bg=..)]. *)
Inductive glyph :=
  | Plain (s : string)
  | Colorize (s : string) (ansi ansi_bg : Z).

Inductive output :=
  | OutGlyph (b : glyph)
  | OutStr (s : string)
  | OutDate (fmt : string) (d : date)
  | OutStats (authors : list string).

(** [b == s] for a block [b] and a bare string [s]: a colorized string
    carries escape codes and differs from every bare block. *)
Definition glyph_is (b : glyph) (s : string) : bool :=
  match b with
  | Plain s' => String.eqb s' s
  | Colorize _ _ _ => false
  end.

(** A computation that prints: what it has printed and how it ended. *)
Record IO (A : Type) : Type := mkIO {
  stdout : list output;
  status : result A
}.

Arguments mkIO {A} stdout status.
Arguments stdout {A} _.
Arguments status {A} _.

#[global] Instance IO_ret : MRet IO := λ A a, mkIO [] (Ok a).
#[global] Instance IO_bind : MBind IO := λ A B f m,
  match status m with
  | Ok a => let r := f a in mkIO (stdout m ++ stdout r) (status r)
  | Raise e => mkIO (stdout m) (Raise e)
  | Diverge => mkIO (stdout m) Diverge
  end.

(** A computation that does not print. *)
Definition lift {A} (r : result A) : IO A := mkIO [] r.

(** [print(items, end=end_)] *)
Definition print (items : list output) (end_ : string) : IO unit :=
  mkIO (items ++ [OutStr end_]) (Ok tt).

(** The exit status of the process that runs [sys.exit(main())]. *)
Definition exit_status {A} (r : result A) : option Z :=
  match r with
  | Ok _ => Some 0
  | Raise (SystemExit code) => Some code
  | Raise _ => Some 1
  | Diverge => None
  end.

(** ** The grid *)

(** A cell of a column: [[None, BLOCK_WIDTH]] or [[day, block]]. *)
Definition slot : Type := option date * glyph.

Definition blank (g : globals) : slot := (None, Plain (BLOCK_WIDTH g)).

(** The class [Column] of [graph_block]; [col] is its only attribute. *)
Module Column.
Record t := mk { col : list slot }.

Definition init (g : globals) (full_empty_col : bool) : t :=
  if full_empty_col then mk (replicate 7 (blank g)) else mk [].

Definition len (self : t) : nat := length (col self).

Definition append (self : t) (val : slot) : result t :=
  if (7 <=? len self)%nat then Raise ValueError
  else Ok (mk (col self ++ [val])).

(** The loop of [fill]; it exits within 7 rounds or never. *)
Fixpoint fill_loop (g : globals) (fuel : nat) (self : t) : result t :=
  if (len self =? 7)%nat then Ok self
  else
    match fuel with
    | O => Diverge
    | S fuel => fill_loop g fuel (mk (col self ++ [blank g]))
    end.

Definition fill (g : globals) (self : t) : result t := fill_loop g 7 self.

Definition fill_by (g : globals) (self : t) (first_x : nat) : t :=
  mk (col self ++ replicate first_x (blank g)).
End Column.

(** [l[-1] = a], for a mutation of the object that [l[-1]] names *)
Definition set_last {A} (l : list A) (a : A) : list A :=
  <[Nat.pred (length l) := a]> l.

(** The loop that pads the first column back to the Saturday before the
    first day.  Its eighth round would raise in [append], so that 8 rounds
    of fuel are never used up. *)
Fixpoint pad_loop (g : globals) (fuel : nat) (d : date) (c : Column.t)
    : result Column.t :=
  if String.eqb (strftime_A d) "Saturday" then Ok c
  else
    match fuel with
    | O => Diverge
    | S fuel =>
        let d := d - 1 in
        c ← Column.append c (blank g);
        pad_loop g fuel d c
    end.

(** The first column of the matrix ([graph_block], before the loop over
    the days). *)
Definition first_column (g : globals) (first_day : date) : result Column.t :=
  if negb (String.eqb (strftime_A first_day) "Sunday") then
    let c := Column.init g false in
    let d := first_day - 1 in
    pad_loop g 8 d c
  else Ok (Column.init g false).

(** The loop over the days is written in three parts.  [last_week_col]
    always names [matrix[-1]]; what the program does to it is written back
    to the matrix with [set_last]. *)

(** The [try ... except ValueError]: the cell goes to the last column, or
    to a new column when [append] refuses it. *)
Definition append_day (g : globals) (cell : slot) (matrix : list Column.t)
    (last_week_col : Column.t) : result (list Column.t) :=
  match Column.append last_week_col cell with
  | Ok c => Ok (set_last matrix c)
  | Raise ValueError =>
      let new_column := Column.init g false in
      let matrix := matrix ++ [new_column] in
      last_week_col ← py_index matrix (-1);
      c ← Column.append last_week_col cell;
      Ok (set_last matrix c)
  | Raise e => Raise e
  | Diverge => Diverge
  end.

(** The [if next_day.month != current_day.month] that ends a month. *)
Definition end_of_month (g : globals) (current_day : date)
    (matrix : list Column.t) : result (list Column.t) :=
  let next_day := current_day + 1 in
  if negb (month next_day =? month current_day) then
    last_week_col ← py_index matrix (-1);
    c ← Column.fill g last_week_col;
    let matrix := set_last matrix c in
    let matrix := matrix ++ [Column.init g true] in
    let matrix := matrix ++ [Column.init g false] in
    last_week_col ← py_index matrix (-1);
    next_day_num ← list_index (strftime_A next_day) days_full;
    Ok (set_last matrix (Column.fill_by g last_week_col next_day_num))
  else Ok matrix.

(** One round of the loop. *)
Definition place_day (g : globals) (day_contribution_map : gmap date Q)
    (current_day : date) (matrix : list Column.t) : result (list Column.t) :=
  last_week_col ← py_index matrix (-1);
  v ← getitem day_contribution_map current_day;
  let norm_day_contribution := py_int v in
  color ← py_index (COLORS g) norm_day_contribution;
  let cell := (Some current_day, Colorize (BLOCK_WIDTH g) 0 color) in
  matrix ← append_day g cell matrix last_week_col;
  end_of_month g current_day matrix.

(** [graph_block] up to the end of the loop and the last [fill]. *)
Definition build_matrix (g : globals) (day_contribution_map : gmap date Q)
    : result (list Column.t) :=
  let sorted_nomr_daily_contribution := sorted day_contribution_map in
  first_day ← py_index sorted_nomr_daily_contribution 0;
  c ← first_column g first_day;
  let matrix := [c] in
  matrix ← for_in sorted_nomr_daily_contribution
              (place_day g day_contribution_map) matrix;
  last ← py_index matrix (-1);
  c ← Column.fill g last;
  Ok (set_last matrix c).

(** The two loops that print the matrix row by row. *)
Definition print_matrix (g : globals) (matrix : list Column.t) : IO unit :=
  for_in (seqZ 0 7)
    (λ i _,
       for_in matrix
         (λ week _,
            cell ← lift (py_index (Column.col week) i);
            if negb (MONTH_SEPARATION g) && glyph_is cell.2 (BLOCK_WIDTH g)
            then mret tt
            else print [OutGlyph cell.2; OutStr (BLOCK_SEPARATION_SHOW g)] "")
         tt;;
       print [OutStr (if String.eqb (BLOCK_SEPARATION_SHOW g) "" then ""
                      else String "010" "")]
             (String "010" ""))
    tt.

(** [graph_block]; the value returned is the matrix it has built. *)
Definition graph_block (g : globals) (day_contribution_map : gmap date Q)
    : IO (list Column.t) :=
  matrix ← lift (build_matrix g day_contribution_map);
  print_matrix g matrix;;
  mret matrix.

(** [graph_inline]; the map is a [defaultdict(float)]. *)
Definition graph_inline (g : globals) (today : date)
    (day_contribution_map : gmap date Q) : IO unit :=
  match sorted day_contribution_map with
  | [] => mret tt
  | day :: _ =>
      for_in (seqZ 0 (54 * 7))
        (λ i _,
           let current_day := day + i in
           if current_day <=? today then
             let v := default 0%Q (day_contribution_map !! current_day) in
             let norm_day_contribution := py_int v in
             color ← lift (py_index (COLORS g) norm_day_contribution);
             print [OutGlyph (Colorize (BLOCK_WIDTH g) 0 color); OutStr " ";
                    OutDate "%b %d, %Y" current_day]
                   (String "010" "")
           else mret tt)
        tt;;
      print [] (String "010" "")
  end.

(** ** [main] *)

Record Commit := {
  commit_date : datetime;
  commit_author : string
}.

Section main.
(** [dateutil.parser.parse], on the date field of a line of the log. *)
Variable parse_date : string → result datetime.

(** [commits_db]: the commits under their timestamp.  The dictionary is
    keyed by the instant; next to the commits it keeps the [datetime]
    that was first stored as the key. *)
Definition read_commits (g : globals) (raw_commits : list string)
    : result (gmap Z (datetime * list Commit)) :=
  for_in raw_commits
    (λ rc commits_db,
       match split rc " ~ " with
       | [date; author] =>
           date ← parse_date date;
           if match SHOW_BY_DAY g with
              | Some name => negb (String.eqb name (strftime_A (dt_date date)))
              | None => false
              end
           then Ok commits_db
           else
             let commit := {| commit_date := date; commit_author := author |} in
             match commits_db !! instant date with
             | Some (key, commits) =>
                 Ok (<[instant date := (key, commits ++ [commit])]> commits_db)
             | None => Ok (<[instant date := (date, [commit])]> commits_db)
             end
       | _ => Raise ValueError
       end)
    ∅.

(** The days of the heatmap, with no contribution yet: from the first
    Sunday on or after [today - relativedelta(years=1, days=7)] to
    [today]. *)
Definition window (today : date) : gmap date Q :=
  let last_year := sub_relativedelta today 1 7 in
  let delta := today - last_year in
  (foldl
     (λ '(flag_skip_til_first_sunday, day_contribution_map) i,
        let current_day := last_year + i in
        if flag_skip_til_first_sunday
           && negb (String.eqb (strftime_A current_day) "Sunday")
        then (flag_skip_til_first_sunday, day_contribution_map)
        else (false, <[current_day := 0%Q]> day_contribution_map))
     (true, ∅) (seqZ 0 (delta + 1))).2.

(** The loop [for dt in dates] that adds the contributions. *)
Definition count_commits (dates : list datetime)
    (day_contribution_map : gmap date Q) : gmap date Q :=
  foldl
    (λ day_contribution_map dt,
       let contribution_day :=
         ymd2ord (year (dt_date dt)) (month (dt_date dt)) (day (dt_date dt)) in
       match day_contribution_map !! contribution_day with
       | Some v => <[contribution_day := (v + 1)%Q]> day_contribution_map
       | None => day_contribution_map
       end)
    day_contribution_map dates.

(** [main], given the command line, the current day and what [g.log]
    returns or raises.  The value returned is the matrix of
    [graph_block], if it has been built. *)
Definition main (cli : Namespace) (today : date) (log : result string)
    : IO (option (list Column.t)) :=
  g ← lift (configure cli);
  match log with
  | Ok last_year_log_dates =>
      let raw_commits :=
        split (remove_char "'" last_year_log_dates) (String "010" "") in
      commits_db ←
        match raw_commits with
        | String _ _ :: _ => lift (read_commits g raw_commits)
        | _ =>
            print [OutStr "No contribution found"] (String "010" "");;
            lift (Raise (SystemExit 0))
        end;
      let dates := (values commits_db).*1 in
      let day_contribution_map := window today in
      let day_contribution_map := count_commits dates day_contribution_map in
      day_contribution_map ← lift (normalize day_contribution_map 0 5);
      matrix ←
        (if GRAPH_INLINE g
         then graph_inline g today day_contribution_map;; mret None
         else matrix ← graph_block g day_contribution_map;
              mret (Some matrix));
      (if SHOW_STAT g then
         print [] (String "010" "");;
         print [OutStats
                  (commit_author <$> concat ((values commits_db).*2))] ""
       else mret tt);;
      mret matrix
  | Raise InvalidGitRepositoryError
  | Raise GitCommandError
  | Raise GitCommandNotFound =>
      print [OutStr "Are you sure your in an initialized git directory?"]
            (String "010" "");;
      mret None
  | Raise e => lift (Raise e)
  | Diverge => lift Diverge
  end.
End main.

(** ** Notions used in the statements *)

(** A dictionary whose values are all the same number. *)
Definition all_equal `{Countable K} (d : gmap K Q) : Prop :=
  ∀ k1 k2 v1 v2, d !! k1 = Some v1 → d !! k2 = Some v2 → v1 == v2.

(** [v] is the least (greatest) value of the dictionary. *)
Definition least `{Countable K} (d : gmap K Q) (v : Q) : Prop :=
  (∃ k, d !! k = Some v) ∧ ∀ k v', d !! k = Some v' → (v <= v')%Q.
Definition greatest `{Countable K} (d : gmap K Q) (v : Q) : Prop :=
  (∃ k, d !! k = Some v) ∧ ∀ k v', d !! k = Some v' → (v' <= v)%Q.

(** The palette has the six colours of the three colour schemes. *)
Definition six_colors (g : globals) : Prop := length (COLORS g) = 6%nat.

(** Every value of the map is one of the buckets 0..5. *)
Definition buckets (m : gmap date Q) : Prop :=
  ∀ k v, m !! k = Some v → ∃ b, v = inject_Z b ∧ 0 ≤ b ≤ 5.

(** The bucket of a count as the specification writes it:
    [ceil((rawCount - minV) / (maxV - minV) * 5)]. *)
Definition spec_bucket (minV maxV rawCount : Q) : Z :=
  Qceiling ((rawCount - minV) / (maxV - minV) * 5).

(** The slots of a matrix, column after column, and the days in them. *)
Definition slots (matrix : list Column.t) : list slot :=
  concat (Column.col <$> matrix).
Definition placed_days (matrix : list Column.t) : list date :=
  omap fst (slots matrix).

(** The number of slots of a matrix that hold a day. *)
Definition non_blank (matrix : list Column.t) : nat :=
  length (filter (λ s : slot, is_Some s.1) (slots matrix)).

(** The matrix during the loop of [graph_block]: all columns but the last
    are full, and the last has at most 7 slots. *)
Definition open_matrix (matrix : list Column.t) : Prop :=
  ∃ init last, matrix = init ++ [last]
    ∧ Forall (λ c, Column.len c = 7%nat) init ∧ (Column.len last ≤ 7)%nat.

(** [matrix'] has the columns of [matrix], each with the same slots and
    possibly more after them, and possibly more columns. *)
Definition grows (matrix matrix' : list Column.t) : Prop :=
  ∀ i c, matrix !! i = Some c →
    ∃ c', matrix' !! i = Some c' ∧ Column.col c `prefix_of` Column.col c'.

(** The number of timestamps of a list that fall on a day. *)
Definition events_on (dates : list datetime) (d : date) : nat :=
  length (filter (λ dt, dt_date dt = d) dates).

(** ** Checks over the days of a year

    What [month_day] returns is checked for every day of a common year and
    of a leap year. *)

Definition all_below (P : Z → bool) (n : N) : bool :=
  (N.iter n (λ '(r, ok), (r + 1, ok && P r)) (0, true)).2.

(** On the day [doy] of a year (from 0): the month and the day are those of
    a date of the calendar, the days before the month and the day add up
    to the day of the year, and the next day is in another month exactly
    on the last day of the month; the last day of the year is 31
    December.  Year 4 stands for the leap years and year 1 for the
    others. *)
Definition month_day_check (leapyear : bool) (doy : Z) : bool :=
  let y := if leapyear then 4 else 1 in
  let '(m, d) := month_day leapyear doy in
  (1 <=? m) && (m <=? 12) && (1 <=? d) && (d <=? days_in_month y m)
  && (days_before_month y m + d =? doy + 1)
  && (if doy + 1 <? 365 + (if leapyear then 1 else 0)
      then Bool.eqb (negb ((month_day leapyear (doy + 1)).1 =? m))
                    (d =? days_in_month y m)
      else (m =? 12) && (d =? 31)).

(** ** Sample inputs *)

(** A week in which every day has two contributions. *)
Definition week_of_twos : gmap date Q :=
  list_to_map ((λ d, (d, 2%Q)) <$> seqZ 736000 7).

(** A fortnight with no contribution at all. *)
Definition empty_fortnight : gmap date Q :=
  list_to_map ((λ d, (d, 0%Q)) <$> seqZ 736000 14).

(** Scenario A: fourteen days, thirteen without a contribution and one
    with four. *)
Definition scenario_A : gmap date Q :=
  <[736009 := 4%Q]> empty_fortnight.

(** The settings of a run without options. *)
Definition default_cli : Namespace := {|
  cli_type := type_block;
  cli_width := width_reg;
  cli_day := None;
  cli_color := color_grass;
  cli_stat := false;
  cli_block := false;
  cli_merge := false;
  cli_author := None
|}.

Definition default_globals : globals := {|
  GRAPH_INLINE := false;
  BLOCK_WIDTH := BLOCK_REG;
  COLORS := COLORS_GRASS;
  SHOW_BY_DAY := None;
  SHOW_STAT := false;
  BLOCK_SEPARATION_SHOW := "";
  MONTH_SEPARATION := true
|}.

(** The settings of a run with [--merge]. *)
Definition merged_globals : globals := {|
  GRAPH_INLINE := false;
  BLOCK_WIDTH := BLOCK_REG;
  COLORS := COLORS_GRASS;
  SHOW_BY_DAY := None;
  SHOW_STAT := false;
  BLOCK_SEPARATION_SHOW := "";
  MONTH_SEPARATION := false
|}.

(** Monday 29 January 2024 to Sunday 4 February 2024, already in
    buckets. *)
Definition turn_of_january : gmap date Q :=
  list_to_map
    [(738914, 0%Q); (738915, 3%Q); (738916, 5%Q); (738917, 1%Q);
     (738918, 0%Q); (738919, 2%Q); (738920, 0%Q)].

(** Two commits of 1 March 2016 with the same timestamp, in a log read on
    1 June 2016. *)
Definition first_of_march : datetime :=
  {| dt_date := 736024; dt_time := 36000; dt_utcoffset := -18000 |}.

Definition sample_parse_date (s : string) : result datetime :=
  if String.eqb s "2016-03-01 10:00:00 -0500" then Ok first_of_march
  else Raise ValueError.

Definition sample_raw_commits : list string :=
  ["2016-03-01 10:00:00 -0500 ~ alice"; "2016-03-01 10:00:00 -0500 ~ bob"].

Definition first_of_june : date := 736116.

Definition sample_commits_db : gmap Z (datetime * list Commit) :=
  {[ instant first_of_march :=
       (first_of_march,
        [{| commit_date := first_of_march; commit_author := "alice" |};
         {| commit_date := first_of_march; commit_author := "bob" |}]) ]}.

(** One commit of Tuesday 26 May 2015, in a log read on 1 June 2016: the
    commit is younger than one year and seven days and older than the
    first Sunday of the window, 31 May 2015. *)
Definition late_may : datetime :=
  {| dt_date := 735744; dt_time := 43200; dt_utcoffset := 0 |}.

Definition late_may_parse_date (s : string) : result datetime :=
  if String.eqb s "2015-05-26 12:00:00 +0000" then Ok late_may
  else Raise ValueError.

Definition late_may_log : string := "'2015-05-26 12:00:00 +0000 ~ carol'".

(** ** [print_stats] *)

(** [Counter(l)]: how many times each item of [l] occurs. *)
Definition Counter (l : list string) : gmap string nat :=
  foldl (λ counter elem, <[elem := S (default 0%nat (counter !! elem))]> counter)
        ∅ l.

(** The place of an item in a list that goes from the greatest count to
    the least: after the items with at least its count. *)
Fixpoint insert_by_count (item : string * nat) (l : list (string * nat))
    : list (string * nat) :=
  match l with
  | [] => [item]
  | item' :: l' =>
      if (item'.2 <? item.2)%nat then item :: item' :: l'
      else item' :: insert_by_count item l'
  end.

(** [counter.most_common(n)]: the [n] items with the greatest counts,
    from the greatest count to the least; items with the same count come
    in the order of the iteration over the counter. *)
Definition most_common (counter : gmap string nat) (n : nat)
    : list (string * nat) :=
  take n (foldl (λ acc item, insert_by_count item acc) []
                (map_to_list counter)).

(** ["{}. {}: {}".format(idx+1, info[0], info[1])] *)
Definition stats_line (idx : nat) (info : string * nat) : string :=
  pretty (idx + 1)%nat +:+ ". " +:+ info.1 +:+ ": " +:+ pretty info.2.

(** [print_stats].  In [main] above the report is kept as the one piece
    [OutStats]; its pieces are those that are printed here. *)
Definition print_stats (commits_db : gmap Z (datetime * list Commit)) (n : nat)
    : IO unit :=
  let commits_authors := commit_author <$> concat (values commits_db).*2 in
  let counter := Counter commits_authors in
  let top_n := most_common counter n in
  match top_n with
  | [] => mret tt
  | _ =>
      print [OutStr ("Top " +:+ pretty n +:+ " committers:")] (String "010" "");;
      for_in (imap (λ idx info, (idx, info)) top_n)
        (λ '(idx, info) _,
           print [OutStr (stats_line idx info)] (String "010" ""))
        tt
  end.

(** ** The months of the header *)

(** [calendar.month_abbr], in the C locale. *)
Definition month_abbr (month : Z) : string :=
  nth (Z.to_nat month)
    [""; "Jan"; "Feb"; "Mar"; "Apr"; "May"; "Jun"; "Jul"; "Aug"; "Sep";
     "Oct"; "Nov"; "Dec"] "".

(** [get_months]; an item is the abbreviation of a month, with the year
    before it when [include_year] is set. *)
Fixpoint get_months (start_date : date) (months : nat) (include_year : bool)
    : list (option Z * string) :=
  match months with
  | O => []
  | S months =>
      let start_date :=
        start_date - days_in_month (year start_date) (month start_date) in
      (if include_year then Some (year start_date) else None,
       month_abbr (month start_date))
      :: get_months start_date months include_year
  end.

(** [get_months_with_last_same_as_first]; [today] is what
    [datetime.date.today()] returns. *)
Definition get_months_with_last_same_as_first (today : date)
    (start_date : date) (months : nat) (include_year : bool)
    : result (list (option Z * string)) :=
  if include_year then
    let months := get_months today 12 true in
    Ok ((Some (year start_date), month_abbr (month start_date)) :: months)
  else
    let months := get_months today 12 false in
    last_month ← py_index months (-1);
    Ok (last_month :: months).

(** ** Notions used in the further properties *)

(** The count of a day selects a colour of the palette. *)
Definition paintable (g : globals) (m : gmap Z Q) (d : Z) : bool :=
  match m !! d with
  | Some v =>
      match py_index (COLORS g) (py_int v) with Ok _ => true | _ => false end
  | None => false
  end.

(** A slot as [graph_block] writes it: blank, or a day of the map with
    the block in the colour of its count. *)
Definition painted (g : globals) (m : gmap Z Q) (s : slot) : Prop :=
  s = blank g
  ∨ ∃ d v color, s = (Some d, Colorize (BLOCK_WIDTH g) 0 color)
      ∧ m !! d = Some v ∧ py_index (COLORS g) (py_int v) = Ok color.

(** Every day of the matrix is in the row of its weekday, Sunday first:
    the row is the index of the name of the day in the list [days] of
    [graph_block]. *)
Definition weekday_rows (matrix : list Column.t) : Prop :=
  ∀ c i d b, c ∈ matrix → Column.col c !! i = Some (Some d, b) →
    list_index (strftime_A d) days_full = Ok i.

(** The matrix before the round of the day [d], when the days before it
    have come one after the other: the days are in the rows of their
    weekdays and the last column ends above the row of [d]. *)
Definition in_step (d : Z) (matrix : list Column.t) : Prop :=
  ∃ init last, matrix = init ++ [last]
    ∧ Forall (λ c, Column.len c = 7%nat) init ∧ (Column.len last ≤ 7)%nat
    ∧ Z.of_nat (Column.len last) mod 7 = d mod 7
    ∧ ∀ c i d' b, c ∈ matrix → Column.col c !! i = Some (Some d', b) →
        Z.of_nat i = d' mod 7.




(** The colour of a count: [COLORS[int(v)]] for a count that is a
    bucket. *)
Definition colour_of (g : globals) (v : Q) : Z :=
  nth (Z.to_nat (py_int v)) (COLORS g) 0.

(** The line that [graph_inline] prints for a day. *)
Definition inline_line (g : globals) (m : gmap Z Q) (d : Z) : list output :=
  [OutGlyph (Colorize (BLOCK_WIDTH g) 0 (colour_of g (default 0%Q (m !! d))));
   OutStr " "; OutDate "%b %d, %Y" d; OutStr (String "010" "")].

(** The dates among the pieces that have been printed. *)
Definition printed_dates (out : list output) : list Z :=
  omap (λ o, match o with OutDate _ d => Some d | _ => None end) out.

(** What [main] prints after the graph: with [--stat], an empty line and
    the report of [print_stats] on the commits that have been kept. *)
Definition report (g : globals) (commits_db : gmap Z (datetime * list Commit))
    : list output :=
  if SHOW_STAT g then
    [OutStr (String "010" "");
     OutStats (commit_author <$> concat ((values commits_db).*2)); OutStr ""]
  else [].

(** The commit that [main] keeps of a line of the log, if it keeps
    one. *)
Definition kept_commit (parse_date : string → result datetime) (g : globals)
    (rc : string) : option Commit :=
  match split rc " ~ " with
  | [date; author] =>
      match parse_date date with
      | Ok date =>
          if match SHOW_BY_DAY g with
             | Some name => negb (String.eqb name (strftime_A (dt_date date)))
             | None => false
             end
          then None
          else Some {| commit_date := date; commit_author := author |}
      | _ => None
      end
  | _ => None
  end.

(** The exception that a line of the log raises in the loop of [main],
    if it raises one: [ValueError] when [rc.split(" ~ ")] has not two
    parts, or what [parse_date] raises. *)
Definition line_fault (parse_date : string → result datetime) (rc : string)
    : option exn :=
  match split rc " ~ " with
  | [date; author] =>
      match parse_date date with
      | Raise e => Some e
      | _ => None
      end
  | _ => Some ValueError
  end.

(** [commits_db] during the loop: a timestamp is the key of the commits
    with that timestamp; there is at least one, and the [datetime] that
    is kept as the key is that of the first. *)
Definition by_timestamp (commits_db : gmap Z (datetime * list Commit)) : Prop :=
  ∀ k dt cs, commits_db !! k = Some (dt, cs) →
    (∃ c, head cs = Some c ∧ commit_date c = dt)
    ∧ Forall (λ c, instant (commit_date c) = k) cs.

(** The number of the commits of an author in [commits_db]. *)
Definition commits_of (commits_db : gmap Z (datetime * list Commit))
    (author : string) : nat :=
  length (filter (λ c, commit_author c = author)
                 (concat (values commits_db).*2)).

(** The month that lies [i] months before the month [month] of the year
    [year]: its year and its number. *)
Definition months_before (year month i : Z) : Z * Z :=
  (year + (month - 1 - i) / 12, (month - 1 - i) mod 12 + 1).

(** ** Further sample inputs *)

(** Three days of July 2024; the count of the second is no index of the
    palette. *)
Definition week_of_six : gmap Z Q :=
  list_to_map [(739078, 0%Q); (739079, 6%Q); (739080, 1%Q)].

(** The settings of a run with [--type inline]. *)
Definition inline_cli : Namespace := {|
  cli_type := type_inline;
  cli_width := width_reg;
  cli_day := None;
  cli_color := color_grass;
  cli_stat := false;
  cli_block := false;
  cli_merge := false;
  cli_author := None
|}.

(** The module-level variables of that run. *)
Definition inline_globals : globals := {|
  GRAPH_INLINE := true;
  BLOCK_WIDTH := BLOCK_REG;
  COLORS := COLORS_GRASS;
  SHOW_BY_DAY := None;
  SHOW_STAT := false;
  BLOCK_SEPARATION_SHOW := "";
  MONTH_SEPARATION := true
|}.

(** A log with one commit of 1 March 2016, read on 1 June 2016. *)
Definition march_log : string := "'2016-03-01 10:00:00 -0500 ~ alice'".

(** What [main] keeps of that log. *)
Definition march_commits_db : gmap Z (datetime * list Commit) :=
  {[ instant first_of_march :=
       (first_of_march,
        [{| commit_date := first_of_march; commit_author := "alice" |}]) ]}.

(** What [main] keeps of the log with the commit of 26 May 2015. *)
Definition late_may_commits_db : gmap Z (datetime * list Commit) :=
  {[ instant late_may :=
       (late_may, [{| commit_date := late_may; commit_author := "carol" |}]) ]}.

(** The settings of a run with [--day mon]. *)
Definition day_mon_globals : globals := {|
  GRAPH_INLINE := false;
  BLOCK_WIDTH := BLOCK_REG;
  COLORS := COLORS_GRASS;
  SHOW_BY_DAY := Some "Tuesday";
  SHOW_STAT := false;
  BLOCK_SEPARATION_SHOW := "";
  MONTH_SEPARATION := true
|}.

(** ** Tactics *)

(** Evaluates the lengths of months that are given in numbers. *)
Ltac calendar_values :=
  repeat match goal with
  | H : context [days_in_month ?y ?m] |- _ =>
      let v := eval vm_compute in (days_in_month y m) in
      change (days_in_month y m) with v in H
  | H : context [days_before_month ?y ?m] |- _ =>
      let v := eval vm_compute in (days_before_month y m) in
      change (days_before_month y m) with v in H
  | |- context [days_in_month ?y ?m] =>
      let v := eval vm_compute in (days_in_month y m) in
      change (days_in_month y m) with v
  | |- context [days_before_month ?y ?m] =>
      let v := eval vm_compute in (days_before_month y m) in
      change (days_before_month y m) with v
  end.

(** * Properties of [normalize] *)

Section dict_facts.
Context `{Countable K} {V : Type}.
Implicit Types (d : gmap K V) (k : K) (v : V).

Lemma elem_of_keys d k : k ∈ keys d ↔ is_Some (d !! k).
Proof.
  unfold keys. rewrite list_elem_of_fmap. split.
  - intros [[k' v] [-> Hin]]. apply elem_of_map_to_list in Hin. by exists v.
  - intros [v Hv]. exists (k, v). split; [done|]. by apply elem_of_map_to_list.
Qed.

Lemma elem_of_values d v : v ∈ values d ↔ ∃ k, d !! k = Some v.
Proof.
  unfold values. rewrite list_elem_of_fmap. split.
  - intros [[k v'] [-> Hin]]. apply elem_of_map_to_list in Hin. by exists k.
  - intros [k Hk]. exists (k, v). split; [done|]. by apply elem_of_map_to_list.
Qed.

Lemma NoDup_keys d : NoDup (keys d).
Proof. apply NoDup_fst_map_to_list. Qed.

Lemma keys_nil d : keys d = [] ↔ d = ∅.
Proof.
  unfold keys. split.
  - intros Hnil. apply fmap_nil_inv in Hnil. by apply map_to_list_empty_iff.
  - intros ->. by rewrite map_to_list_empty.
Qed.

Lemma values_nil d : values d = [] ↔ d = ∅.
Proof.
  unfold values. split.
  - intros Hnil. apply fmap_nil_inv in Hnil. by apply map_to_list_empty_iff.
  - intros ->. by rewrite map_to_list_empty.
Qed.

(** A loop that rewrites the value under each key it visits. *)
Lemma for_in_update (g : V → V) body ks d :
  (∀ key d', body key d' = (v ← getitem d' key; Ok (<[key := g v]> d'))) →
  NoDup ks →
  (∀ k, k ∈ ks → is_Some (d !! k)) →
  ∃ d', for_in ks body d = Ok d' ∧
    ∀ k, d' !! k = if decide (k ∈ ks) then g <$> d !! k else d !! k.
Proof.
  intros Hbody. revert d. induction ks as [|key rest IH]; intros d Hnd Hin.
  - exists d. split; [done|]. intros k. case_decide; [|done].
    by apply elem_of_nil in H0.
  - apply NoDup_cons in Hnd as [Hfresh Hnd].
    destruct (Hin key) as [v Hv]; [left|].
    destruct (IH (<[key := g v]> d) Hnd) as (d' & Hrun & Hd').
    { intros k Hk. rewrite lookup_insert. case_decide; [done|].
      apply Hin. by right. }
    exists d'. split.
    + cbn [for_in]. rewrite Hbody. unfold getitem. rewrite Hv. exact Hrun.
    + intros k. rewrite Hd'. rewrite lookup_insert.
      destruct (decide (key = k)) as [->|Hne].
      * rewrite decide_False by done. rewrite decide_True by left.
        by rewrite Hv.
      * destruct (decide (k ∈ rest)) as [Hk|Hk].
        -- by rewrite decide_True by (by right).
        -- rewrite decide_False; [done|].
           intros [->|?]%elem_of_cons; done.
Qed.

Lemma for_in_fmap (g : V → V) body d :
  (∀ key d', body key d' = (v ← getitem d' key; Ok (<[key := g v]> d'))) →
  for_in (keys d) body d = Ok (g <$> d).
Proof.
  intros Hbody.
  destruct (for_in_update g body (keys d) d Hbody) as (d' & -> & Hd').
  - apply NoDup_keys.
  - intros k. by rewrite elem_of_keys.
  - f_equal. apply map_eq. intros k. rewrite Hd', lookup_fmap.
    case_decide as Hk; [done|].
    rewrite elem_of_keys in Hk. apply eq_None_not_Some in Hk. by rewrite Hk.
Qed.

(** A loop whose body raises at the first key. *)
Lemma for_in_raise body e d :
  d ≠ ∅ →
  (∀ key d', is_Some (d' !! key) → body key d' = Raise e) →
  for_in (keys d) body d = Raise e.
Proof.
  intros Hne Hbody. destruct (keys d) as [|key rest] eqn:Hks.
  - by apply keys_nil in Hks.
  - cbn [for_in]. rewrite Hbody; [done|].
    apply elem_of_keys. rewrite Hks. left.
Qed.
End dict_facts.

Section normalize_facts.
Context `{Countable K}.
Implicit Types (d : gmap K Q) (k : K) (v : Q).

Lemma Qltb_true a b : Qltb a b = true ↔ (a < b)%Q.
Proof.
  unfold Qltb. rewrite negb_true_iff. split.
  - intros Hle. apply Qnot_le_lt. intros Hba.
    apply Qle_bool_iff in Hba. congruence.
  - intros Hlt. apply not_true_is_false. intros Hba.
    apply Qle_bool_iff in Hba. by apply Qlt_not_le in Hlt.
Qed.

Lemma Qltb_false a b : Qltb a b = false ↔ (b <= a)%Q.
Proof.
  unfold Qltb. rewrite negb_false_iff. apply Qle_bool_iff.
Qed.

(** The running minimum of a scan is an item seen so far and lies below
    all of them. *)
Lemma foldl_min_spec (vs : list Q) (v0 : Q) :
  let m := foldl (λ cur item, if Qltb item cur then item else cur) v0 vs in
  m ∈ v0 :: vs ∧ ∀ v, v ∈ v0 :: vs → (m <= v)%Q.
Proof.
  revert v0. induction vs as [|x vs IH]; intros v0; cbn [foldl].
  - split; [left|]. intros v ->%list_elem_of_singleton. apply Qle_refl.
  - destruct (Qltb x v0) eqn:Hx.
    + apply Qltb_true in Hx. destruct (IH x) as [Hin Hle]. split.
      * by right.
      * intros v [->|Hv]%elem_of_cons; [|by apply Hle].
        eapply Qle_trans; [apply Hle; left|]. by apply Qlt_le_weak.
    + apply Qltb_false in Hx. destruct (IH v0) as [Hin Hle]. split.
      * apply elem_of_cons in Hin as [->|Hin]; [left|]. right. by right.
      * intros v [->|[->|Hv]%elem_of_cons]%elem_of_cons.
        -- apply Hle. left.
        -- eapply Qle_trans; [apply Hle; left|done].
        -- apply Hle. by right.
Qed.

Lemma foldl_max_spec (vs : list Q) (v0 : Q) :
  let m := foldl (λ cur item, if Qltb cur item then item else cur) v0 vs in
  m ∈ v0 :: vs ∧ ∀ v, v ∈ v0 :: vs → (v <= m)%Q.
Proof.
  revert v0. induction vs as [|x vs IH]; intros v0; cbn [foldl].
  - split; [left|]. intros v ->%list_elem_of_singleton. apply Qle_refl.
  - destruct (Qltb v0 x) eqn:Hx.
    + apply Qltb_true in Hx. destruct (IH x) as [Hin Hle]. split.
      * by right.
      * intros v [->|Hv]%elem_of_cons; [|by apply Hle].
        eapply Qle_trans; [|apply Hle; left]. by apply Qlt_le_weak.
    + apply Qltb_false in Hx. destruct (IH v0) as [Hin Hle]. split.
      * apply elem_of_cons in Hin as [->|Hin]; [left|]. right. by right.
      * intros v [->|[->|Hv]%elem_of_cons]%elem_of_cons.
        -- apply Hle. left.
        -- eapply Qle_trans; [done|apply Hle; left].
        -- apply Hle. by right.
Qed.

Lemma py_min_spec d :
  d ≠ ∅ →
  ∃ m, py_min (values d) = Ok m ∧
    (∃ k, d !! k = Some m) ∧ ∀ k v, d !! k = Some v → (m <= v)%Q.
Proof.
  intros Hne. destruct (values d) as [|v0 vs] eqn:Hvs.
  - by apply values_nil in Hvs.
  - destruct (foldl_min_spec vs v0) as [Hin Hle].
    eexists. split; [reflexivity|]. split.
    + apply elem_of_values. by rewrite Hvs.
    + intros k v Hk. apply Hle. rewrite <- Hvs. apply elem_of_values. eauto.
Qed.

Lemma py_max_spec d :
  d ≠ ∅ →
  ∃ m, py_max (values d) = Ok m ∧
    (∃ k, d !! k = Some m) ∧ ∀ k v, d !! k = Some v → (v <= m)%Q.
Proof.
  intros Hne. destruct (values d) as [|v0 vs] eqn:Hvs.
  - by apply values_nil in Hvs.
  - destruct (foldl_max_spec vs v0) as [Hin Hle].
    eexists. split; [reflexivity|]. split.
    + apply elem_of_values. by rewrite Hvs.
    + intros k v Hk. apply Hle. rewrite <- Hvs. apply elem_of_values. eauto.
Qed.
End normalize_facts.

Section normalize_run.
Context `{Countable K}.
Implicit Types (d : gmap K Q) (k : K) (v : Q).

(** What [normalize] does on a non-empty dictionary, from the extreme
    values it computes: it raises when they coincide, and otherwise maps
    every value through the two rescaling steps. *)
Lemma normalize_unfold d x y min_value max_value :
  py_min (values d) = Ok min_value →
  py_max (values d) = Ok max_value →
  d ≠ ∅ →
  normalize d x y =
    if Qeq_bool (max_value - min_value) 0 then Raise ZeroDivisionError
    else Ok ((λ v, math_ceil ((v - min_value) / (max_value - min_value)
                              * (y - x) + x)%Q) <$> d).
Proof.
  intros Hmin Hmax Hne. unfold normalize. rewrite Hmin, Hmax. cbn.
  destruct (Qeq_bool (max_value - min_value) 0) eqn:Hrange.
  - erewrite for_in_raise; [done|done|].
    intros key d' [v Hv]. unfold getitem, float_div.
    by rewrite Hv; cbn; rewrite Hrange.
  - erewrite (for_in_fmap
      (λ v, ((v - min_value) / (max_value - min_value))%Q)); cycle 1.
    { intros key d'. unfold getitem, float_div.
      destruct (d' !! key); cbn; [|done]. by rewrite Hrange. }
    cbn. erewrite (for_in_fmap (λ v, math_ceil (v * (y - x) + x)%Q));
      cycle 1.
    { intros key d'. unfold getitem. by destruct (d' !! key). }
    by rewrite <- map_fmap_compose.
Qed.
End normalize_run.

Section normalize_buckets.
Context `{Countable K}.
Implicit Types (d : gmap K Q) (k : K) (v : Q).

Lemma least_unique d m m' : least d m → least d m' → m == m'.
Proof.
  intros [[k Hk] Hle] [[k' Hk'] Hle']. apply Qle_antisym; eauto.
Qed.

Lemma greatest_unique d m m' : greatest d m → greatest d m' → m == m'.
Proof.
  intros [[k Hk] Hle] [[k' Hk'] Hle']. apply Qle_antisym; eauto.
Qed.

Lemma least_nonempty d m : least d m → d ≠ ∅.
Proof. intros [[k Hk] _] ->. by rewrite lookup_empty in Hk. Qed.

Lemma py_min_least d : d ≠ ∅ → ∃ m, py_min (values d) = Ok m ∧ least d m.
Proof.
  intros Hne. destruct (py_min_spec d Hne) as (m & Hm & Hin & Hle).
  exists m. by repeat split.
Qed.

Lemma py_max_greatest d :
  d ≠ ∅ → ∃ m, py_max (values d) = Ok m ∧ greatest d m.
Proof.
  intros Hne. destruct (py_max_spec d Hne) as (m & Hm & Hin & Hle).
  exists m. by repeat split.
Qed.

(** The extreme values of a dictionary coincide exactly when all its
    values do. *)
Lemma all_equal_extremes d m M :
  least d m → greatest d M → all_equal d ↔ m == M.
Proof.
  intros [[k Hk] Hle] [[k' Hk'] Hge]. split.
  - intros Heq. by eapply Heq.
  - intros HmM k1 k2 v1 v2 H1 H2. apply Qle_antisym.
    + eapply Qle_trans; [by eapply Hge|]. rewrite <- HmM. by eapply Hle.
    + eapply Qle_trans; [by eapply Hge|]. rewrite <- HmM. by eapply Hle.
Qed.

(** On counts that are not all equal every value is rescaled. *)
Lemma normalize_rescale d x y m M :
  least d m → greatest d M → (m < M)%Q →
  ∃ d', normalize d x y = Ok d' ∧
    ∀ k, d' !! k =
      (λ v, math_ceil ((v - m) / (M - m) * (y - x) + x)%Q) <$> d !! k.
Proof.
  intros Hleast Hgreatest Hlt.
  pose proof (least_nonempty d m Hleast) as Hne.
  destruct (py_min_least d Hne) as (m' & Hm & Hleast').
  destruct (py_max_greatest d Hne) as (M' & HM & Hgreatest').
  pose proof (least_unique d m' m Hleast' Hleast) as Hmm.
  pose proof (greatest_unique d M' M Hgreatest' Hgreatest) as HMM.
  rewrite (normalize_unfold d x y m' M' Hm HM Hne).
  destruct (Qeq_bool (M' - m') 0) eqn:Hrange.
  - apply Qeq_bool_eq in Hrange. rewrite Hmm, HMM in Hrange.
    lra.
  - eexists. split; [done|]. intros k. rewrite lookup_fmap.
    destruct (d !! k) as [v|]; [|done]. cbn. f_equal. unfold math_ceil.
    f_equal. apply Qceiling_comp. by rewrite Hmm, HMM.
Qed.
End normalize_buckets.

Section checks.
Context `{Countable K}.
Implicit Types (d : gmap K Q) (k : K) (v : Q).

(** Deciding the side conditions on a given dictionary. *)
Lemma values_check d (P : Q → bool) :
  forallb P (values d) = true → ∀ k v, d !! k = Some v → P v = true.
Proof.
  intros Hall k v Hk. rewrite forallb_forall in Hall. apply Hall.
  apply list_elem_of_In, elem_of_values. eauto.
Qed.

Lemma least_check d k m :
  d !! k = Some m → forallb (Qle_bool m) (values d) = true → least d m.
Proof.
  intros Hk Hall. split; [eauto|]. intros k' v' Hk'.
  apply Qle_bool_iff. by eapply (values_check d).
Qed.

Lemma greatest_check d k m :
  d !! k = Some m → forallb (λ v, Qle_bool v m) (values d) = true →
  greatest d m.
Proof.
  intros Hk Hall. split; [eauto|]. intros k' v' Hk'.
  apply Qle_bool_iff. by eapply (values_check d (λ v, Qle_bool v m)).
Qed.

Lemma all_equal_check d v0 :
  forallb (Qeq_bool v0) (values d) = true → all_equal d.
Proof.
  intros Hall k1 k2 v1 v2 H1 H2.
  apply (values_check d _ Hall) in H1, H2.
  apply Qeq_bool_eq in H1, H2. by rewrite <- H1, <- H2.
Qed.

Lemma nonempty_check d k v : d !! k = Some v → d ≠ ∅.
Proof. intros Hk ->. by rewrite lookup_empty in Hk. Qed.

Lemma not_all_equal_check d k1 k2 v1 v2 :
  d !! k1 = Some v1 → d !! k2 = Some v2 → Qeq_bool v1 v2 = false →
  ¬ all_equal d.
Proof.
  intros H1 H2 Hne Heq. apply Qeq_bool_neq in Hne. by eapply Hne, Heq.
Qed.

(** Counts that are not all equal have distinct extremes. *)
Lemma not_all_equal_extremes d :
  ¬ all_equal d → ∃ m M, least d m ∧ greatest d M ∧ (m < M)%Q.
Proof.
  intros Hne.
  assert (d ≠ ∅) as Hd.
  { intros ->. apply Hne. intros k1 k2 v1 v2 H1. by rewrite lookup_empty in H1. }
  destruct (py_min_least d Hd) as (m & _ & Hleast).
  destruct (py_max_greatest d Hd) as (M & _ & Hgreatest).
  exists m, M. repeat split; try apply Hleast; try apply Hgreatest.
  destruct (Qlt_le_dec m M) as [Hlt|Hle]; [done|]. exfalso. apply Hne.
  apply (all_equal_extremes d m M); [done..|].
  destruct Hleast as [_ Hl], Hgreatest as [[k Hk] _].
  apply Qle_antisym; [by eapply Hl|done].
Qed.

(** The rescaled value of a count between the extremes. *)
Lemma rescale_bounds (m M v : Q) :
  (m < M)%Q → (m <= v)%Q → (v <= M)%Q →
  (0 <= (v - m) / (M - m) * (5 - 0) + 0 <= 5)%Q.
Proof.
  intros Hlt Hlo Hhi.
  assert (0 <= (v - m) / (M - m))%Q as H0.
  { apply Qle_shift_div_l; lra. }
  assert ((v - m) / (M - m) <= 1)%Q as H1.
  { apply Qle_shift_div_r; lra. }
  split; lra.
Qed.

Lemma rescale_mono (m M v w : Q) :
  (m < M)%Q → (v <= w)%Q →
  ((v - m) / (M - m) * (5 - 0) + 0 <= (w - m) / (M - m) * (5 - 0) + 0)%Q.
Proof.
  intros Hlt Hvw.
  assert ((v - m) / (M - m) <= (w - m) / (M - m))%Q as Hdiv.
  { unfold Qdiv. apply Qmult_le_compat_r; [lra|].
    apply Qinv_le_0_compat. lra. }
  lra.
Qed.

(** Outside the degenerate case every bucket is one of 0..5. *)
Lemma normalize_range d :
  ¬ all_equal d →
  ∃ d', normalize d 0 5 = Ok d' ∧
    ∀ k, is_Some (d !! k) →
      ∃ b, d' !! k = Some (inject_Z b) ∧ 0 ≤ b ≤ 5.
Proof.
  intros Hne. destruct (not_all_equal_extremes d Hne) as (m & M & Hm & HM & Hlt).
  destruct (normalize_rescale d 0 5 m M Hm HM Hlt) as (d' & Hrun & Hd').
  exists d'. split; [done|]. intros k [v Hv]. rewrite Hd', Hv. cbn.
  eexists. split; [reflexivity|].
  destruct (rescale_bounds m M v Hlt) as [Hlo Hhi].
  { by eapply Hm. } { by eapply HM. }
  split.
  - exact (Qceiling_resp_le 0 _ Hlo).
  - exact (Qceiling_resp_le _ 5 Hhi).
Qed.
End checks.

(** * The claims on [normalize] *)

(** C1. On a window in which all days have the same count, the all-zero
    window included, [normalize] does not assign bucket 0: the division by
    [max_value - min_value] raises [ZeroDivisionError]. *)
Theorem normalize_equal_counts_raise `{Countable K} (d : gmap K Q) (x y : Q) :
  d ≠ ∅ → all_equal d → normalize d x y = Raise ZeroDivisionError.
Proof.
  intros Hne Heq.
  destruct (py_min_least d Hne) as (m & Hm & Hleast).
  destruct (py_max_greatest d Hne) as (M & HM & Hgreatest).
  rewrite (normalize_unfold d x y m M Hm HM Hne).
  rewrite Qeq_eq_bool; [done|].
  apply (all_equal_extremes d m M) in Heq; [|done..].
  lra.
Qed.

Lemma normalize_equal_counts_raise_witness :
  normalize empty_fortnight 0 5 = Raise ZeroDivisionError.
Proof.
  apply normalize_equal_counts_raise.
  - apply (nonempty_check _ 736000 0%Q). vm_compute. reflexivity.
  - apply (all_equal_check _ 0%Q). vm_compute. reflexivity.
Defined.

(** C3. On a window whose counts are not all equal, [normalize] gives
    every day the bucket [ceil((rawCount - minV) / (maxV - minV) * 5)];
    the days with the least count get bucket 0 and the days with the
    greatest count get bucket 5. *)
Theorem normalize_extremes `{Countable K} (d : gmap K Q) (minV maxV : Q) :
  least d minV → greatest d maxV → (minV < maxV)%Q →
  ∃ d', normalize d 0 5 = Ok d' ∧
    ∀ k rawCount, d !! k = Some rawCount →
      d' !! k = Some (inject_Z (spec_bucket minV maxV rawCount)) ∧
      (rawCount == minV → d' !! k = Some 0%Q) ∧
      (rawCount == maxV → d' !! k = Some 5%Q).
Proof.
  intros Hm HM Hlt.
  destruct (normalize_rescale d 0 5 minV maxV Hm HM Hlt) as (d' & Hrun & Hd').
  exists d'. split; [done|]. intros k v Hv. rewrite Hd', Hv. cbn.
  unfold math_ceil, spec_bucket.
  assert (Qceiling ((v - minV) / (maxV - minV) * (5 - 0) + 0)
          = Qceiling ((v - minV) / (maxV - minV) * 5)) as ->.
  { apply Qceiling_comp. ring. }
  split; [done|]. split; intros Heq.
  - assert (Qceiling ((v - minV) / (maxV - minV) * 5) = Qceiling 0) as ->;
      [|done].
    apply Qceiling_comp. rewrite Heq. field. lra.
  - assert (Qceiling ((v - minV) / (maxV - minV) * 5) = Qceiling 5) as ->;
      [|done].
    apply Qceiling_comp. rewrite Heq. field. lra.
Qed.

Lemma normalize_extremes_witness :
  ∃ d', normalize scenario_A 0 5 = Ok d' ∧
    ∀ k rawCount, scenario_A !! k = Some rawCount →
      d' !! k = Some (inject_Z (spec_bucket 0 4 rawCount)) ∧
      (rawCount == 0 → d' !! k = Some 0%Q) ∧
      (rawCount == 4 → d' !! k = Some 5%Q).
Proof.
  apply (normalize_extremes scenario_A 0 4).
  - apply (least_check _ 736000); vm_compute; reflexivity.
  - apply (greatest_check _ 736009); vm_compute; reflexivity.
  - reflexivity.
Defined.

(** [normalize] raises on equal counts other than 0 as well: a week in
    which every day has two contributions. *)
Example normalize_week_of_twos :
  normalize week_of_twos 0 5 = Raise ZeroDivisionError.
Proof. vm_compute. reflexivity. Qed.

(** C10. On a window whose counts are not all equal, [normalize] is
    monotone: a day with at most the count of another day gets at most
    its bucket. *)
Theorem normalize_monotone `{Countable K} (d : gmap K Q) :
  ¬ all_equal d →
  ∃ d', normalize d 0 5 = Ok d' ∧
    ∀ a b va vb, d !! a = Some va → d !! b = Some vb → (va <= vb)%Q →
      ∃ ba bb, d' !! a = Some (inject_Z ba) ∧ d' !! b = Some (inject_Z bb) ∧
        ba ≤ bb.
Proof.
  intros Hne. destruct (not_all_equal_extremes d Hne) as (m & M & Hm & HM & Hlt).
  destruct (normalize_rescale d 0 5 m M Hm HM Hlt) as (d' & Hrun & Hd').
  exists d'. split; [done|]. intros a b va vb Ha Hb Hle.
  do 2 eexists. rewrite !Hd', Ha, Hb. cbn. unfold math_ceil.
  split; [reflexivity|]. split; [reflexivity|].
  apply Qceiling_resp_le. by apply rescale_mono.
Qed.

Lemma normalize_monotone_witness :
  ∃ d', normalize scenario_A 0 5 = Ok d' ∧
    ∀ a b va vb, scenario_A !! a = Some va → scenario_A !! b = Some vb →
      (va <= vb)%Q →
      ∃ ba bb, d' !! a = Some (inject_Z ba) ∧ d' !! b = Some (inject_Z bb) ∧
        ba ≤ bb.
Proof.
  apply (normalize_monotone scenario_A).
  apply (not_all_equal_check _ 736000 736009 0%Q 4%Q); vm_compute; reflexivity.
Defined.

(** * The calendar *)

Section calendar.
Implicit Types (n k y a b c e : Z).

Lemma all_below_spec P (n : N) r :
  all_below P n = true → 0 ≤ r < Z.of_N n → P r = true.
Proof.
  unfold all_below. revert r.
  induction n as [|n IH] using N.peano_ind; intros r Hall Hr; [lia|].
  rewrite N.iter_succ in Hall.
  assert (∀ k : N,
    (N.iter k (λ '(r, ok), (r + 1, ok && P r)) (0, true)).1 = Z.of_N k)
    as Hfst.
  { induction k as [|k IHk] using N.peano_ind; [done|].
    rewrite N.iter_succ. destruct (N.iter k _ _) as [r' ok]. cbn in *. lia. }
  specialize (Hfst n).
  destruct (N.iter n _ _) as [r' ok]. cbn in *. subst r'.
  apply andb_true_iff in Hall as [Hok HP].
  destruct (decide (r = Z.of_N n)) as [->|]; [done|]. apply IH; [done|lia].
Qed.

Lemma month_day_check_common : all_below (month_day_check false) 365 = true.
Proof. vm_compute. reflexivity. Qed.

Lemma month_day_check_leap : all_below (month_day_check true) 366 = true.
Proof. vm_compute. reflexivity. Qed.

Lemma month_day_checked (leapyear : bool) doy :
  0 ≤ doy < 365 + (if leapyear then 1 else 0) →
  month_day_check leapyear doy = true.
Proof.
  intros Hdoy. destruct leapyear.
  - apply (all_below_spec _ _ _ month_day_check_leap). lia.
  - apply (all_below_spec _ _ _ month_day_check_common). lia.
Qed.

(** The year matters to the lengths of the months only as a leap year or a
    common year. *)
Lemma days_in_month_leap y m :
  days_in_month y m = days_in_month (if is_leap y then 4 else 1) m.
Proof. unfold days_in_month. by destruct (is_leap y). Qed.

Lemma days_before_month_leap y m :
  days_before_month y m = days_before_month (if is_leap y then 4 else 1) m.
Proof. unfold days_before_month. by destruct (is_leap y). Qed.

(** A year written with its place in the cycles of 400, 100 and 4 years. *)
Lemma days_before_year_decomp a b c e :
  0 ≤ b ≤ 3 → 0 ≤ c ≤ 24 → 0 ≤ e ≤ 3 →
  days_before_year (a * 400 + 1 + b * 100 + c * 4 + e)
  = 146097 * a + 36524 * b + 1461 * c + 365 * e.
Proof.
  intros Hb Hc He. unfold days_before_year. cbv zeta.
  replace (a * 400 + 1 + b * 100 + c * 4 + e - 1)
    with (400 * a + 100 * b + 4 * c + e) by lia.
  rewrite <- (Z.div_unique_pos (400 * a + 100 * b + 4 * c + e) 4
                (100 * a + 25 * b + c) e) by lia.
  rewrite <- (Z.div_unique_pos (400 * a + 100 * b + 4 * c + e) 100
                (4 * a + b) (4 * c + e)) by lia.
  rewrite <- (Z.div_unique_pos (400 * a + 100 * b + 4 * c + e) 400
                a (100 * b + 4 * c + e)) by lia.
  lia.
Qed.

Lemma is_leap_decomp a b c e :
  0 ≤ b ≤ 3 → 0 ≤ c ≤ 24 → 0 ≤ e ≤ 3 →
  is_leap (a * 400 + 1 + b * 100 + c * 4 + e)
  = (e =? 3) && (negb (c =? 24) || (b =? 3)).
Proof.
  intros Hb Hc He. unfold is_leap.
  set (y := a * 400 + 1 + b * 100 + c * 4 + e).
  assert (y mod 4 = (e + 1) mod 4) as ->.
  { subst y. replace (a * 400 + 1 + b * 100 + c * 4 + e)
      with (e + 1 + (100 * a + 25 * b + c) * 4) by lia.
    apply Z_mod_plus_full. }
  assert (y mod 100 = (c * 4 + e + 1) mod 100) as ->.
  { subst y. replace (a * 400 + 1 + b * 100 + c * 4 + e)
      with (c * 4 + e + 1 + (4 * a + b) * 100) by lia.
    apply Z_mod_plus_full. }
  assert (y mod 400 = (b * 100 + c * 4 + e + 1) mod 400) as ->.
  { subst y. replace (a * 400 + 1 + b * 100 + c * 4 + e)
      with (b * 100 + c * 4 + e + 1 + a * 400) by lia.
    apply Z_mod_plus_full. }
  destruct (Z.eqb_spec e 3) as [->|He3].
  - replace ((3 + 1) mod 4) with 0 by done. cbn [Z.eqb andb].
    destruct (Z.eqb_spec c 24) as [->|Hc24].
    + replace ((24 * 4 + 3 + 1) mod 100) with 0 by done. cbn [Z.eqb negb orb].
      destruct (Z.eqb_spec b 3) as [->|Hb3]; [done|].
      apply Z.eqb_neq. rewrite Z.mod_small by lia. lia.
    + cbn [negb orb]. replace (c * 4 + 3 + 1) with ((c + 1) * 4) by lia.
      assert (((c + 1) * 4) mod 100 ≠ 0) as Hne.
      { rewrite Z.mod_small by lia. lia. }
      apply Z.eqb_neq in Hne. by rewrite Hne.
  - cbn [andb]. assert ((e + 1) mod 4 ≠ 0) as Hne.
    { rewrite Z.mod_small by lia. lia. }
    apply Z.eqb_neq in Hne. by rewrite Hne.
Qed.

(** [ord2ymd] finds the year of an ordinal and the day in that year. *)
Lemma ord2ymd_spec n :
  ∃ y doy,
    n = days_before_year y + 1 + doy
    ∧ 0 ≤ doy < 365 + (if is_leap y then 1 else 0)
    ∧ ord2ymd n = (y, (month_day (is_leap y) doy).1,
                      (month_day (is_leap y) doy).2).
Proof.
  unfold ord2ymd. cbv zeta.
  pose proof (Z_div_mod_eq_full (n - 1) 146097) as E1.
  pose proof (Z.mod_pos_bound (n - 1) 146097 ltac:(lia)) as B1.
  set (a := (n - 1) / 146097) in *. set (r1 := (n - 1) mod 146097) in *.
  pose proof (Z_div_mod_eq_full r1 36524) as E2.
  pose proof (Z.mod_pos_bound r1 36524 ltac:(lia)) as B2.
  set (b := r1 / 36524) in *. set (r2 := r1 mod 36524) in *.
  pose proof (Z_div_mod_eq_full r2 1461) as E3.
  pose proof (Z.mod_pos_bound r2 1461 ltac:(lia)) as B3.
  set (c := r2 / 1461) in *. set (r3 := r2 mod 1461) in *.
  pose proof (Z_div_mod_eq_full r3 365) as E4.
  pose proof (Z.mod_pos_bound r3 365 ltac:(lia)) as B4.
  set (e := r3 / 365) in *. set (doy := r3 mod 365) in *.
  clearbody a r1 b r2 c r3 e doy.
  assert (0 ≤ b ≤ 4) as Hb by lia.
  assert (0 ≤ c ≤ 24) as Hc by lia.
  assert (0 ≤ e ≤ 4) as He by lia.
  destruct (Z.eqb_spec b 4) as [Hb4|Hb4].
  - (* the last day of a cycle of 400 years *)
    rewrite orb_true_r.
    assert (c = 0 ∧ e = 0 ∧ doy = 0) as (-> & -> & ->) by lia. subst b.
    exists (a * 400 + 1 + 3 * 100 + 24 * 4 + 3), 365.
    rewrite is_leap_decomp, days_before_year_decomp by lia.
    split; [lia|]. split; [done|]. cbn. f_equal. f_equal. lia.
  - destruct (Z.eqb_spec e 4) as [He4|He4].
    + (* the last day of a cycle of 4 years *)
      cbn [orb]. subst e.
      assert (doy = 0 ∧ c ≤ 23) as (-> & Hc23) by lia.
      exists (a * 400 + 1 + b * 100 + c * 4 + 3), 365.
      rewrite is_leap_decomp, days_before_year_decomp by lia.
      replace (c =? 24) with false by (symmetry; apply Z.eqb_neq; lia).
      split; [lia|]. split; [done|]. cbn. f_equal. f_equal. lia.
    + cbn [orb].
      exists (a * 400 + 1 + b * 100 + c * 4 + e), doy.
      rewrite is_leap_decomp, days_before_year_decomp by lia.
      split; [lia|]. split.
      * destruct ((e =? 3) && (negb (c =? 24) || (b =? 3))); lia.
      * by destruct (month_day _ doy).
Qed.

(** A year has 365 days, and one more when it is a leap year. *)
Lemma days_before_year_succ y :
  days_before_year (y + 1)
  = days_before_year y + 365 + (if is_leap y then 1 else 0).
Proof.
  unfold days_before_year, is_leap. cbv zeta.
  replace (y + 1 - 1) with y by lia.
  destruct (Z.eqb_spec (y mod 4) 0) as [H4|H4];
    destruct (Z.eqb_spec (y mod 100) 0) as [H100|H100];
    destruct (Z.eqb_spec (y mod 400) 0) as [H400|H400];
    cbn [negb orb andb]; Z.div_mod_to_equations; lia.
Qed.

Lemma days_before_year_mono y y' :
  y ≤ y' → days_before_year y ≤ days_before_year y'.
Proof.
  intros Hle. replace y' with (y + Z.of_nat (Z.to_nat (y' - y))) by lia.
  induction (Z.to_nat (y' - y)) as [|k IH].
  - by rewrite Z.add_0_r.
  - rewrite Nat2Z.inj_succ.
    replace (y + Z.succ (Z.of_nat k)) with (y + Z.of_nat k + 1) by lia.
    rewrite days_before_year_succ. destruct (is_leap (y + Z.of_nat k)); lia.
Qed.

(** The year and the day in the year determine the date. *)
Lemma ord2ymd_day_of_year y doy :
  0 ≤ doy < 365 + (if is_leap y then 1 else 0) →
  ord2ymd (days_before_year y + 1 + doy)
  = (y, (month_day (is_leap y) doy).1, (month_day (is_leap y) doy).2).
Proof.
  intros Hdoy.
  destruct (ord2ymd_spec (days_before_year y + 1 + doy))
    as (y' & doy' & Hn & Hdoy' & ->).
  assert (y' = y) as ->.
  { destruct (Z.lt_trichotomy y' y) as [Hlt|[Heq|Hgt]]; [|done|]; exfalso.
    - pose proof (days_before_year_mono (y' + 1) y ltac:(lia)) as Hmono.
      rewrite days_before_year_succ in Hmono. lia.
    - pose proof (days_before_year_mono (y + 1) y' ltac:(lia)) as Hmono.
      rewrite days_before_year_succ in Hmono. lia. }
  by replace doy' with doy by lia.
Qed.

Lemma month_day_check_inv (leapyear : bool) doy :
  month_day_check leapyear doy = true →
  let y := if leapyear then 4 else 1 in
  let m := (month_day leapyear doy).1 in
  let d := (month_day leapyear doy).2 in
  1 ≤ m ≤ 12 ∧ 1 ≤ d ≤ days_in_month y m
  ∧ days_before_month y m + d = doy + 1
  ∧ if decide (doy + 1 < 365 + (if leapyear then 1 else 0))
    then (month_day leapyear (doy + 1)).1 ≠ m ↔ d = days_in_month y m
    else m = 12 ∧ d = 31.
Proof.
  unfold month_day_check. cbv zeta.
  destruct (month_day leapyear doy) as [m d]. cbn [fst snd].
  rewrite !andb_true_iff. intros [[[[[H1 H2] H3] H4] H5] H6].
  apply Z.leb_le in H1, H2, H3, H4. apply Z.eqb_eq in H5.
  split; [lia|]. split; [lia|]. split; [done|].
  destruct (Z.ltb_spec (doy + 1) (365 + (if leapyear then 1 else 0))).
  - rewrite decide_True by done. apply Bool.eqb_prop in H6. split.
    + intros Hne. apply Z.eqb_eq. rewrite <- H6. apply negb_true_iff.
      by apply Z.eqb_neq.
    + intros Heq. apply Z.eqb_eq in Heq. rewrite <- H6 in Heq.
      apply negb_true_iff in Heq. by apply Z.eqb_neq.
  - rewrite decide_False by lia. apply andb_true_iff in H6 as [H6 H7].
    apply Z.eqb_eq in H6, H7. done.
Qed.

(** The date of an ordinal, with what was checked for it. *)
Lemma date_of_ordinal n :
  ∃ y doy,
    n = days_before_year y + 1 + doy
    ∧ 0 ≤ doy < 365 + (if is_leap y then 1 else 0)
    ∧ year n = y
    ∧ month n = (month_day (is_leap y) doy).1
    ∧ day n = (month_day (is_leap y) doy).2
    ∧ 1 ≤ month n ≤ 12
    ∧ 1 ≤ day n ≤ days_in_month y (month n)
    ∧ days_before_month y (month n) + day n = doy + 1.
Proof.
  destruct (ord2ymd_spec n) as (y & doy & Hn & Hdoy & Hymd).
  exists y, doy. unfold year, month, day. rewrite Hymd. cbn [fst snd].
  pose proof (month_day_check_inv _ _ (month_day_checked (is_leap y) doy Hdoy))
    as (Hm & Hd & Hsum & _). cbv zeta in *.
  rewrite <- days_in_month_leap in Hd.
  rewrite <- days_before_month_leap in Hsum. done.
Qed.

(** [date(d.year, d.month, d.day)] is [d]. *)
Lemma ymd2ord_ord2ymd n : ymd2ord (year n) (month n) (day n) = n.
Proof.
  destruct (date_of_ordinal n)
    as (y & doy & Hn & _ & -> & _ & _ & _ & _ & Hsum).
  unfold ymd2ord. lia.
Qed.

Lemma month_range n : 1 ≤ month n ≤ 12.
Proof. by destruct (date_of_ordinal n) as (y & doy & _ & _ & _ & _ & _ & ? & _). Qed.

Lemma day_range n : 1 ≤ day n ≤ days_in_month (year n) (month n).
Proof.
  by destruct (date_of_ordinal n) as (y & doy & _ & _ & -> & _ & _ & _ & ? & _).
Qed.

(** The test of [graph_block] for the end of a month: the next day is in
    another month exactly on the last day of a month. *)
Lemma month_rollover n :
  month (n + 1) ≠ month n ↔ day n = days_in_month (year n) (month n).
Proof.
  destruct (ord2ymd_spec n) as (y & doy & Hn & Hdoy & Hymd).
  unfold year, month, day. rewrite Hymd. cbn [fst snd].
  pose proof (month_day_check_inv _ _ (month_day_checked (is_leap y) doy Hdoy))
    as (Hm & Hd & Hsum & Hnext). cbv zeta in *.
  rewrite <- !days_in_month_leap in *.
  destruct (decide (doy + 1 < 365 + (if is_leap y then 1 else 0))) as [Hin|Hout].
  - replace (n + 1) with (days_before_year y + 1 + (doy + 1)) by lia.
    rewrite ord2ymd_day_of_year by lia. done.
  - destruct Hnext as [Hm12 Hd31]. rewrite Hm12, Hd31.
    replace (n + 1) with (days_before_year (y + 1) + 1 + 0)
      by (rewrite days_before_year_succ; lia).
    rewrite ord2ymd_day_of_year by (destruct (is_leap (y + 1)); lia).
    cbn [fst snd]. unfold days_in_month. cbn.
    by destruct (is_leap (y + 1)).
Qed.

(** One year and seven days back is 372 or 373 days back. *)
Lemma sub_relativedelta_1_7 n : 372 ≤ n - sub_relativedelta n 1 7 ≤ 373.
Proof.
  destruct (date_of_ordinal n)
    as (y & doy & Hn & _ & Hy & _ & _ & Hm & Hd & Hsum).
  unfold sub_relativedelta. cbv zeta. rewrite Hy.
  unfold ymd2ord.
  pose proof (days_before_year_succ (y - 1)) as Hsucc.
  replace (y - 1 + 1) with y in Hsucc by lia.
  revert Hd Hsum Hsucc. unfold days_before_month, days_in_month.
  assert (is_leap (y - 1) = true → is_leap y = false) as Hnot2.
  { unfold is_leap. intros [H4 _]%andb_true_iff. apply Z.eqb_eq in H4.
    apply andb_false_iff. left. apply Z.eqb_neq.
    Z.div_mod_to_equations. lia. }
  assert (month n = 1 ∨ month n = 2 ∨ month n = 3 ∨ month n = 4
          ∨ month n = 5 ∨ month n = 6 ∨ month n = 7 ∨ month n = 8
          ∨ month n = 9 ∨ month n = 10 ∨ month n = 11 ∨ month n = 12)
    as Hcases by lia.
  destruct (is_leap (y - 1)) eqn:Hl1; [rewrite (Hnot2 eq_refl) in *|];
    destruct (is_leap y) eqn:Hl;
    destruct Hcases as [->|[->|[->|[->|[->|[->|[->|[->|[->|[->|[->| ->]]]]]]]]]]];
    cbn; change (Z.to_nat 2) with 2%nat; cbn; intros Hd Hsum Hsucc; lia.
Qed.

(** The name of the day of the week, from the ordinal. *)
Lemma strftime_A_mod n :
  strftime_A n = nth (Z.to_nat (n mod 7)) days_full "".
Proof.
  unfold strftime_A, weekday.
  pose proof (Z.mod_pos_bound n 7 ltac:(lia)) as Hn.
  assert ((n + 6) mod 7 = (n mod 7 + 6) mod 7) as ->.
  { rewrite Z.add_mod by lia. by rewrite (Z.mod_small 6 7) by lia. }
  assert (n mod 7 = 0 ∨ n mod 7 = 1 ∨ n mod 7 = 2 ∨ n mod 7 = 3
          ∨ n mod 7 = 4 ∨ n mod 7 = 5 ∨ n mod 7 = 6) as Hcases by lia.
  destruct Hcases as [->|[->|[->|[->|[->|[->| ->]]]]]]; reflexivity.
Qed.

Lemma strftime_A_Sunday n : strftime_A n = "Sunday" ↔ n mod 7 = 0.
Proof.
  rewrite strftime_A_mod.
  pose proof (Z.mod_pos_bound n 7 ltac:(lia)) as Hn.
  assert (n mod 7 = 0 ∨ n mod 7 = 1 ∨ n mod 7 = 2 ∨ n mod 7 = 3
          ∨ n mod 7 = 4 ∨ n mod 7 = 5 ∨ n mod 7 = 6) as Hcases by lia.
  destruct Hcases as [->|[->|[->|[->|[->|[->| ->]]]]]]; split; done.
Qed.

Lemma strftime_A_Saturday n : strftime_A n = "Saturday" ↔ n mod 7 = 6.
Proof.
  rewrite strftime_A_mod.
  pose proof (Z.mod_pos_bound n 7 ltac:(lia)) as Hn.
  assert (n mod 7 = 0 ∨ n mod 7 = 1 ∨ n mod 7 = 2 ∨ n mod 7 = 3
          ∨ n mod 7 = 4 ∨ n mod 7 = 5 ∨ n mod 7 = 6) as Hcases by lia.
  destruct Hcases as [->|[->|[->|[->|[->|[->| ->]]]]]]; split; done.
Qed.

(** [days.index(d.strftime("%A"))]: Sunday is 0. *)
Lemma list_index_strftime_A n :
  list_index (strftime_A n) days_full = Ok (Z.to_nat (n mod 7)).
Proof.
  rewrite strftime_A_mod.
  pose proof (Z.mod_pos_bound n 7 ltac:(lia)) as Hn.
  assert (n mod 7 = 0 ∨ n mod 7 = 1 ∨ n mod 7 = 2 ∨ n mod 7 = 3
          ∨ n mod 7 = 4 ∨ n mod 7 = 5 ∨ n mod 7 = 6) as Hcases by lia.
  destruct Hcases as [->|[->|[->|[->|[->|[->| ->]]]]]]; reflexivity.
Qed.
End calendar.

(** * The matrix of [graph_block] *)

Section lists.
Context {A : Type}.
Implicit Types (l : list A) (a b : A).

Lemma py_index_last l a : py_index (l ++ [a]) (-1) = Ok a.
Proof.
  unfold py_index. rewrite length_app. cbn [length].
  replace (-1 <? 0) with true by done.
  replace ((0 <=? -1 + Z.of_nat (length l + 1))
           && (-1 + Z.of_nat (length l + 1) <? Z.of_nat (length l + 1)))
    with true
    by (symmetry; apply andb_true_iff;
        split; [apply Z.leb_le|apply Z.ltb_lt]; lia).
  replace (Z.to_nat (-1 + Z.of_nat (length l + 1))) with (length l) by lia.
  by rewrite list_lookup_middle.
Qed.

Lemma py_index_lookup l (i : nat) a :
  l !! i = Some a → py_index l (Z.of_nat i) = Ok a.
Proof.
  intros Hi. pose proof (lookup_lt_Some _ _ _ Hi) as Hlt.
  unfold py_index.
  replace (Z.of_nat i <? 0) with false by (symmetry; apply Z.ltb_ge; lia).
  replace ((0 <=? Z.of_nat i) && (Z.of_nat i <? Z.of_nat (length l)))
    with true
    by (symmetry; apply andb_true_iff;
        split; [apply Z.leb_le|apply Z.ltb_lt]; lia).
  by rewrite Nat2Z.id, Hi.
Qed.

Lemma set_last_snoc l a b : set_last (l ++ [a]) b = l ++ [b].
Proof.
  unfold set_last. rewrite length_app. cbn [length].
  replace (Nat.pred (length l + 1)) with (length l + 0)%nat by lia.
  by rewrite insert_app_r.
Qed.
End lists.

Section columns.
Variable g : globals.
Implicit Types (c : Column.t) (s : slot).

Lemma append_ok c s :
  (Column.len c < 7)%nat →
  Column.append c s = Ok (Column.mk (Column.col c ++ [s])).
Proof.
  intros Hlen. unfold Column.append.
  by replace (7 <=? Column.len c)%nat with false by (symmetry; apply Nat.leb_gt; lia).
Qed.

Lemma append_full c s :
  (7 ≤ Column.len c)%nat → Column.append c s = Raise ValueError.
Proof.
  intros Hlen. unfold Column.append.
  by replace (7 <=? Column.len c)%nat with true by (symmetry; apply Nat.leb_le; lia).
Qed.

Lemma fill_loop_ok fuel c :
  (Column.len c ≤ 7)%nat → (7 - Column.len c ≤ fuel)%nat →
  Column.fill_loop g fuel c
  = Ok (Column.mk (Column.col c ++ replicate (7 - Column.len c) (blank g))).
Proof.
  revert c. induction fuel as [|fuel IH]; intros [col] Hle Hfuel;
    cbn [Column.fill_loop]; unfold Column.len in *; cbn [Column.col] in *.
  - replace (length col =? 7)%nat with true by (symmetry; apply Nat.eqb_eq; lia).
    replace (7 - length col)%nat with 0%nat by lia. by rewrite app_nil_r.
  - destruct (length col =? 7)%nat eqn:Hlen.
    + apply Nat.eqb_eq in Hlen. rewrite Hlen. by rewrite app_nil_r.
    + apply Nat.eqb_neq in Hlen.
      rewrite IH by (unfold Column.len; cbn; rewrite length_app; cbn; lia).
      unfold Column.len. cbn [Column.col]. rewrite length_app. cbn [length].
      do 2 f_equal. rewrite <- app_assoc. f_equal.
      replace (7 - length col)%nat with (S (7 - (length col + 1))) by lia.
      done.
Qed.

Lemma fill_ok c :
  (Column.len c ≤ 7)%nat →
  Column.fill g c
  = Ok (Column.mk (Column.col c ++ replicate (7 - Column.len c) (blank g))).
Proof. intros Hle. apply fill_loop_ok; [done|lia]. Qed.

(** A column of more than 7 slots is never filled, whatever the fuel. *)
Lemma fill_loop_diverges fuel c :
  (7 < Column.len c)%nat → Column.fill_loop g fuel c = Diverge.
Proof.
  revert c. induction fuel as [|fuel IH]; intros [col] Hlt;
    cbn [Column.fill_loop]; unfold Column.len in *; cbn [Column.col] in *.
  - by replace (length col =? 7)%nat with false by (symmetry; apply Nat.eqb_neq; lia).
  - replace (length col =? 7)%nat with false by (symmetry; apply Nat.eqb_neq; lia).
    apply IH. cbn. rewrite length_app. lia.
Qed.

(** The loop before the first day. *)
Lemma pad_loop_ok fuel d c :
  let n := Z.to_nat ((d + 1) mod 7) in
  (n ≤ fuel)%nat → (Column.len c + n ≤ 7)%nat →
  pad_loop g fuel d c
  = Ok (Column.mk (Column.col c ++ replicate n (blank g))).
Proof.
  revert d c. induction fuel as [|fuel IH]; intros d [col] n Hfuel Hlen;
    cbn [pad_loop]; unfold Column.len in *; cbn [Column.col] in *.
  - assert ((d + 1) mod 7 = 0) as H0.
    { pose proof (Z.mod_pos_bound (d + 1) 7). lia. }
    assert (strftime_A d = "Saturday") as ->.
    { apply strftime_A_Saturday.
      pose proof (Z.mod_pos_bound d 7). 
      rewrite Z.add_mod in H0 by lia. 
      destruct (decide (d mod 7 = 6)) as [|Hne]; [done|].
      rewrite (Z.mod_small 1 7) in H0 by lia. rewrite Z.mod_small in H0 by lia. lia. }
    cbn. subst n. rewrite H0. cbn. by rewrite app_nil_r.
  - destruct (decide ((d + 1) mod 7 = 0)) as [H0|Hne].
    + assert (strftime_A d = "Saturday") as ->.
      { apply strftime_A_Saturday.
        pose proof (Z.mod_pos_bound d 7).
        rewrite Z.add_mod in H0 by lia.
        destruct (decide (d mod 7 = 6)) as [|Hne]; [done|].
        rewrite (Z.mod_small 1 7) in H0 by lia. rewrite Z.mod_small in H0 by lia. lia. }
      cbn. subst n. rewrite H0. cbn. by rewrite app_nil_r.
    + assert (strftime_A d ≠ "Saturday") as Hsat.
      { rewrite strftime_A_Saturday. intros H6. apply Hne.
        rewrite Z.add_mod by lia. by rewrite H6. }
      apply String.eqb_neq in Hsat. rewrite Hsat.
      pose proof (Z.mod_pos_bound (d + 1) 7 ltac:(lia)) as Hb.
      assert ((d - 1 + 1) mod 7 = (d + 1) mod 7 - 1) as Hprev.
      { replace (d - 1 + 1) with d by lia.
        pose proof (Z_div_mod_eq_full (d + 1) 7) as Hdm.
        symmetry. apply (Z.mod_unique_pos _ _ ((d + 1) / 7)); lia. }
      rewrite append_ok by (unfold Column.len; cbn; lia). cbn.
      rewrite IH
        by (unfold Column.len; cbn; rewrite ?length_app, Hprev; cbn; lia).
      cbn [Column.col]. rewrite Hprev.
      do 2 f_equal. rewrite <- app_assoc. f_equal. subst n.
      replace (Z.to_nat ((d + 1) mod 7)) with (S (Z.to_nat ((d + 1) mod 7 - 1))) by lia.
      done.
Qed.

Lemma first_column_ok first_day :
  first_column g first_day
  = Ok (Column.mk (replicate (Z.to_nat (first_day mod 7)) (blank g))).
Proof.
  unfold first_column.
  pose proof (Z.mod_pos_bound first_day 7 ltac:(lia)) as Hb.
  destruct (String.eqb (strftime_A first_day) "Sunday") eqn:Hsun; cbn [negb].
  - apply String.eqb_eq, strftime_A_Sunday in Hsun. by rewrite Hsun.
  - rewrite pad_loop_ok; replace (first_day - 1 + 1) with first_day by lia;
      cbn; [done|lia..].
Qed.
End columns.

Section step.
Variable g : globals.
Variable m : gmap Z Q.
Implicit Types (c last : Column.t) (matrix init : list Column.t) (d : Z).

Lemma append_day_room cell init last :
  (Column.len last < 7)%nat →
  append_day g cell (init ++ [last]) last
  = Ok (init ++ [Column.mk (Column.col last ++ [cell])]).
Proof.
  intros Hlen. unfold append_day. rewrite append_ok by done.
  by rewrite set_last_snoc.
Qed.

Lemma append_day_full cell init last :
  (7 ≤ Column.len last)%nat →
  append_day g cell (init ++ [last]) last
  = Ok ((init ++ [last]) ++ [Column.mk [cell]]).
Proof.
  intros Hlen. unfold append_day. rewrite append_full by done.
  cbv zeta. rewrite py_index_last. cbn [mbind result_bind].
  rewrite append_ok by (cbn; lia). cbn [mbind result_bind].
  by rewrite set_last_snoc.
Qed.

Lemma end_of_month_same d matrix :
  month (d + 1) = month d → end_of_month g d matrix = Ok matrix.
Proof.
  intros Heq. unfold end_of_month. cbv zeta.
  by rewrite Heq, Z.eqb_refl.
Qed.

Lemma end_of_month_rollover d init last :
  month (d + 1) ≠ month d → (Column.len last ≤ 7)%nat →
  end_of_month g d (init ++ [last])
  = Ok (init ++
        [Column.mk (Column.col last
                    ++ replicate (7 - Column.len last) (blank g));
         Column.init g true;
         Column.mk (replicate (Z.to_nat ((d + 1) mod 7)) (blank g))]).
Proof.
  intros Hne Hlen. unfold end_of_month. cbv zeta.
  apply Z.eqb_neq in Hne. rewrite Hne. cbn [negb].
  rewrite py_index_last. cbn [mbind result_bind].
  rewrite fill_ok by done. cbn [mbind result_bind].
  rewrite set_last_snoc, py_index_last. cbn [mbind result_bind].
  rewrite list_index_strftime_A. cbn [mbind result_bind].
  rewrite set_last_snoc. unfold Column.fill_by. cbn.
  by rewrite <- !app_assoc.
Qed.

Lemma color_ok v :
  six_colors g → (∃ b, v = inject_Z b ∧ 0 ≤ b ≤ 5) →
  ∃ color, py_index (COLORS g) (py_int v) = Ok color.
Proof.
  intros Hsix (b & -> & Hb). unfold py_int. cbn. rewrite Z.quot_1_r.
  destruct (lookup_lt_is_Some_2 (COLORS g) (Z.to_nat b)) as [color Hc].
  { unfold six_colors in Hsix. lia. }
  exists color. rewrite <- (Z2Nat.id b) by lia. by apply py_index_lookup.
Qed.

(** One round of the loop, on a matrix whose last column has at most 7
    slots. *)
Lemma place_day_spec d init last :
  six_colors g → buckets m → is_Some (m !! d) →
  (Column.len last ≤ 7)%nat →
  ∃ block init' last',
    let cell := (Some d, block) in
    (if decide (Column.len last < 7)%nat
     then init' = init ∧ last' = Column.mk (Column.col last ++ [cell])
     else init' = init ++ [last] ∧ last' = Column.mk [cell]) ∧
    (Column.len last' ≤ 7)%nat ∧
    place_day g m d (init ++ [last]) =
      Ok (if decide (month (d + 1) = month d) then init' ++ [last']
          else init' ++
               [Column.mk (Column.col last'
                           ++ replicate (7 - Column.len last') (blank g));
                Column.init g true;
                Column.mk (replicate (Z.to_nat ((d + 1) mod 7)) (blank g))]).
Proof.
  intros Hsix Hbuckets [v Hv] Hlen.
  destruct (color_ok v Hsix (Hbuckets d v Hv)) as [color Hcolor].
  exists (Colorize (BLOCK_WIDTH g) 0 color).
  unfold place_day. rewrite py_index_last. cbn [mbind result_bind].
  unfold getitem. rewrite Hv. cbn [mbind result_bind]. cbv zeta.
  rewrite Hcolor. cbn [mbind result_bind].
  destruct (decide (Column.len last < 7)%nat) as [Hroom|Hfull].
  - eexists init, _. split; [done|].
    rewrite append_day_room by done. cbn [mbind result_bind].
    assert (Column.len (Column.mk (Column.col last
              ++ [(Some d, Colorize (BLOCK_WIDTH g) 0 color)])) ≤ 7)%nat.
    { unfold Column.len in *. cbn. rewrite length_app. cbn. lia. }
    split; [done|].
    destruct (decide (month (d + 1) = month d)).
    + by apply end_of_month_same.
    + by apply end_of_month_rollover.
  - eexists (init ++ [last]), _. split; [done|].
    rewrite append_day_full by lia. cbn [mbind result_bind].
    split; [cbn; lia|].
    destruct (decide (month (d + 1) = month d)).
    + by apply end_of_month_same.
    + apply end_of_month_rollover; [done|cbn; lia].
Qed.
End step.

Section matrix_facts.
Variable g : globals.
Implicit Types (c last : Column.t) (matrix init : list Column.t) (d : Z).

Lemma placed_days_app matrix1 matrix2 :
  placed_days (matrix1 ++ matrix2)
  = placed_days matrix1 ++ placed_days matrix2.
Proof.
  unfold placed_days, slots. by rewrite fmap_app, concat_app, omap_app.
Qed.

Lemma placed_days_column c : placed_days [c] = omap fst (Column.col c).
Proof. unfold placed_days, slots. cbn. by rewrite app_nil_r. Qed.

Lemma omap_blank n : omap fst (replicate n (blank g)) = [].
Proof. induction n as [|n IH]; [done|]. cbn. exact IH. Qed.

Lemma placed_days_blank n : placed_days [Column.mk (replicate n (blank g))] = [].
Proof. rewrite placed_days_column. apply omap_blank. Qed.

Lemma non_blank_placed_days matrix :
  non_blank matrix = length (placed_days matrix).
Proof.
  unfold non_blank, placed_days. induction (slots matrix) as [|[[d|] b] l IH].
  - done.
  - rewrite filter_cons_True by (by eexists). cbn. by rewrite IH.
  - rewrite filter_cons_False by (by intros [? ?]). cbn. exact IH.
Qed.

Lemma grows_refl matrix : grows matrix matrix.
Proof. intros i c Hi. by exists c. Qed.

Lemma grows_trans matrix1 matrix2 matrix3 :
  grows matrix1 matrix2 → grows matrix2 matrix3 → grows matrix1 matrix3.
Proof.
  intros H12 H23 i c Hi.
  destruct (H12 i c Hi) as (c2 & Hi2 & Hp2).
  destruct (H23 i c2 Hi2) as (c3 & Hi3 & Hp3).
  exists c3. split; [done|]. by etrans.
Qed.

(** The last column gets more slots and more columns follow. *)
Lemma grows_last init last ext tail :
  grows (init ++ [last])
        (init ++ Column.mk (Column.col last ++ ext) :: tail).
Proof.
  intros i c Hi.
  destruct (decide (i < length init)%nat) as [Hlt|Hge].
  - rewrite lookup_app_l in Hi by done. exists c.
    by rewrite lookup_app_l by done.
  - rewrite lookup_app_r in Hi by lia.
    destruct (i - length init)%nat as [|j] eqn:Hj; [|by destruct j].
    injection Hi as <-.
    exists (Column.mk (Column.col last ++ ext)). split.
    + rewrite lookup_app_r by lia. by rewrite Hj.
    + by apply prefix_app_r.
Qed.
End matrix_facts.

Section loop.
Variable g : globals.
Variable m : gmap Z Q.
Hypothesis Hsix : six_colors g.
Hypothesis Hbuckets : buckets m.
Implicit Types (c last : Column.t) (matrix init : list Column.t) (d : Z).

(** One round keeps the matrix open, places the day after the days
    already placed and leaves the earlier slots where they are. *)
Lemma place_day_step d matrix :
  is_Some (m !! d) → open_matrix matrix →
  ∃ matrix', place_day g m d matrix = Ok matrix'
    ∧ open_matrix matrix'
    ∧ placed_days matrix' = placed_days matrix ++ [d]
    ∧ grows matrix matrix'.
Proof.
  intros Hd (init & last & -> & Hinit & Hlast).
  destruct (place_day_spec g m d init last Hsix Hbuckets Hd Hlast)
    as (block & init' & last' & Hshape & Hlast' & Hrun).
  cbv zeta in Hshape.
  eexists. split; [exact Hrun|].
  assert (Forall (λ c, Column.len c = 7%nat) init'
          ∧ placed_days (init' ++ [last'])
            = placed_days (init ++ [last]) ++ [d]
          ∧ ∃ ext tail, init' ++ [last']
              = init ++ Column.mk (Column.col last ++ ext) :: tail)
    as (Hinit' & Hdays & ext & tail & Hgrow).
  { destruct (decide (Column.len last < 7)%nat) as [Hroom|Hfull];
      destruct Hshape as [-> ->].
    - split; [done|]. split.
      + rewrite !placed_days_app, !placed_days_column. cbn.
        by rewrite omap_app, app_assoc.
      + by exists [(Some d, block)], [].
    - split; [|split].
      + apply Forall_app. split; [done|]. apply Forall_singleton. lia.
      + rewrite (placed_days_app (init ++ [last])). by rewrite placed_days_column.
      + exists [], [Column.mk [(Some d, block)]].
        by rewrite app_nil_r, <- app_assoc; destruct last. }
  destruct (decide (month (d + 1) = month d)).
  - split; [by exists init', last'|]. split; [done|].
    rewrite Hgrow. apply grows_last.
  - split; [|split].
    + exists (init' ++
              [Column.mk (Column.col last'
                          ++ replicate (7 - Column.len last') (blank g));
               Column.init g true]),
             (Column.mk (replicate (Z.to_nat ((d + 1) mod 7)) (blank g))).
      split; [by rewrite <- app_assoc|]. split.
      * apply Forall_app. split; [done|].
        apply Forall_cons. split.
        -- unfold Column.len in *. cbn. rewrite length_app, length_replicate. lia.
        -- apply Forall_singleton. unfold Column.len. cbn. done.
      * unfold Column.len. cbn. rewrite length_replicate.
        pose proof (Z.mod_pos_bound (d + 1) 7). lia.
    + rewrite <- Hdays. rewrite !placed_days_app.
      rewrite (placed_days_column last').
      change ([?a; ?b; ?c]) with ([a] ++ [b] ++ [c]).
      rewrite !placed_days_app, placed_days_column. cbn [Column.col].
      rewrite omap_app, omap_blank, app_nil_r.
      unfold Column.init. rewrite !placed_days_blank. by rewrite !app_nil_r.
    + apply (grows_trans _ (init' ++ [last'])).
      * rewrite Hgrow. apply grows_last.
      * apply (grows_last init' last' _ [_; _]).
Qed.

(** The loop over the days. *)
Lemma place_days_ok (l : list Z) matrix :
  (∀ d, d ∈ l → is_Some (m !! d)) → open_matrix matrix →
  ∃ matrix', for_in l (place_day g m) matrix = Ok matrix'
    ∧ open_matrix matrix'
    ∧ placed_days matrix' = placed_days matrix ++ l
    ∧ grows matrix matrix'.
Proof.
  revert matrix. induction l as [|d l IH]; intros matrix Hl Hopen.
  - exists matrix. split; [done|]. split; [done|].
    split; [by rewrite app_nil_r|apply grows_refl].
  - destruct (place_day_step d matrix) as (matrix1 & Hrun1 & Hopen1 & Hdays1 & Hgrow1);
      [apply Hl; left|done|].
    destruct (IH matrix1) as (matrix' & Hrun & Hopen' & Hdays & Hgrow);
      [intros d' Hd'; apply Hl; by right|done|].
    exists matrix'. split; [|split; [done|split]].
    + cbn [for_in]. rewrite Hrun1. exact Hrun.
    + rewrite Hdays, Hdays1. by rewrite <- app_assoc.
    + by eapply grows_trans.
Qed.

(** The [fill] after the loop. *)
Lemma final_fill_ok matrix :
  open_matrix matrix →
  ∃ matrix', (last ← py_index matrix (-1);
              c ← Column.fill g last; Ok (set_last matrix c)) = Ok matrix'
    ∧ Forall (λ c, Column.len c = 7%nat) matrix'
    ∧ placed_days matrix' = placed_days matrix
    ∧ grows matrix matrix'.
Proof.
  intros (init & last & -> & Hinit & Hlast).
  rewrite py_index_last. cbn [mbind result_bind].
  rewrite fill_ok by done. cbn [mbind result_bind].
  rewrite set_last_snoc. eexists. split; [done|]. split; [|split].
  - apply Forall_app. split; [done|]. apply Forall_singleton.
    unfold Column.len in *. cbn. rewrite length_app, length_replicate. lia.
  - rewrite !placed_days_app, !placed_days_column. cbn.
    by rewrite omap_app, omap_blank, app_nil_r.
  - apply grows_last.
Qed.
End loop.

Section sorted_facts.
Context {V : Type}.
Implicit Types (m : gmap Z V) (d : Z).

Lemma sorted_Permutation m : sorted m ≡ₚ keys m.
Proof. apply merge_sort_Permutation. Qed.

Lemma elem_of_sorted m d : d ∈ sorted m ↔ is_Some (m !! d).
Proof. by rewrite sorted_Permutation, elem_of_keys. Qed.

Lemma length_sorted m : length (sorted m) = size m.
Proof.
  rewrite sorted_Permutation. unfold keys.
  by rewrite length_fmap, length_map_to_list.
Qed.

Lemma sorted_nonempty m : m ≠ ∅ → ∃ first rest, sorted m = first :: rest.
Proof.
  intros Hne. destruct (sorted m) as [|first rest] eqn:Hs; [|eauto].
  exfalso. apply Hne. apply keys_nil.
  apply Permutation_nil_r. by rewrite <- sorted_Permutation, Hs.
Qed.

Lemma StronglySorted_le_lt (l : list Z) :
  NoDup l → StronglySorted Z.le l → StronglySorted Z.lt l.
Proof.
  induction 2 as [|x l Hsorted IH Hall]; [constructor|].
  apply NoDup_cons in H as [Hx Hnd]. constructor; [by apply IH|].
  rewrite Forall_forall in Hall |- *. intros y Hy.
  specialize (Hall y Hy). destruct (decide (x = y)) as [->|]; [done|lia].
Qed.

(** [sorted] lists each day once, the earlier day first. *)
Lemma sorted_strict m : StronglySorted Z.lt (sorted m).
Proof.
  apply StronglySorted_le_lt.
  - rewrite sorted_Permutation. apply NoDup_keys.
  - apply (StronglySorted_merge_sort Z.le).
Qed.
End sorted_facts.

Section printing.
Lemma status_bind {A B} (x : IO A) (f : A → IO B) :
  status (x ≫= f) =
    match status x with
    | Ok a => status (f a)
    | Raise e => Raise e
    | Diverge => Diverge
    end.
Proof. unfold mbind, IO_bind. by destruct (status x). Qed.

Lemma for_in_IO_ok {A} (l : list A) (body : A → unit → IO unit) :
  (∀ a, a ∈ l → status (body a tt) = Ok tt) →
  status (for_in l body tt) = Ok tt.
Proof.
  induction l as [|a l IH]; intros Hl; [done|].
  cbn [for_in]. rewrite status_bind, Hl by left.
  apply IH. intros a' Ha'. apply Hl. by right.
Qed.

Lemma print_matrix_ok g matrix :
  Forall (λ c, Column.len c = 7%nat) matrix →
  status (print_matrix g matrix) = Ok tt.
Proof.
  intros Hfull. unfold print_matrix. apply for_in_IO_ok.
  intros i Hi. apply elem_of_seqZ in Hi.
  rewrite status_bind. rewrite for_in_IO_ok; [done|].
  intros week Hweek. rewrite Forall_forall in Hfull.
  specialize (Hfull week Hweek). unfold Column.len in Hfull.
  destruct (lookup_lt_is_Some_2 (Column.col week) (Z.to_nat i))
    as [cell Hcell]; [lia|].
  apply py_index_lookup in Hcell. rewrite Z2Nat.id in Hcell by lia.
  rewrite status_bind. unfold lift. cbn [status]. rewrite Hcell.
  by destruct (negb (MONTH_SEPARATION g) && glyph_is cell.2 (BLOCK_WIDTH g)).
Qed.
End printing.

Section build.
Variable g : globals.
Variable m : gmap Z Q.
Hypothesis Hsix : six_colors g.
Hypothesis Hbuckets : buckets m.
Hypothesis Hne : m ≠ ∅.

Lemma first_column_open first_day :
  ∃ c, first_column g first_day = Ok c
    ∧ open_matrix [c] ∧ placed_days [c] = [].
Proof.
  eexists. split; [apply first_column_ok|]. split.
  - eexists [], _. split; [done|]. split; [done|].
    unfold Column.len. cbn. rewrite length_replicate.
    pose proof (Z.mod_pos_bound first_day 7). lia.
  - apply placed_days_blank.
Qed.

(** The matrix that [graph_block] builds. *)
Lemma build_matrix_ok :
  ∃ matrix, build_matrix g m = Ok matrix
    ∧ Forall (λ c, Column.len c = 7%nat) matrix
    ∧ placed_days matrix = sorted m.
Proof.
  unfold build_matrix. cbv zeta.
  destruct (sorted_nonempty m Hne) as (first & rest & Hsorted).
  assert (py_index (sorted m) 0 = Ok first) as ->.
  { rewrite Hsorted. by apply (py_index_lookup _ 0%nat first). }
  cbn [mbind result_bind].
  destruct (first_column_open first) as (c & -> & Hopen & Hdays0).
  cbn [mbind result_bind].
  destruct (place_days_ok g m Hsix Hbuckets (sorted m) [c])
    as (matrix1 & -> & Hopen1 & Hdays1 & _).
  { intros d. apply elem_of_sorted. } { done. }
  cbn [mbind result_bind].
  destruct (final_fill_ok g matrix1 Hopen1)
    as (matrix & Hrun & Hfull & Hdays & _).
  exists matrix. split; [exact Hrun|]. split; [done|].
  by rewrite Hdays, Hdays1, Hdays0.
Qed.

Lemma graph_block_ok :
  ∃ matrix, status (graph_block g m) = Ok matrix
    ∧ build_matrix g m = Ok matrix
    ∧ Forall (λ c, Column.len c = 7%nat) matrix
    ∧ placed_days matrix = sorted m.
Proof.
  destruct build_matrix_ok as (matrix & Hrun & Hfull & Hdays).
  exists matrix. split; [|done].
  unfold graph_block. rewrite status_bind. unfold lift. cbn [status].
  rewrite Hrun. rewrite status_bind. by rewrite print_matrix_ok.
Qed.
End build.

Section bucket_checks.
Lemma buckets_check (m : gmap Z Q) :
  forallb (λ v, (Z.pos (Qden v) =? 1) && (0 <=? Qnum v) && (Qnum v <=? 5))
          (values m) = true →
  buckets m.
Proof.
  intros Hall k v Hk. apply (values_check m _ Hall) in Hk.
  apply andb_true_iff in Hk as [[Hden Hlo]%andb_true_iff Hhi].
  destruct v as [num den]. cbn [Qnum Qden] in *.
  apply Z.eqb_eq in Hden. apply Z.leb_le in Hlo, Hhi.
  exists num. split; [|lia]. unfold inject_Z. f_equal. lia.
Qed.
End bucket_checks.

(** C2. For a non-empty set of days in buckets, every column of the matrix
    that [graph_block] builds, the first, the last and the separators
    included, has exactly 7 slots. *)
Theorem graph_block_columns (g : globals) (m : gmap Z Q) :
  six_colors g → buckets m → m ≠ ∅ →
  ∃ matrix, status (graph_block g m) = Ok matrix
    ∧ Forall (λ c, Column.len c = 7%nat) matrix.
Proof.
  intros Hsix Hbuckets Hne.
  destruct (graph_block_ok g m Hsix Hbuckets Hne) as (matrix & Hrun & _ & Hfull & _).
  by exists matrix.
Qed.

Lemma graph_block_columns_witness :
  ∃ matrix, status (graph_block default_globals turn_of_january) = Ok matrix
    ∧ Forall (λ c, Column.len c = 7%nat) matrix.
Proof.
  apply graph_block_columns.
  - reflexivity.
  - apply buckets_check. vm_compute. reflexivity.
  - apply (nonempty_check _ 738914 0%Q). vm_compute. reflexivity.
Defined.

(** C7. For a non-empty set of days in buckets, and whether the months
    are separated or not, the slots of the matrix of [graph_block] that
    are not blank are as many as the days, and read column after column
    they are the days in strictly increasing order. *)
Theorem graph_block_days (g : globals) (m : gmap Z Q) :
  six_colors g → buckets m → m ≠ ∅ →
  ∃ matrix, status (graph_block g m) = Ok matrix
    ∧ non_blank matrix = size m
    ∧ placed_days matrix = sorted m
    ∧ StronglySorted Z.lt (placed_days matrix).
Proof.
  intros Hsix Hbuckets Hne.
  destruct (graph_block_ok g m Hsix Hbuckets Hne) as (matrix & Hrun & _ & _ & Hdays).
  exists matrix. split; [done|]. split; [|split; [done|]].
  - by rewrite non_blank_placed_days, Hdays, length_sorted.
  - rewrite Hdays. apply sorted_strict.
Qed.

Lemma graph_block_days_witness :
  ∃ matrix, status (graph_block merged_globals turn_of_january) = Ok matrix
    ∧ non_blank matrix = size turn_of_january
    ∧ placed_days matrix = sorted turn_of_january
    ∧ StronglySorted Z.lt (placed_days matrix).
Proof.
  apply graph_block_days.
  - reflexivity.
  - apply buckets_check. vm_compute. reflexivity.
  - apply (nonempty_check _ 738914 0%Q). vm_compute. reflexivity.
Defined.

Section end_of_month.
Variable g : globals.
Variable m : gmap Z Q.
Hypothesis Hsix : six_colors g.
Hypothesis Hbuckets : buckets m.

Lemma for_in_app {A S} (l1 l2 : list A) (body : A → S → result S) (s : S) :
  for_in (l1 ++ l2) body s = s' ← for_in l1 body s; for_in l2 body s'.
Proof.
  revert s. induction l1 as [|a l1 IH]; intros s; [done|].
  cbn [app for_in]. destruct (body a s) as [s'| |]; [|done..].
  cbn [mbind result_bind]. apply IH.
Qed.

(** A full column is not changed by what follows. *)
Lemma grows_full matrix matrix' i c :
  grows matrix matrix' → Forall (λ c, Column.len c = 7%nat) matrix' →
  matrix !! i = Some c → Column.len c = 7%nat → matrix' !! i = Some c.
Proof.
  intros Hgrow Hfull Hi Hlen. destruct (Hgrow i c Hi) as (c' & Hi' & [ext Hext]).
  rewrite Hi'. f_equal. rewrite Forall_forall in Hfull.
  assert (Column.len c' = 7%nat) as Hlen'.
  { apply Hfull. by eapply list_elem_of_lookup_2. }
  unfold Column.len in *. destruct c as [col], c' as [col']. cbn in *.
  subst col'. rewrite length_app in Hlen'.
  destruct ext; [by rewrite app_nil_r|cbn in Hlen'; lia].
Qed.

(** The round of the last day of a month, seen from the matrix before
    it. *)
Lemma place_last_day_of_month d matrix :
  is_Some (m !! d) → open_matrix matrix → month (d + 1) ≠ month d →
  ∃ init c front k block,
    place_day g m d matrix =
      Ok (init ++ [c; Column.init g true;
                   Column.mk (replicate (Z.to_nat ((d + 1) mod 7)) (blank g))])
    ∧ Forall (λ c, Column.len c = 7%nat) init
    ∧ Column.col c = front ++ (Some d, block) :: replicate k (blank g)
    ∧ Column.len c = 7%nat.
Proof.
  intros Hd (init & last & -> & Hinit & Hlast) Hroll.
  destruct (place_day_spec g m d init last Hsix Hbuckets Hd Hlast)
    as (block & init' & last' & Hshape & Hlast' & Hrun).
  cbv zeta in Hshape. rewrite decide_False in Hrun by done.
  exists init', (Column.mk (Column.col last'
                   ++ replicate (7 - Column.len last') (blank g))).
  destruct (decide (Column.len last < 7)%nat); destruct Hshape as [-> ->].
  - exists (Column.col last), (7 - (length (Column.col last) + 1))%nat, block.
    split; [|split; [done|split]].
    + rewrite Hrun. done.
    + unfold Column.len. cbn. rewrite length_app. cbn.
      by rewrite <- app_assoc.
    + unfold Column.len in *. cbn in *.
      rewrite !length_app, length_replicate in *. cbn in *. lia.
  - exists [], 6%nat, block. split; [|split; [|split]].
    + rewrite Hrun. done.
    + apply Forall_app. split; [done|]. apply Forall_singleton. lia.
    + done.
    + done.
Qed.

(** The round of a day that finds a last column of fewer than 7 blanks. *)
Lemma place_day_after_blanks d init w :
  is_Some (m !! d) → (w < 7)%nat →
  ∃ matrix' block ext,
    place_day g m d (init ++ [Column.mk (replicate w (blank g))]) = Ok matrix'
    ∧ matrix' !! length init
      = Some (Column.mk (replicate w (blank g) ++ (Some d, block) :: ext))
    ∧ grows init matrix'.
Proof.
  intros Hd Hw.
  destruct (place_day_spec g m d init (Column.mk (replicate w (blank g)))
              Hsix Hbuckets Hd)
    as (block & init' & last' & Hshape & Hlast' & Hrun).
  { unfold Column.len. cbn. rewrite length_replicate. lia. }
  cbv zeta in Hshape. rewrite decide_True in Hshape
    by (unfold Column.len; cbn; rewrite length_replicate; lia).
  destruct Hshape as [-> ->]. cbn [Column.col] in *.
  assert (∀ tail : list Column.t, grows init (init ++ tail)) as Hkeep.
  { intros tail i c Hi. exists c. split; [|done].
    rewrite lookup_app_l; [done|]. by eapply lookup_lt_Some. }
  destruct (decide (month (d + 1) = month d)).
  - eexists _, block, []. split; [exact Hrun|]. split; [|apply Hkeep].
    rewrite lookup_app_r by lia. by rewrite Nat.sub_diag.
  - eexists _, block, _. split; [exact Hrun|]. split; [|apply Hkeep].
    rewrite lookup_app_r by lia. rewrite Nat.sub_diag. cbn.
    by rewrite <- app_assoc.
Qed.
End end_of_month.

(** C6. When a day is the last of its month and another day follows it,
    [graph_block] pads the column of the day with blanks to exactly 7
    slots, appends a separator column of 7 blanks after it, and opens a new
    column with as many blanks as the index of the weekday of the first day
    of the next month (Sunday is 0), after which the following day is
    placed.  The matrix is the same with and without month separation,
    which only the printing reads. *)
Theorem graph_block_end_of_month (g : globals) (m : gmap Z Q)
    (pre post : list Z) (d nxt : Z) :
  six_colors g → buckets m →
  sorted m = pre ++ d :: nxt :: post →
  day d = days_in_month (year d) (month d) →
  ∃ matrix i c c' front k w block block' rest,
    status (graph_block g m) = Ok matrix
    ∧ matrix !! i = Some c
    ∧ matrix !! S i = Some (Column.init g true)
    ∧ matrix !! S (S i) = Some c'
    ∧ Column.col c = front ++ (Some d, block) :: replicate k (blank g)
    ∧ Column.len c = 7%nat
    ∧ list_index (strftime_A (d + 1)) days_full = Ok w
    ∧ Column.col c' = replicate w (blank g) ++ (Some nxt, block') :: rest.
Proof.
  intros Hsix Hbuckets Hsorted Hlast. apply month_rollover in Hlast.
  assert (∀ x, x ∈ sorted m → is_Some (m !! x)) as Hkeys.
  { intros x. apply elem_of_sorted. }
  rewrite Hsorted in Hkeys.
  assert (∃ first, py_index (sorted m) 0 = Ok first) as [first Hfirst].
  { rewrite Hsorted. destruct pre as [|p pre'].
    - exists d. by apply (py_index_lookup _ 0%nat).
    - exists p. by apply (py_index_lookup _ 0%nat). }
  destruct (first_column_open g first) as (c0 & Hc0 & Hopen0 & _).
  destruct (place_days_ok g m Hsix Hbuckets pre [c0])
    as (matrix1 & Hrun1 & Hopen1 & _ & _); [|done|].
  { intros x Hx. apply Hkeys. apply elem_of_app. by left. }
  destruct (place_last_day_of_month g m Hsix Hbuckets d matrix1)
    as (init & c & front & k & block & Hrun2 & Hinit & Hcol & Hlen);
    [|done|done|].
  { apply Hkeys. apply elem_of_app. right. left. }
  set (w := Z.to_nat ((d + 1) mod 7)) in *.
  assert (w < 7)%nat as Hw.
  { subst w. pose proof (Z.mod_pos_bound (d + 1) 7). lia. }
  set (matrix2 := init ++ [c; Column.init g true;
                            Column.mk (replicate w (blank g))]) in *.
  assert (matrix2 = (init ++ [c; Column.init g true])
                    ++ [Column.mk (replicate w (blank g))]) as Hmatrix2.
  { subst matrix2. by rewrite <- app_assoc. }
  assert (is_Some (m !! nxt)) as Hnxt.
  { apply Hkeys. apply elem_of_app. right. right. left. }
  destruct (place_day_after_blanks g m Hsix Hbuckets nxt
              (init ++ [c; Column.init g true]) w Hnxt Hw)
    as (matrix3 & block' & ext & Hrun3 & Hthird & Hgrow3).
  rewrite <- Hmatrix2 in Hrun3.
  assert (open_matrix matrix3) as Hopen3.
  { destruct (place_day_step g m Hsix Hbuckets nxt matrix2 Hnxt)
      as (matrix3' & Hrun3' & Hopen3' & _).
    - exists (init ++ [c; Column.init g true]), (Column.mk (replicate w (blank g))).
      split; [done|]. split.
      + apply Forall_app. split; [done|].
        apply Forall_cons. split; [done|]. by apply Forall_singleton.
      + unfold Column.len. cbn. rewrite length_replicate. lia.
    - rewrite Hrun3 in Hrun3'. by injection Hrun3' as ->. }
  destruct (place_days_ok g m Hsix Hbuckets post matrix3)
    as (matrix4 & Hrun4 & Hopen4 & _ & Hgrow4); [|done|].
  { intros x Hx. apply Hkeys. apply elem_of_app. right. right. by right. }
  destruct (final_fill_ok g matrix4 Hopen4)
    as (matrix & Hrun & Hfull & _ & Hgrow).
  assert (grows matrix3 matrix) as Hgrow34 by by eapply grows_trans.
  assert (grows (init ++ [c; Column.init g true]) matrix) as Hgrow2
    by by eapply grows_trans.
  assert (build_matrix g m = Ok matrix) as Hbuild.
  { unfold build_matrix. cbv zeta. rewrite Hfirst. cbn [mbind result_bind].
    rewrite Hc0. cbn [mbind result_bind].
    rewrite Hsorted, for_in_app, Hrun1. cbn [mbind result_bind for_in].
    rewrite Hrun2. cbn [mbind result_bind]. rewrite Hrun3.
    cbn [mbind result_bind]. rewrite Hrun4. cbn [mbind result_bind].
    exact Hrun. }
  destruct (Hgrow34 _ _ Hthird) as (c' & Hc' & [more Hmore]).
  cbn [Column.col] in Hmore.
  exists matrix, (length init), c, c', front, k, w, block, block', (ext ++ more).
  split; [|split; [|split; [|split; [|split; [done|split; [done|split]]]]]].
  - unfold graph_block. rewrite status_bind. unfold lift. cbn [status].
    rewrite Hbuild, status_bind. by rewrite print_matrix_ok.
  - apply (grows_full _ _ _ _ Hgrow2 Hfull); [|done].
    rewrite lookup_app_r by lia. by rewrite Nat.sub_diag.
  - apply (grows_full _ _ _ _ Hgrow2 Hfull); [|done].
    rewrite lookup_app_r by lia.
    by replace (S (length init) - length init)%nat with 1%nat by lia.
  - rewrite <- Hc'. f_equal. rewrite length_app. cbn. lia.
  - apply list_index_strftime_A.
  - rewrite Hmore. by rewrite <- !app_assoc.
Qed.

Lemma graph_block_end_of_month_witness :
  ∃ matrix i c c' front k w block block' rest,
    status (graph_block default_globals turn_of_january) = Ok matrix
    ∧ matrix !! i = Some c
    ∧ matrix !! S i = Some (Column.init default_globals true)
    ∧ matrix !! S (S i) = Some c'
    ∧ Column.col c
      = front ++ (Some 738916, block) :: replicate k (blank default_globals)
    ∧ Column.len c = 7%nat
    ∧ list_index (strftime_A (738916 + 1)) days_full = Ok w
    ∧ Column.col c'
      = replicate w (blank default_globals) ++ (Some 738917, block') :: rest.
Proof.
  apply (graph_block_end_of_month default_globals turn_of_january
           [738914; 738915] [738918; 738919; 738920]).
  - reflexivity.
  - apply buckets_check. vm_compute. reflexivity.
  - vm_compute. reflexivity.
  - vm_compute. reflexivity.
Defined.

(** * The window of [main] *)

Section window_facts.
(** The first Sunday on or after a day. *)
Lemma first_sunday (start : Z) :
  let ws := start + (- start) mod 7 in
  start ≤ ws ≤ start + 6 ∧ ws mod 7 = 0
  ∧ ∀ d, start ≤ d < ws → d mod 7 ≠ 0.
Proof.
  cbv zeta. pose proof (Z.mod_pos_bound (- start) 7 ltac:(lia)) as Hb.
  pose proof (Z_div_mod_eq_full (- start) 7) as Hdm.
  split; [lia|]. split.
  - replace (start + (- start) mod 7) with (0 + (- ((- start) / 7)) * 7) by lia.
    by rewrite Z_mod_plus_full.
  - intros d Hd Hmod.
    pose proof (Z_div_mod_eq_full d 7) as Hd7. rewrite Hmod in Hd7.
    assert (7 * (d / 7 + (- start) / 7) = d - start - (- start) mod 7) as Heq by lia.
    assert (-7 < 7 * (d / 7 + (- start) / 7) < 0) by lia. lia.
Qed.

(** The loop that initialises the map, after [k] rounds. *)
Lemma window_loop (last_year : Z) (k : nat) :
  let ws := last_year + (- last_year) mod 7 in
  let st :=
    foldl
      (λ '(flag_skip_til_first_sunday, day_contribution_map) i,
         let current_day := last_year + i in
         if flag_skip_til_first_sunday
            && negb (String.eqb (strftime_A current_day) "Sunday")
         then (flag_skip_til_first_sunday, day_contribution_map)
         else (false, <[current_day := 0%Q]> day_contribution_map))
      (true, (∅ : gmap Z Q)) (seqZ 0 (Z.of_nat k)) in
  if decide (last_year + Z.of_nat k ≤ ws) then st = (true, ∅)
  else st.1 = false
       ∧ ∀ d, st.2 !! d =
              if decide (ws ≤ d < last_year + Z.of_nat k) then Some 0%Q
              else None.
Proof.
  cbv zeta. destruct (first_sunday last_year) as (Hws & Hsun & Hbefore).
  set (ws := last_year + (- last_year) mod 7) in *.
  induction k as [|k IH].
  - cbn. rewrite decide_True by lia. done.
  - rewrite Nat2Z.inj_succ. unfold Z.succ.
    rewrite seqZ_app by lia. rewrite foldl_app. cbn [seqZ].
    change (seqZ (0 + Z.of_nat k) 1) with [0 + Z.of_nat k]. cbn [foldl].
    rewrite Z.add_0_l.
    destruct (foldl _ _ (seqZ 0 (Z.of_nat k))) as [flag dcm].
    destruct (decide (last_year + Z.of_nat k ≤ ws)) as [Hle|Hgt].
    + injection IH as -> ->. cbn [andb].
      destruct (decide (last_year + Z.of_nat k = ws)) as [Heq|Hne].
      * assert (strftime_A (last_year + Z.of_nat k) = "Sunday") as ->.
        { apply strftime_A_Sunday. by rewrite Heq. }
        cbn. rewrite decide_False by lia. split; [done|]. intros d.
        rewrite Heq. rewrite lookup_insert. 
        destruct (decide (ws = d)) as [<-|Hd].
        -- by rewrite decide_True by lia.
        -- rewrite decide_False by lia. by rewrite lookup_empty.
      * assert (strftime_A (last_year + Z.of_nat k) ≠ "Sunday") as Hns.
        { rewrite strftime_A_Sunday. apply Hbefore. lia. }
        apply String.eqb_neq in Hns. rewrite Hns. cbn.
        by rewrite decide_True by lia.
    + destruct IH as [Hflag Hdcm]. cbn in Hflag, Hdcm. subst flag. cbn.
      rewrite decide_False by lia. split; [done|]. intros d.
      rewrite lookup_insert.
      destruct (decide (last_year + Z.of_nat k = d)) as [<-|Hd].
      * by rewrite decide_True by lia.
      * rewrite Hdcm. destruct (decide (ws ≤ d < last_year + Z.of_nat k)).
        -- by rewrite decide_True by lia.
        -- by rewrite decide_False by lia.
Qed.
End window_facts.

(** C5. Whatever the current day, the window starts on the first Sunday on
    or after [today - relativedelta(years=1, days=7)], it ends on the
    current day, and every day from its start to its end has an entry with
    no contribution. *)
Theorem window_days (today : Z) :
  let rawStart := sub_relativedelta today 1 7 in
  ∃ windowStart,
    rawStart ≤ windowStart ≤ today
    ∧ strftime_A windowStart = "Sunday"
    ∧ (∀ d, rawStart ≤ d < windowStart → strftime_A d ≠ "Sunday")
    ∧ ∀ d, window today !! d =
           if decide (windowStart ≤ d ≤ today) then Some 0%Q else None.
Proof.
  cbv zeta. pose proof (sub_relativedelta_1_7 today) as Hback.
  set (rawStart := sub_relativedelta today 1 7) in *.
  destruct (first_sunday rawStart) as (Hws & Hsun & Hbefore).
  exists (rawStart + (- rawStart) mod 7).
  split; [lia|]. split; [by apply strftime_A_Sunday|]. split.
  - intros d Hd. rewrite strftime_A_Sunday. by apply Hbefore.
  - intros d. unfold window. cbv zeta. fold rawStart.
    pose proof (window_loop rawStart (Z.to_nat (today - rawStart + 1))) as Hloop.
    cbv zeta in Hloop. rewrite Z2Nat.id in Hloop by lia.
    rewrite decide_False in Hloop by lia. destruct Hloop as [_ Hloop].
    rewrite Hloop.
    destruct (decide (rawStart + (- rawStart) mod 7 ≤ d ≤ today)).
    + by rewrite decide_True by lia.
    + by rewrite decide_False by lia.
Qed.

(** * The aggregation and [main] *)

Section aggregation.
Implicit Types (dates : list datetime) (m : gmap Z Q) (d : Z).

Lemma events_on_cons dt dates d :
  events_on (dt :: dates) d
  = ((if decide (dt_date dt = d) then 1 else 0) + events_on dates d)%nat.
Proof.
  unfold events_on. destruct (decide (dt_date dt = d)).
  - by rewrite filter_cons_True by done.
  - by rewrite filter_cons_False by done.
Qed.

(** The loop over [dates] adds one to a day of the map for every
    timestamp of the list on that day, and adds no day to the map. *)
Lemma count_commits_lookup dates m d :
  match m !! d with
  | Some v =>
      ∃ v', count_commits dates m !! d = Some v'
        ∧ v' == v + inject_Z (Z.of_nat (events_on dates d))
  | None => count_commits dates m !! d = None
  end.
Proof.
  revert m. induction dates as [|dt dates IH]; intros m.
  - cbn. destruct (m !! d) as [v|]; [|done].
    exists v. split; [done|]. cbn. ring.
  - unfold count_commits. cbn [foldl]. fold (count_commits dates).
    rewrite ymd2ord_ord2ymd. rewrite events_on_cons.
    destruct (decide (dt_date dt = d)) as [Heq|Hne].
    + rewrite Heq. destruct (m !! d) as [w|] eqn:Hw.
      * specialize (IH (<[d := (w + 1)%Q]> m)).
        rewrite lookup_insert_eq in IH. destruct IH as (v' & Hv' & Hsum).
        exists v'. split; [done|]. rewrite Hsum.
        rewrite Nat2Z.inj_add, inject_Z_plus. cbn. ring.
      * specialize (IH m). by rewrite Hw in IH.
    + destruct (m !! dt_date dt) as [w|] eqn:Hw.
      * specialize (IH (<[dt_date dt := (w + 1)%Q]> m)).
        rewrite lookup_insert_ne in IH by done.
        destruct (m !! d) as [v|]; [|done].
        destruct IH as (v' & Hv' & Hsum). by exists v'.
      * apply IH.
Qed.
End aggregation.

(** C4. A day's count is not the number of the commits of that day: the
    loop that counts runs over the keys of [commits_db], and two commits
    with the same timestamp are one key.  Of the two commits of 1 March
    2016 in the sample log, both kept under their common timestamp, one is
    counted. *)
Theorem same_timestamp_counted_once :
  read_commits sample_parse_date default_globals sample_raw_commits
  = Ok sample_commits_db
  ∧ commit_author <$> concat ((values sample_commits_db).*2) = ["alice"; "bob"]
  ∧ window first_of_june !! 736024 = Some 0%Q
  ∧ count_commits ((values sample_commits_db).*1) (window first_of_june)
    !! 736024 = Some 1%Q.
Proof. repeat split; vm_compute; reflexivity. Qed.

Section main_facts.
Variable parse_date : string → result datetime.

Lemma configure_ok cli : ∃ g, configure cli = Ok g ∧ six_colors g.
Proof.
  destruct cli as [t w [[]|] [] s b mg a]; eexists; split; reflexivity.
Qed.
End main_facts.

(** C8. On an empty log, which is also what a filter on an author without
    commits leaves, [main] prints "No contribution found", leaves through
    [sys.exit(0)] and builds no matrix. *)
Theorem main_no_contribution (parse_date : string → result datetime)
    (cli : Namespace) (today : Z) :
  main parse_date cli today (Ok "")
  = mkIO [OutStr "No contribution found"; OutStr (String "010" "")]
         (Raise (SystemExit 0))
  ∧ exit_status (status (main parse_date cli today (Ok ""))) = Some 0.
Proof.
  destruct (configure_ok cli) as (g & Hg & _).
  unfold main. rewrite Hg. split; reflexivity.
Qed.

(** C9. [main] does not always end with a bucket in 0..5 for every day:
    when the only commit of the log is older than the first day of the
    window, all counts are 0 and the run ends with the
    [ZeroDivisionError] of [normalize], before any bucket is assigned. *)
Theorem main_commit_before_window :
  main late_may_parse_date default_cli first_of_june (Ok late_may_log)
  = mkIO [] (Raise ZeroDivisionError).
Proof. vm_compute. reflexivity. Qed.

(** * The whole pipeline *)

Section pipeline.
Variable parse_date : string → result datetime.

(** [normalize] leaves the buckets that [graph_block] expects, on the same
    days. *)
Lemma normalize_buckets (d : gmap Z Q) :
  ¬ all_equal d →
  ∃ d', normalize d 0 5 = Ok d' ∧ buckets d'
    ∧ ∀ k, is_Some (d' !! k) ↔ is_Some (d !! k).
Proof.
  intros Hne.
  destruct (not_all_equal_extremes d Hne) as (m & M & Hm & HM & Hlt).
  destruct (normalize_rescale d 0 5 m M Hm HM Hlt) as (d' & Hrun & Hd').
  destruct (normalize_range d Hne) as (d'' & Hrun' & Hrange).
  rewrite Hrun in Hrun'. injection Hrun' as <-.
  exists d'. split; [done|]. split.
  - intros k v Hk. destruct (Hrange k) as (b & Hb & Hbounds).
    + rewrite Hd' in Hk. by destruct (d !! k).
    + rewrite Hk in Hb. injection Hb as ->. by exists b.
  - intros k. rewrite Hd'. by rewrite fmap_is_Some.
Qed.

(** A run of [main] in block mode, on a log that is read without fault
    and leaves counts that are not all equal: the matrix is built, its
    columns have 7 slots and its days are the days of the window. *)
Lemma main_block (cli : Namespace) (g : globals) (today : Z) (log : string)
    (line : string) (lines : list string)
    (commits_db : gmap Z (datetime * list Commit)) :
  configure cli = Ok g → GRAPH_INLINE g = false →
  split (remove_char "'" log) (String "010" "") = line :: lines →
  line ≠ "" →
  read_commits parse_date g (line :: lines) = Ok commits_db →
  ¬ all_equal (count_commits (values commits_db).*1 (window today)) →
  ∃ matrix,
    status (main parse_date cli today (Ok log)) = Ok (Some matrix)
    ∧ Forall (λ c, Column.len c = 7%nat) matrix
    ∧ StronglySorted Z.lt (placed_days matrix)
    ∧ ∀ d, d ∈ placed_days matrix ↔ is_Some (window today !! d).
Proof.
  intros Hg Hblock Hsplit Hline Hread Hne.
  destruct (normalize_buckets _ Hne) as (buckets_map & Hnorm & Hbuckets & Hdom).
  assert (six_colors g) as Hsix.
  { destruct (configure_ok cli) as (g' & Hg' & Hsix).
    rewrite Hg in Hg'. by injection Hg' as <-. }
  assert (buckets_map ≠ ∅) as Hnonempty.
  { intros ->. apply Hne. intros k1 k2 v1 v2 H1.
    assert (is_Some ((∅ : gmap Z Q) !! k1)) as [? Hk] by (apply Hdom; eauto).
    by rewrite lookup_empty in Hk. }
  destruct (graph_block_ok g buckets_map Hsix Hbuckets Hnonempty)
    as (matrix & Hgraph & _ & Hfull & Hdays).
  exists matrix. split; [|split; [done|split]].
  - unfold main. rewrite status_bind. unfold lift at 1. cbn [status].
    rewrite Hg, Hsplit. destruct line as [|ch line']; [done|].
    rewrite status_bind. unfold lift at 1. cbn [status]. rewrite Hread.
    cbv zeta. rewrite status_bind. unfold lift at 1. cbn [status].
    rewrite Hnorm, Hblock. rewrite !status_bind, Hgraph. cbn [status mret IO_ret].
    by destruct (SHOW_STAT g).
  - rewrite Hdays. apply sorted_strict.
  - intros d. rewrite Hdays, elem_of_sorted, Hdom.
    pose proof (count_commits_lookup (values commits_db).*1 (window today) d)
      as Hcount.
    destruct (window today !! d) as [v|].
    + destruct Hcount as (v' & -> & _). split; eauto.
    + rewrite Hcount. split; by intros [? ?].
Qed.
End pipeline.

(** * Further properties of [normalize] *)

Section normalize_more.
Context `{Countable K}.
Implicit Types (d : gmap K Q) (x y : Q).

Lemma least_le_greatest d m M : least d m → greatest d M → (m <= M)%Q.
Proof. intros [[k Hk] _] [_ HM]. by apply (HM k). Qed.

Lemma normalize_flat d x y m M :
  least d m → greatest d M → m == M → normalize d x y = Raise ZeroDivisionError.
Proof.
  intros Hm HM Heq. pose proof (least_nonempty d m Hm) as Hne.
  destruct (py_min_least d Hne) as (m' & Hmin & Hm').
  destruct (py_max_greatest d Hne) as (M' & Hmax & HM').
  rewrite (normalize_unfold d x y m' M' Hmin Hmax Hne).
  rewrite Qeq_eq_bool; [done|].
  pose proof (least_unique d m m' Hm Hm').
  pose proof (greatest_unique d M M' HM HM'). lra.
Qed.

Lemma normalize_empty x y : normalize (∅ : gmap K Q) x y = Raise ValueError.
Proof. unfold normalize. by rewrite (proj2 (values_nil _)). Qed.

(** X1. The three ways [normalize] ends, for every dictionary and every
    range: it raises [ValueError] exactly on the empty dictionary, it
    raises [ZeroDivisionError] exactly on a non-empty dictionary whose
    values are all equal, and otherwise it returns a dictionary with the
    same keys. *)
Theorem normalize_outcome d x y :
  match normalize d x y with
  | Ok d' => d ≠ ∅ ∧ ¬ all_equal d ∧ ∀ k, is_Some (d' !! k) ↔ is_Some (d !! k)
  | Raise e =>
      (e = ValueError ∧ d = ∅) ∨ (e = ZeroDivisionError ∧ d ≠ ∅ ∧ all_equal d)
  | Diverge => False
  end.
Proof.
  destruct (decide (d = ∅)) as [->|Hne].
  { rewrite normalize_empty. by left. }
  destruct (py_min_least d Hne) as (m & _ & Hm).
  destruct (py_max_greatest d Hne) as (M & _ & HM).
  pose proof (least_le_greatest d m M Hm HM) as Hle.
  destruct (Qlt_le_dec m M) as [Hlt|Hge].
  - destruct (normalize_rescale d x y m M Hm HM Hlt) as (d' & -> & Hd').
    split; [done|]. split.
    + rewrite (all_equal_extremes d m M Hm HM). lra.
    + intros k. by rewrite Hd', fmap_is_Some.
  - assert (m == M) as Heq by lra.
    rewrite (normalize_flat d x y m M Hm HM Heq). right.
    split; [done|]. split; [done|]. by apply (all_equal_extremes d m M).
Qed.

Lemma unit_interval (m M v : Q) :
  (m < M)%Q → (m <= v)%Q → (v <= M)%Q → (0 <= (v - m) / (M - m) <= 1)%Q.
Proof.
  intros Hlt Hlo Hhi. split.
  - apply Qle_shift_div_l; lra.
  - apply Qle_shift_div_r; lra.
Qed.


Lemma least_affine d (a c m : Q) :
  (0 < a)%Q → least d m → least ((λ v, a * v + c)%Q <$> d) (a * m + c)%Q.
Proof.
  intros Ha [[k Hk] Hle]. split.
  - exists k. by rewrite lookup_fmap, Hk.
  - intros k' v'. rewrite lookup_fmap.
    destruct (d !! k') as [v|] eqn:Hv; [|done].
    intros [= <-]. specialize (Hle k' v Hv). nra.
Qed.

Lemma greatest_affine d (a c M : Q) :
  (0 < a)%Q → greatest d M → greatest ((λ v, a * v + c)%Q <$> d) (a * M + c)%Q.
Proof.
  intros Ha [[k Hk] Hle]. split.
  - exists k. by rewrite lookup_fmap, Hk.
  - intros k' v'. rewrite lookup_fmap.
    destruct (d !! k') as [v|] eqn:Hv; [|done].
    intros [= <-]. specialize (Hle k' v Hv). nra.
Qed.

(** X3. [normalize] depends on the relative size of the values only:
    multiplying every value by a positive number and adding a number to
    every value changes neither the result nor the exception. *)
Theorem normalize_affine d x y (a c : Q) :
  (0 < a)%Q → normalize ((λ v, a * v + c)%Q <$> d) x y = normalize d x y.
Proof.
  intros Ha. destruct (decide (d = ∅)) as [->|Hne].
  { by rewrite fmap_empty. }
  destruct (py_min_least d Hne) as (m & _ & Hm).
  destruct (py_max_greatest d Hne) as (M & _ & HM).
  pose proof (least_le_greatest d m M Hm HM) as Hle.
  pose proof (least_affine d a c m Ha Hm) as Hm'.
  pose proof (greatest_affine d a c M Ha HM) as HM'.
  destruct (Qlt_le_dec m M) as [Hlt|Hge].
  - destruct (normalize_rescale d x y m M Hm HM Hlt) as (d1 & -> & Hd1).
    destruct (normalize_rescale _ x y _ _ Hm' HM') as (d2 & -> & Hd2).
    { apply Qplus_lt_l. by apply Qmult_lt_l. }
    f_equal. apply map_eq. intros k. rewrite Hd1, Hd2, lookup_fmap.
    destruct (d !! k) as [v|]; [|done]. cbn. unfold math_ceil.
    do 2 f_equal. apply Qceiling_comp.
    assert (¬ a * M + c - (a * m + c) == 0)%Q as Hden.
    { intros Heq. assert (a * (M - m) == 0)%Q as Hz by lra.
      apply Qmult_integral in Hz as [Hz|Hz]; lra. }
    field. split; [lra|exact Hden].
  - rewrite (normalize_flat d x y m M Hm HM) by lra.
    apply (normalize_flat _ x y _ _ Hm' HM').
    assert (m == M) as -> by lra. reflexivity.
Qed.
End normalize_more.


Lemma normalize_affine_witness :
  normalize ((λ v, 2 * v + 1)%Q <$> scenario_A) 0 5 = normalize scenario_A 0 5.
Proof. apply normalize_affine. reflexivity. Defined.

(** * [graph_block] for every map and all settings *)

Section palette.
Implicit Types (g : globals) (m : gmap Z Q) (d : Z) (matrix : list Column.t).

Lemma py_index_cases {A} (l : list A) (i : Z) :
  let n := Z.of_nat (length l) in
  (∃ a, py_index l i = Ok a ∧ - n ≤ i < n)
  ∨ (py_index l i = Raise IndexError ∧ (i < - n ∨ n ≤ i)).
Proof.
  cbv zeta. unfold py_index. cbv zeta.
  destruct (i <? 0) eqn:Hneg; [apply Z.ltb_lt in Hneg|apply Z.ltb_ge in Hneg];
    (destruct (_ && _) eqn:Hin;
     [apply andb_true_iff in Hin as [?%Z.leb_le ?%Z.ltb_lt]
     |apply andb_false_iff in Hin as [?%Z.leb_gt|?%Z.ltb_ge]]);
    try (right; split; [done|lia]).
  - destruct (lookup_lt_is_Some_2 l (Z.to_nat (i + Z.of_nat (length l))))
      as [a ->]; [lia|]. left. exists a. split; [done|lia].
  - destruct (lookup_lt_is_Some_2 l (Z.to_nat i)) as [a ->]; [lia|].
    left. exists a. split; [done|lia].
Qed.

Lemma fill_loop_width g g' fuel c :
  BLOCK_WIDTH g = BLOCK_WIDTH g' →
  Column.fill_loop g fuel c = Column.fill_loop g' fuel c.
Proof.
  intros Hw. revert c. induction fuel as [|fuel IH]; intros c; cbn.
  - done.
  - destruct (Column.len c =? 7)%nat; [done|].
    unfold blank. rewrite Hw. apply IH.
Qed.

Lemma end_of_month_width g g' d matrix :
  BLOCK_WIDTH g = BLOCK_WIDTH g' →
  end_of_month g d matrix = end_of_month g' d matrix.
Proof.
  intros Hw. unfold end_of_month, Column.fill, Column.init, Column.fill_by, blank.
  rewrite Hw. cbv zeta. destruct (negb _); [|done].
  destruct (py_index matrix (-1)) as [c| |]; [|done..]. cbn [mbind result_bind].
  by rewrite (fill_loop_width g g' 7 c Hw).
Qed.

(** A round of the loop depends on the settings and on the map through
    the width of a block and the colour of the day only. *)
Lemma place_day_colour g g' m m' d v v' matrix :
  BLOCK_WIDTH g = BLOCK_WIDTH g' →
  m !! d = Some v → m' !! d = Some v' →
  py_index (COLORS g) (py_int v) = py_index (COLORS g') (py_int v') →
  place_day g m d matrix = place_day g' m' d matrix.
Proof.
  intros Hw Hv Hv' Hcolor. unfold place_day, getitem.
  rewrite Hv, Hv'. destruct (py_index matrix (-1)) as [c| |]; [|done..].
  cbn [mbind result_bind]. cbv zeta. rewrite Hcolor, Hw.
  destruct (py_index (COLORS g') (py_int v')) as [color| |]; [|done..].
  cbn [mbind result_bind]. unfold append_day. cbn [Column.init].
  destruct (Column.append c _) as [c'|[]|]; cbn [mbind result_bind];
    try done; try by apply end_of_month_width.
  destruct (py_index _ (-1)) as [c'| |]; [|done..]. cbn [mbind result_bind].
  destruct (Column.append c' _) as [c''| |]; [|done..]. cbn [mbind result_bind].
  by apply end_of_month_width.
Qed.

Lemma place_day_unpaintable g m d matrix :
  is_Some (m !! d) → open_matrix matrix → paintable g m d = false →
  place_day g m d matrix = Raise IndexError.
Proof.
  intros [v Hv] (init & last & -> & _) Hbad. unfold paintable in Hbad.
  rewrite Hv in Hbad. unfold place_day, getitem.
  rewrite py_index_last, Hv. cbn [mbind result_bind]. cbv zeta.
  destruct (py_index_cases (COLORS g) (py_int v)) as [(color & Hc & _)|[Hc _]];
    rewrite Hc in *; done.
Qed.

Lemma place_day_paintable g m d matrix :
  open_matrix matrix → paintable g m d = true →
  ∃ matrix', place_day g m d matrix = Ok matrix'
    ∧ open_matrix matrix'
    ∧ placed_days matrix' = placed_days matrix ++ [d]
    ∧ grows matrix matrix'.
Proof.
  intros Hopen Hgood. unfold paintable in Hgood.
  destruct (m !! d) as [v|] eqn:Hv; [|done].
  destruct (py_index (COLORS g) (py_int v)) as [color| |] eqn:Hcolor; [|done..].
  set (g' := {| GRAPH_INLINE := GRAPH_INLINE g; BLOCK_WIDTH := BLOCK_WIDTH g;
                COLORS := replicate 6 color; SHOW_BY_DAY := SHOW_BY_DAY g;
                SHOW_STAT := SHOW_STAT g;
                BLOCK_SEPARATION_SHOW := BLOCK_SEPARATION_SHOW g;
                MONTH_SEPARATION := MONTH_SEPARATION g |}).
  rewrite (place_day_colour g g' m {[d := 0%Q]} d v 0%Q matrix);
    [|done|done|by rewrite lookup_singleton_eq|by rewrite Hcolor].
  apply place_day_step; [done| |by rewrite lookup_singleton_eq|done].
  intros k w [_ <-]%lookup_singleton_Some. exists 0. split; [done|lia].
Qed.

Lemma place_days_cases g m (l : list Z) matrix :
  (∀ d, d ∈ l → is_Some (m !! d)) → open_matrix matrix →
  if forallb (paintable g m) l
  then ∃ matrix', for_in l (place_day g m) matrix = Ok matrix'
         ∧ open_matrix matrix'
         ∧ placed_days matrix' = placed_days matrix ++ l
         ∧ grows matrix matrix'
  else for_in l (place_day g m) matrix = Raise IndexError.
Proof.
  revert matrix. induction l as [|d l IH]; intros matrix Hl Hopen.
  - cbn. exists matrix. split; [done|]. split; [done|].
    split; [by rewrite app_nil_r|apply grows_refl].
  - cbn [forallb for_in]. destruct (paintable g m d) eqn:Hd.
    + destruct (place_day_paintable g m d matrix Hopen Hd)
        as (matrix1 & -> & Hopen1 & Hdays1 & Hgrow1).
      cbn [mbind result_bind andb].
      assert (∀ d0, d0 ∈ l → is_Some (m !! d0)) as Hl0 by (intros d0 Hd0; apply Hl; by right).
      specialize (IH matrix1 Hl0 Hopen1).
      destruct (forallb (paintable g m) l); [|done].
      destruct IH as (matrix' & Hrun & Hopen' & Hdays & Hgrow).
      exists matrix'. split; [done|]. split; [done|]. split.
      * rewrite Hdays, Hdays1. by rewrite <- app_assoc.
      * by eapply grows_trans.
    + cbn [andb]. rewrite place_day_unpaintable; [done|apply Hl; left|done..].
Qed.

(** What [graph_block] does, for every map and all settings. *)
Lemma graph_block_cases g m :
  if bool_decide (m ≠ ∅) && forallb (paintable g m) (sorted m)
  then ∃ matrix, graph_block g m = mkIO (stdout (print_matrix g matrix)) (Ok matrix)
         ∧ Forall (λ c, Column.len c = 7%nat) matrix
         ∧ placed_days matrix = sorted m
  else graph_block g m = mkIO [] (Raise IndexError).
Proof.
  unfold graph_block, build_matrix. cbv zeta.
  destruct (decide (m = ∅)) as [->|Hne].
  { rewrite bool_decide_false by (by intros []). done. }
  rewrite bool_decide_true by done. cbn [andb].
  destruct (sorted_nonempty m Hne) as (first & rest & Hsorted).
  assert (py_index (sorted m) 0 = Ok first) as ->.
  { rewrite Hsorted. by apply (py_index_lookup _ 0%nat first). }
  cbn [mbind result_bind]. rewrite first_column_ok. cbn [mbind result_bind].
  pose proof (place_days_cases g m (sorted m)
    [Column.mk (replicate (Z.to_nat (first mod 7)) (blank g))]) as Hloop.
  destruct (forallb (paintable g m) (sorted m)).
  - destruct Hloop as (matrix1 & -> & Hopen1 & Hdays1 & _).
    { intros d. apply elem_of_sorted. }
    { eexists [], _. split; [done|]. split; [done|].
      unfold Column.len. cbn. rewrite length_replicate.
      pose proof (Z.mod_pos_bound first 7). lia. }
    cbn [mbind result_bind].
    destruct (final_fill_ok g matrix1 Hopen1)
      as (matrix & -> & Hfull & Hdays & _).
    exists matrix. split; [|split; [done|]].
    + pose proof (print_matrix_ok g matrix Hfull) as Hprint.
      unfold lift, mbind, IO_bind. cbn [status stdout].
      rewrite Hprint. cbn. by rewrite app_nil_r.
    + rewrite Hdays, Hdays1. by rewrite placed_days_blank.
  - rewrite Hloop; [done|intros d; apply elem_of_sorted|].
    eexists [], _. split; [done|]. split; [done|].
    unfold Column.len. cbn. rewrite length_replicate.
    pose proof (Z.mod_pos_bound first 7). lia.
Qed.

(** One round of the loop, in full. *)
Lemma place_day_shape g m d v color init last :
  m !! d = Some v → py_index (COLORS g) (py_int v) = Ok color →
  (Column.len last ≤ 7)%nat →
  let cell := (Some d, Colorize (BLOCK_WIDTH g) 0 color) in
  let init' := if decide (Column.len last < 7)%nat then init else init ++ [last] in
  let last' := if decide (Column.len last < 7)%nat
               then Column.mk (Column.col last ++ [cell]) else Column.mk [cell] in
  place_day g m d (init ++ [last]) =
    Ok (if decide (month (d + 1) = month d) then init' ++ [last']
        else init' ++
             [Column.mk (Column.col last'
                         ++ replicate (7 - Column.len last') (blank g));
              Column.init g true;
              Column.mk (replicate (Z.to_nat ((d + 1) mod 7)) (blank g))]).
Proof.
  intros Hv Hcolor Hlen. cbv zeta.
  unfold place_day. rewrite py_index_last. cbn [mbind result_bind].
  unfold getitem. rewrite Hv. cbn [mbind result_bind]. cbv zeta.
  rewrite Hcolor. cbn [mbind result_bind].
  destruct (decide (Column.len last < 7)%nat) as [Hroom|Hfull].
  - rewrite append_day_room by done. cbn [mbind result_bind].
    destruct (decide (month (d + 1) = month d)).
    + by apply end_of_month_same.
    + apply end_of_month_rollover; [done|].
      unfold Column.len in *. cbn. rewrite length_app. cbn. lia.
  - rewrite append_day_full by lia. cbn [mbind result_bind].
    destruct (decide (month (d + 1) = month d)).
    + by apply end_of_month_same.
    + apply end_of_month_rollover; [done|cbn; lia].
Qed.
End palette.


(** * What the loops of [graph_block] print *)

Section printing_more.
Implicit Types (g : globals) (matrix : list Column.t).


Lemma stdout_for_in {A} (l : list A) (body : A → unit → IO unit) :
  (∀ a, a ∈ l → status (body a tt) = Ok tt) →
  stdout (for_in l body tt) = concat ((λ a, stdout (body a tt)) <$> l).
Proof.
  induction l as [|a l IH]; intros Hl; [done|].
  cbn [for_in fmap list_fmap concat]. unfold mbind at 1, IO_bind.
  rewrite Hl by left. cbn [stdout]. f_equal.
  apply IH. intros a' Ha'. apply Hl. by right.
Qed.








End printing_more.

(** * The slots and the rows of the matrix *)

Section invariants.
Variable g : globals.
Variable m : gmap Z Q.
Implicit Types (c last : Column.t) (matrix init : list Column.t) (d : Z).

Lemma slots_app matrix1 matrix2 :
  slots (matrix1 ++ matrix2) = slots matrix1 ++ slots matrix2.
Proof. unfold slots. by rewrite fmap_app, concat_app. Qed.

Lemma slots_column c : slots [c] = Column.col c.
Proof. unfold slots. cbn. by rewrite app_nil_r. Qed.

Lemma painted_blanks n : Forall (painted g m) (replicate n (blank g)).
Proof. apply Forall_replicate. by left. Qed.

Lemma paintable_painted d :
  paintable g m d = true →
  ∃ v color, m !! d = Some v ∧ py_index (COLORS g) (py_int v) = Ok color
    ∧ painted g m (Some d, Colorize (BLOCK_WIDTH g) 0 color).
Proof.
  unfold paintable. intros Hgood.
  destruct (m !! d) as [v|] eqn:Hv; [|done].
  destruct (py_index (COLORS g) (py_int v)) as [color| |] eqn:Hcolor; [|done..].
  exists v, color. split; [done|]. split; [done|]. right. by exists d, v, color.
Qed.

(** A round of the loop writes painted slots only. *)
Lemma place_day_painted d matrix matrix' :
  open_matrix matrix → paintable g m d = true →
  Forall (painted g m) (slots matrix) →
  place_day g m d matrix = Ok matrix' →
  Forall (painted g m) (slots matrix').
Proof.
  intros (init & last & -> & _ & Hlast) Hgood Hold.
  destruct (paintable_painted d Hgood) as (v & color & Hv & Hcolor & Hcell).
  rewrite (place_day_shape g m d v color init last Hv Hcolor Hlast).
  cbv zeta. rewrite slots_app, slots_column in Hold.
  apply Forall_app in Hold as [Hinit Hcol].
  intros [= <-].
  destruct (decide (Column.len last < 7)%nat), (decide (month (d + 1) = month d));
    rewrite ?slots_app; change ([?a; ?b; ?c]) with ([a] ++ [b] ++ [c]);
    rewrite ?slots_app, ?slots_column; cbn [Column.col Column.init];
    repeat (apply Forall_app; split);
    auto using painted_blanks, Forall_singleton.
  all: apply (painted_blanks 7).
Qed.

Lemma place_days_painted (l : list Z) matrix matrix' :
  open_matrix matrix → forallb (paintable g m) l = true →
  Forall (painted g m) (slots matrix) →
  for_in l (place_day g m) matrix = Ok matrix' →
  Forall (painted g m) (slots matrix').
Proof.
  revert matrix. induction l as [|d l IH]; intros matrix Hopen Hgood Hold.
  - by intros [= <-].
  - cbn [forallb] in Hgood. apply andb_true_iff in Hgood as [Hd Hl].
    cbn [for_in].
    destruct (place_day_paintable g m d matrix Hopen Hd)
      as (matrix1 & Hrun & Hopen1 & _).
    rewrite Hrun. cbn [mbind result_bind].
    apply (IH matrix1 Hopen1 Hl).
    by apply (place_day_painted d matrix).
Qed.

Lemma lookup_blanks n i (s : slot) d b :
  replicate n (blank g) !! i = Some s → s ≠ (Some d, b).
Proof. intros [-> _]%lookup_replicate. done. Qed.

(** A round of the loop on the day that follows the days placed so
    far. *)
Lemma place_day_in_step d matrix matrix' :
  in_step d matrix → paintable g m d = true →
  place_day g m d matrix = Ok matrix' →
  in_step (d + 1) matrix'.
Proof.
  intros (init & last & -> & Hinit & Hlast & Hrow & Hrows) Hgood.
  destruct (paintable_painted d Hgood) as (v & color & Hv & Hcolor & _).
  rewrite (place_day_shape g m d v color init last Hv Hcolor Hlast).
  cbv zeta. intros [= <-].
  assert (∀ i d' b, Column.col last !! i = Some (Some d', b) →
            Z.of_nat i = d' mod 7) as Hlastrows.
  { intros i d' b. apply Hrows. apply elem_of_app. right. by left. }
  assert (∀ c i d' b, c ∈ init → Column.col c !! i = Some (Some d', b) →
            Z.of_nat i = d' mod 7) as Hinitrows.
  { intros c i d' b Hc. apply Hrows. apply elem_of_app. by left. }
  assert (∀ n c i d' b, c = Column.mk (replicate n (blank g)) →
            Column.col c !! i = Some (Some d', b) → Z.of_nat i = d' mod 7)
    as Hblankrows.
  { intros n c i d' b -> Hi. cbn in Hi. by apply lookup_blanks with (d := d') (b := b) in Hi. }
  pose proof (Z.mod_pos_bound (d + 1) 7 ltac:(lia)) as Hnext.
  unfold Column.len in *.
  destruct (decide (length (Column.col last) < 7)%nat) as [Hroom|Hfull];
    unfold slot in *.
  - assert (∀ ext i d' b,
              (Column.col last ++ [(Some d, Colorize (BLOCK_WIDTH g) 0 color)]
               ++ replicate ext (blank g)) !! i = Some (Some d', b) →
              Z.of_nat i = d' mod 7) as Hnew.
    { intros ext i d' b Hi.
      apply lookup_app_Some in Hi as [Hi|[Hge Hi]].
      - by apply (Hlastrows i d' b).
      - apply lookup_app_Some in Hi as [Hi|[Hge' Hi]].
        + apply list_lookup_singleton_Some in Hi as [Hi0 [= <- <-]].
          rewrite <- Hrow. unfold slot in *. rewrite Z.mod_small; lia.
        + by apply lookup_blanks with (d := d') (b := b) in Hi. }
    destruct (decide (month (d + 1) = month d)).
    + eexists init, _. split; [done|]. split; [done|].
      unfold Column.len. cbn [Column.col].
      rewrite length_app. cbn [length]. split; [lia|]. split.
      * rewrite Nat2Z.inj_add, Z.add_mod by lia.
        rewrite (Z.add_mod d 1) by lia. by rewrite Hrow.
      * intros c i d' b [Hc|Hc%list_elem_of_singleton]%elem_of_app.
        -- by apply Hinitrows.
        -- subst c. cbn [Column.col]. intros Hi.
           apply (Hnew 0%nat i d' b). exact Hi.
    + eexists (init ++ [_; _]), _. split; [by rewrite <- app_assoc|].
      split; [|split; [|split]].
      * apply Forall_app. split; [done|]. apply Forall_cons. split.
        -- cbn. rewrite !length_app, length_replicate. cbn. lia.
        -- apply Forall_singleton. by cbn.
      * cbn. rewrite length_replicate. lia.
      * cbn. rewrite length_replicate, Z2Nat.id by lia. by rewrite Z.mod_mod by lia.
      * intros c i d' b Hc.
        apply elem_of_app in Hc as [Hc|Hc]; [by apply Hinitrows|].
        cbn in Hc. apply elem_of_cons in Hc as [->|Hc].
        { cbn [Column.col]. rewrite <- app_assoc. apply Hnew. }
        apply elem_of_cons in Hc as [->|Hc].
        { by apply (Hblankrows 7%nat). }
        apply list_elem_of_singleton in Hc as ->.
        by apply (Hblankrows (Z.to_nat ((d + 1) mod 7))).
  - assert (d mod 7 = 0) as Hzero.
    { assert (Z.of_nat (length (Column.col last)) = 7) as Hseven
        by (unfold slot in *; lia).
      unfold slot in *. by rewrite <- Hrow, Hseven. }
    clear Hrow. rename Hzero into Hrow. symmetry in Hrow.
    assert (∀ ext i d' b,
              ([(Some d, Colorize (BLOCK_WIDTH g) 0 color)]
               ++ replicate ext (blank g)) !! i = Some (Some d', b) →
              Z.of_nat i = d' mod 7) as Hnew.
    { intros ext i d' b Hi.
      apply lookup_app_Some in Hi as [Hi|[Hge' Hi]].
      + apply list_lookup_singleton_Some in Hi as [Hi0 [= <- <-]]. lia.
      + by apply lookup_blanks with (d := d') (b := b) in Hi. }
    assert ((d + 1) mod 7 = 1) as Hone.
    { rewrite Z.add_mod by lia. rewrite <- Hrow. done. }
    destruct (decide (month (d + 1) = month d)).
    + eexists (init ++ [last]), _. split; [done|]. split; [|split; [|split]].
      * apply Forall_app. split; [done|]. apply Forall_singleton.
        unfold Column.len, slot in *. lia.
      * cbn. lia.
      * cbn. by rewrite Hone.
      * intros c i d' b [Hc|Hc%list_elem_of_singleton]%elem_of_app.
        -- by apply Hrows.
        -- subst c. cbn [Column.col]. intros Hi.
           apply (Hnew 0%nat i d' b). by cbn.
    + eexists ((init ++ [last]) ++ [_; _]), _. split; [by rewrite <- !app_assoc|].
      split; [|split; [|split]].
      * apply Forall_app. split.
        { apply Forall_app. split; [done|]. apply Forall_singleton.
          unfold Column.len, slot in *. lia. }
        apply Forall_cons. split.
        -- by cbn.
        -- apply Forall_singleton. by cbn.
      * cbn. rewrite length_replicate. lia.
      * cbn. rewrite length_replicate, Z2Nat.id by lia. by rewrite Z.mod_mod by lia.
      * intros c i d' b Hc.
        apply elem_of_app in Hc as [Hc|Hc]; [by apply Hrows|].
        cbn in Hc. apply elem_of_cons in Hc as [->|Hc].
        { cbn [Column.col]. apply (Hnew 6%nat). }
        apply elem_of_cons in Hc as [->|Hc].
        { by apply (Hblankrows 7%nat). }
        apply list_elem_of_singleton in Hc as ->.
        by apply (Hblankrows (Z.to_nat ((d + 1) mod 7))).
Qed.
End invariants.

Section built.
Variable g : globals.
Variable m : gmap Z Q.
Implicit Types (c last : Column.t) (matrix init : list Column.t) (d : Z).

Lemma StronglySorted_seqZ (first n : Z) : StronglySorted Z.le (seqZ first n).
Proof.
  destruct (decide (n ≤ 0)) as [Hn|Hn]; [rewrite seqZ_nil by lia; constructor|].
  rewrite <- (Z2Nat.id n) by lia. generalize (Z.to_nat n) as k. clear n Hn.
  intros k. revert first. induction k as [|k IH]; intros first.
  - constructor.
  - rewrite seqZ_cons by lia.
    replace (Z.pred (Z.of_nat (S k))) with (Z.of_nat k) by lia.
    constructor; [apply IH|].
    apply Forall_forall. intros x Hx%elem_of_seqZ. lia.
Qed.

(** The days of a map that has a day for every date of an interval. *)
Lemma sorted_interval {V} (d : gmap Z V) (first last : Z) :
  (∀ k, is_Some (d !! k) ↔ first ≤ k ≤ last) →
  sorted d = seqZ first (last - first + 1).
Proof.
  intros Hdom. apply (StronglySorted_unique Z.le).
  - apply (StronglySorted_merge_sort Z.le).
  - apply StronglySorted_seqZ.
  - apply NoDup_Permutation.
    + rewrite sorted_Permutation. apply NoDup_keys.
    + apply NoDup_seqZ.
    + intros k. rewrite elem_of_sorted, Hdom, elem_of_seqZ. lia.
Qed.

Lemma place_days_in_step (k : nat) d matrix matrix' :
  in_step d matrix →
  forallb (paintable g m) (seqZ d (Z.of_nat k)) = true →
  for_in (seqZ d (Z.of_nat k)) (place_day g m) matrix = Ok matrix' →
  in_step (d + Z.of_nat k) matrix'.
Proof.
  revert d matrix. induction k as [|k IH]; intros d matrix Hstep Hgood.
  - cbn. intros [= <-]. by rewrite Z.add_0_r.
  - rewrite seqZ_cons in Hgood |- * by lia.
    replace (Z.pred (Z.of_nat (S k))) with (Z.of_nat k) in * by lia.
    cbn [forallb] in Hgood. apply andb_true_iff in Hgood as [Hd Hl].
    cbn [for_in].
    destruct (place_day g m d matrix) as [matrix1| |] eqn:Hrun; [|done..].
    cbn [mbind result_bind]. intros Hrest.
    replace (d + Z.of_nat (S k)) with (Z.succ d + Z.of_nat k) by lia.
    apply (IH (Z.succ d) matrix1); [|done..].
    replace (Z.succ d) with (d + 1) by lia.
    by apply (place_day_in_step g m d matrix).
Qed.

(** The rounds of [build_matrix] that have ended without fault. *)
Lemma build_matrix_inv matrix :
  build_matrix g m = Ok matrix →
  ∃ first rest init last,
    sorted m = first :: rest
    ∧ forallb (paintable g m) (sorted m) = true
    ∧ for_in (sorted m) (place_day g m)
        [Column.mk (replicate (Z.to_nat (first mod 7)) (blank g))]
      = Ok (init ++ [last])
    ∧ Forall (λ c, Column.len c = 7%nat) init
    ∧ (Column.len last ≤ 7)%nat
    ∧ matrix = init ++ [Column.mk (Column.col last
                 ++ replicate (7 - Column.len last) (blank g))].
Proof.
  unfold build_matrix. cbv zeta.
  destruct (sorted m) as [|first rest] eqn:Hsorted; [done|].
  rewrite (py_index_lookup _ 0%nat first) by done.
  cbn [mbind result_bind]. rewrite first_column_ok. cbn [mbind result_bind].
  rewrite <- Hsorted.
  assert (open_matrix [Column.mk (replicate (Z.to_nat (first mod 7)) (blank g))])
    as Hopen.
  { eexists [], _. split; [done|]. split; [done|].
    unfold Column.len. cbn. rewrite length_replicate.
    pose proof (Z.mod_pos_bound first 7). lia. }
  pose proof (place_days_cases g m (sorted m) _
                (λ d, proj1 (elem_of_sorted m d)) Hopen) as Hloop.
  destruct (forallb (paintable g m) (sorted m)); [|by rewrite Hloop].
  destruct Hloop as (matrix1 & Hrun & (init & last & -> & Hinit & Hlast) & _).
  rewrite Hrun. cbn [mbind result_bind].
  rewrite py_index_last. cbn [mbind result_bind].
  rewrite fill_ok by done. cbn [mbind result_bind].
  rewrite set_last_snoc. intros [= <-].
  by exists first, rest, init, last.
Qed.

(** The slots of the matrix are blank or hold a day of the map, in the
    colour of its count. *)
Lemma build_matrix_painted matrix :
  build_matrix g m = Ok matrix → Forall (painted g m) (slots matrix).
Proof.
  intros (first & rest & init & last & Hsorted & Hgood & Hrun & Hinit & Hlast
          & ->)%build_matrix_inv.
  apply (place_days_painted g m) in Hrun.
  - rewrite slots_app, slots_column in Hrun |- *.
    apply Forall_app in Hrun as [Hi Hl]. apply Forall_app. split; [done|].
    cbn [Column.col]. apply Forall_app. split; [done|]. apply painted_blanks.
  - eexists [], _. split; [done|]. split; [done|].
    unfold Column.len. cbn. rewrite length_replicate.
    pose proof (Z.mod_pos_bound first 7). lia.
  - done.
  - rewrite slots_column. apply painted_blanks.
Qed.

Lemma list_index_row d (i : nat) :
  Z.of_nat i = d mod 7 → list_index (strftime_A d) days_full = Ok i.
Proof.
  intros Hi. rewrite list_index_strftime_A. f_equal. lia.
Qed.

(** When the days of the map come one after the other, every day is in
    the row of its weekday. *)
Lemma build_matrix_rows matrix (first n : Z) :
  sorted m = seqZ first n →
  build_matrix g m = Ok matrix → weekday_rows matrix.
Proof.
  intros Hseq (first' & rest & init & lastc & Hsorted & Hgood & Hrun & Hinit
               & Hlast & ->)%build_matrix_inv.
  rewrite Hseq in *.
  assert (0 < n) as Hn.
  { destruct (decide (0 < n)); [done|].
    rewrite seqZ_nil in Hsorted by lia. done. }
  rewrite seqZ_cons in Hsorted by lia. injection Hsorted as <- _.
  replace n with (Z.of_nat (Z.to_nat n)) in Hgood, Hrun by lia.
  apply place_days_in_step in Hrun; [| |done].
  - destruct Hrun as (init' & last' & Heq & _ & _ & _ & Hrows).
    intros c i d b Hc Hi. apply list_index_row.
    apply elem_of_app in Hc as [Hc|Hc%list_elem_of_singleton].
    + apply (Hrows c i d b); [|done]. apply elem_of_app. by left.
    + subst c. cbn [Column.col] in Hi.
      apply lookup_app_Some in Hi as [Hi|[_ Hi]].
      * apply (Hrows lastc i d b); [|done]. apply elem_of_app. right. by left.
      * by apply (lookup_blanks g) with (d := d) (b := b) in Hi.
  - eexists [], _. split; [done|]. split; [done|].
    pose proof (Z.mod_pos_bound first 7 ltac:(lia)).
    unfold Column.len. cbn [Column.col]. rewrite length_replicate.
    split; [lia|]. split.
    + rewrite Z2Nat.id by lia. by rewrite Z.mod_mod by lia.
    + intros c i d b Hc%list_elem_of_singleton Hi. subst c.
      by apply (lookup_blanks g) with (d := d) (b := b) in Hi.
Qed.

Lemma graph_block_status matrix :
  status (graph_block g m) = Ok matrix → build_matrix g m = Ok matrix.
Proof.
  unfold graph_block. rewrite status_bind. unfold lift. cbn [status].
  destruct (build_matrix g m) as [matrix'| |]; [|done..].
  rewrite status_bind. destruct (status (print_matrix g matrix')); [|done..].
  by intros [= <-].
Qed.
End built.

Section grid_checks.
Implicit Types (g : globals) (m : gmap Z Q).

Lemma forallb_false {A} (f : A → bool) (l : list A) :
  forallb f l = false → ∃ a, a ∈ l ∧ f a = false.
Proof.
  induction l as [|a l IH]; [done|]. cbn.
  destruct (f a) eqn:Ha.
  - intros (a' & Ha' & Hf)%IH. exists a'. split; [by right|done].
  - intros _. exists a. split; [by left|done].
Qed.

Lemma buckets_paintable g m d :
  six_colors g → buckets m → is_Some (m !! d) → paintable g m d = true.
Proof.
  intros Hsix Hbuckets [v Hv]. unfold paintable. rewrite Hv.
  by destruct (color_ok g v Hsix (Hbuckets d v Hv)) as [color ->].
Qed.

Lemma buckets_all_paintable g m :
  six_colors g → buckets m → forallb (paintable g m) (sorted m) = true.
Proof.
  intros Hsix Hbuckets. apply forallb_forall. intros d Hd%list_elem_of_In.
  apply buckets_paintable; [done..|]. by apply elem_of_sorted.
Qed.

Lemma graph_block_run g m :
  six_colors g → buckets m → m ≠ ∅ →
  ∃ matrix,
    graph_block g m = mkIO (stdout (print_matrix g matrix)) (Ok matrix)
    ∧ build_matrix g m = Ok matrix
    ∧ Forall (λ c, Column.len c = 7%nat) matrix
    ∧ placed_days matrix = sorted m.
Proof.
  intros Hsix Hbuckets Hne. pose proof (graph_block_cases g m) as Hcases.
  rewrite bool_decide_true, buckets_all_paintable in Hcases by done.
  destruct Hcases as (matrix & Hrun & Hfull & Hdays).
  exists matrix. split; [done|]. split; [|done].
  apply graph_block_status. by rewrite Hrun.
Qed.


End grid_checks.

(** * Further properties of [graph_block]: the theorems *)

(** X4. Whatever the map and the settings, [graph_block] either builds a
    matrix of columns of 7 slots that holds the days of the map in
    increasing order, or raises [IndexError] before anything is printed:
    a grid is never printed in part. *)
Theorem graph_block_all_or_nothing (g : globals) (m : gmap Z Q) :
  (∃ matrix, status (graph_block g m) = Ok matrix
     ∧ Forall (λ c, Column.len c = 7%nat) matrix
     ∧ placed_days matrix = sorted m)
  ∨ graph_block g m = mkIO [] (Raise IndexError).
Proof.
  pose proof (graph_block_cases g m) as Hcases.
  destruct (bool_decide (m ≠ ∅) && forallb (paintable g m) (sorted m));
    [|by right].
  destruct Hcases as (matrix & Hrun & Hfull & Hdays).
  left. exists matrix. by rewrite Hrun.
Qed.

(** X5. With a palette of six colours, [graph_block] raises [IndexError]
    exactly when the map is empty or the count of some day, cut to an
    integer, is no index of the palette: greater than 5 or less than -6. *)
Theorem graph_block_index_error (g : globals) (m : gmap Z Q) :
  six_colors g →
  status (graph_block g m) = Raise IndexError
  ↔ m = ∅ ∨ ∃ d v, m !! d = Some v ∧ (py_int v < -6 ∨ 5 < py_int v).
Proof.
  intros Hsix. unfold six_colors in Hsix.
  pose proof (graph_block_cases g m) as Hcases.
  destruct (decide (m = ∅)) as [->|Hne].
  { rewrite bool_decide_false in Hcases by (by intros []).
    rewrite Hcases. split; [by left|done]. }
  rewrite bool_decide_true in Hcases by done. cbn [andb] in Hcases.
  destruct (forallb (paintable g m) (sorted m)) eqn:Hall.
  - destruct Hcases as (matrix & -> & _). cbn [status].
    split; [done|]. intros [?|(d & v & Hv & Hout)]; [done|].
    rewrite forallb_forall in Hall.
    specialize (Hall d). unfold paintable in Hall. rewrite Hv in Hall.
    destruct (py_index_cases (COLORS g) (py_int v)) as [(c & _ & Hin)|[Hc _]].
    + rewrite Hsix in Hin. lia.
    + rewrite Hc in Hall. discriminate Hall.
      apply list_elem_of_In, elem_of_sorted. by rewrite Hv.
  - rewrite Hcases. cbn [status]. split; [|done]. intros _. right.
    apply forallb_false in Hall as (d & Hd & Hbad).
    apply elem_of_sorted in Hd as [v Hv].
    exists d, v. split; [done|]. unfold paintable in Hbad. rewrite Hv in Hbad.
    destruct (py_index_cases (COLORS g) (py_int v)) as [(c & Hc & _)|[_ Hout]].
    + by rewrite Hc in Hbad.
    + rewrite Hsix in Hout. lia.
Qed.

Lemma graph_block_index_error_witness :
  status (graph_block default_globals week_of_six) = Raise IndexError
  ↔ week_of_six = ∅
    ∨ ∃ d v, week_of_six !! d = Some v ∧ (py_int v < -6 ∨ 5 < py_int v).
Proof. apply graph_block_index_error. reflexivity. Defined.


Lemma py_index_nonneg {A} (l : list A) (i : Z) (a : A) :
  0 ≤ i → py_index l i = Ok a → l !! Z.to_nat i = Some a.
Proof.
  intros Hi. unfold py_index. cbv zeta.
  rewrite (proj2 (Z.ltb_ge i 0)) by done.
  destruct (_ && _); [|done].
  destruct (l !! Z.to_nat i); [|done]. by intros [= ->].
Qed.

(** X6. When the days of the map come one after the other, as the days
    of the window do, every day of the matrix is in the row of its
    weekday: row 0 holds the Sundays and row 6 the Saturdays. *)
Theorem graph_block_weekday_rows (g : globals) (m : gmap Z Q) (first n : Z) :
  six_colors g → buckets m → m ≠ ∅ → sorted m = seqZ first n →
  ∃ matrix, status (graph_block g m) = Ok matrix ∧ weekday_rows matrix.
Proof.
  intros Hsix Hbuckets Hne Hseq.
  destruct (graph_block_run g m Hsix Hbuckets Hne) as (matrix & Hrun & Hbuild & _).
  exists matrix. split; [by rewrite Hrun|].
  by apply (build_matrix_rows g m matrix first n).
Qed.

Lemma graph_block_weekday_rows_witness :
  ∃ matrix, status (graph_block default_globals turn_of_january) = Ok matrix
    ∧ weekday_rows matrix.
Proof.
  apply (graph_block_weekday_rows _ _ 738914 7).
  - reflexivity.
  - apply buckets_check. vm_compute. reflexivity.
  - apply (nonempty_check _ 738914 0%Q). vm_compute. reflexivity.
  - vm_compute. reflexivity.
Defined.

(** X7. Every slot of the matrix is blank or holds a day of the map with
    the block in the colour that the palette has at the bucket of the
    day. *)
Theorem graph_block_colours (g : globals) (m : gmap Z Q) :
  six_colors g → buckets m → m ≠ ∅ →
  ∃ matrix, status (graph_block g m) = Ok matrix ∧
    ∀ s, s ∈ slots matrix →
      s = blank g
      ∨ ∃ d b color, s = (Some d, Colorize (BLOCK_WIDTH g) 0 color)
          ∧ m !! d = Some (inject_Z b)
          ∧ COLORS g !! Z.to_nat b = Some color.
Proof.
  intros Hsix Hbuckets Hne.
  destruct (graph_block_run g m Hsix Hbuckets Hne) as (matrix & Hrun & Hbuild & _).
  exists matrix. split; [by rewrite Hrun|].
  pose proof (build_matrix_painted g m matrix Hbuild) as Hpainted.
  rewrite Forall_forall in Hpainted. intros s Hs.
  destruct (Hpainted s Hs) as [->|(d & v & color & -> & Hv & Hcolor)];
    [by left|right].
  destruct (Hbuckets d v Hv) as (b & -> & Hb).
  exists d, b, color. split; [done|]. split; [done|].
  apply py_index_nonneg; [lia|].
  unfold py_int in Hcolor. cbn in Hcolor. by rewrite Z.quot_1_r in Hcolor.
Qed.

Lemma graph_block_colours_witness :
  ∃ matrix, status (graph_block default_globals turn_of_january) = Ok matrix ∧
    ∀ s, s ∈ slots matrix →
      s = blank default_globals
      ∨ ∃ d b color,
          s = (Some d, Colorize (BLOCK_WIDTH default_globals) 0 color)
          ∧ turn_of_january !! d = Some (inject_Z b)
          ∧ COLORS default_globals !! Z.to_nat b = Some color.
Proof.
  apply graph_block_colours.
  - reflexivity.
  - apply buckets_check. vm_compute. reflexivity.
  - apply (nonempty_check _ 738914 0%Q). vm_compute. reflexivity.
Defined.



(** * Further properties of [Column] *)

(** X9. [fill] pads a column of at most 7 slots with blanks to exactly 7
    slots, and leaves the slots that it finds where they are. *)
Theorem fill_pads (g : globals) (c : Column.t) :
  (Column.len c ≤ 7)%nat →
  ∃ c', Column.fill g c = Ok c' ∧ Column.len c' = 7%nat
    ∧ Column.col c'
      = Column.col c ++ replicate (7 - Column.len c) (blank g).
Proof.
  intros Hlen. eexists. split; [by apply fill_ok|].
  split; [|done]. unfold Column.len in *. cbn.
  rewrite length_app, length_replicate. lia.
Qed.

Lemma fill_pads_witness :
  ∃ c', Column.fill default_globals
          (Column.mk [(Some 738914, Colorize BLOCK_REG 0 0)]) = Ok c'
    ∧ Column.len c' = 7%nat
    ∧ Column.col c'
      = [(Some 738914, Colorize BLOCK_REG 0 0)]
        ++ replicate (7 - 1) (blank default_globals).
Proof.
  apply (fill_pads default_globals
           (Column.mk [(Some 738914, Colorize BLOCK_REG 0 0)])).
  cbn. lia.
Defined.

(** X10. On a column of more than 7 slots, which [fill_by] can leave,
    the loop [while len(self.col) != 7] of [fill] never ends: no number
    of rounds is enough. *)
Theorem fill_never_returns (g : globals) (c : Column.t) (fuel : nat) :
  (7 < Column.len c)%nat → Column.fill_loop g fuel c = Diverge.
Proof. apply fill_loop_diverges. Qed.

Lemma fill_never_returns_witness :
  Column.fill_loop default_globals 1000
    (Column.fill_by default_globals (Column.init default_globals true) 1)
  = Diverge.
Proof. apply fill_never_returns. cbn. lia. Defined.

(** * Further properties of the window *)

Section window_more.

Lemma window_lookup (today : Z) :
  ∃ ws, today - 373 ≤ ws ≤ today - 366 ∧ ws mod 7 = 0
    ∧ ∀ d, window today !! d =
           if decide (ws ≤ d ≤ today) then Some 0%Q else None.
Proof.
  pose proof (sub_relativedelta_1_7 today) as Hback.
  set (rawStart := sub_relativedelta today 1 7) in *.
  destruct (first_sunday rawStart) as (Hws & Hsun & _).
  exists (rawStart + (- rawStart) mod 7).
  split; [lia|]. split; [done|].
  intros d. unfold window. cbv zeta. fold rawStart.
  pose proof (window_loop rawStart (Z.to_nat (today - rawStart + 1))) as Hloop.
  cbv zeta in Hloop. rewrite Z2Nat.id in Hloop by lia.
  rewrite decide_False in Hloop by lia. destruct Hloop as [_ Hloop].
  rewrite Hloop.
  destruct (decide (rawStart + (- rawStart) mod 7 ≤ d ≤ today)).
  - by rewrite decide_True by lia.
  - by rewrite decide_False by lia.
Qed.

Lemma size_interval {V} (d : gmap Z V) (first last : Z) :
  first ≤ last + 1 →
  (∀ k, is_Some (d !! k) ↔ first ≤ k ≤ last) →
  Z.of_nat (size d) = last - first + 1.
Proof.
  intros Hle Hdom. rewrite <- length_sorted, (sorted_interval d first last Hdom).
  rewrite length_seqZ. lia.
Qed.

Lemma window_interval (today : Z) :
  ∃ ws, today - 373 ≤ ws ≤ today - 366 ∧ ws mod 7 = 0
    ∧ ∀ d, is_Some (window today !! d) ↔ ws ≤ d ≤ today.
Proof.
  destruct (window_lookup today) as (ws & Hws & Hsun & Hlookup).
  exists ws. split; [done|]. split; [done|]. intros d. rewrite Hlookup.
  destruct (decide (ws ≤ d ≤ today)); [by split; eauto|].
  split; [by intros [? ?]|done].
Qed.
End window_more.

(** X11. Whatever the current day, the window has between 367 and 374
    days, one for every date from a Sunday to the current day: 52 full
    weeks and 3 to 10 days more. *)
Theorem window_size (today : Z) :
  ∃ windowStart,
    sorted (window today)
    = seqZ windowStart (Z.of_nat (size (window today)))
    ∧ strftime_A windowStart = "Sunday"
    ∧ windowStart + Z.of_nat (size (window today)) - 1 = today
    ∧ 367 ≤ Z.of_nat (size (window today)) ≤ 374.
Proof.
  destruct (window_interval today) as (ws & Hws & Hsun & Hdom).
  pose proof (size_interval (window today) ws today ltac:(lia) Hdom) as Hsize.
  exists ws. rewrite Hsize. split; [by apply sorted_interval|].
  split; [by apply strftime_A_Sunday|]. lia.
Qed.

(** * Properties of [graph_inline] *)

Section inline.
Variable g : globals.
Variable m : gmap Z Q.
Hypothesis Hsix : six_colors g.
Hypothesis Hbuckets : buckets m.

Lemma colour_of_bucket (v : Q) :
  (∃ b, v = inject_Z b ∧ 0 ≤ b ≤ 5) →
  py_index (COLORS g) (py_int v) = Ok (colour_of g v).
Proof.
  intros Hv. destruct (color_ok g v Hsix Hv) as [color Hcolor].
  rewrite Hcolor. f_equal. unfold colour_of.
  destruct Hv as (b & -> & Hb). unfold py_int in *. cbn in *.
  rewrite Z.quot_1_r in *. apply py_index_nonneg in Hcolor; [|lia].
  symmetry. by apply nth_lookup_Some with (d := 0) in Hcolor.
Qed.

(** The count of a day of a [defaultdict(float)] is a bucket. *)
Lemma default_bucket (d : Z) :
  ∃ b, default 0%Q (m !! d) = inject_Z b ∧ 0 ≤ b ≤ 5.
Proof.
  destruct (m !! d) as [v|] eqn:Hv; cbn.
  - by apply (Hbuckets d).
  - exists 0. split; [done|lia].
Qed.

(** One round of the loop of [graph_inline]. *)
Lemma inline_round (today day i : Z) :
  let round : IO unit :=
    let current_day := day + i in
    if current_day <=? today then
      let v := default 0%Q (m !! current_day) in
      let norm_day_contribution := py_int v in
      color ← lift (py_index (COLORS g) norm_day_contribution);
      print [OutGlyph (Colorize (BLOCK_WIDTH g) 0 color); OutStr " ";
             OutDate "%b %d, %Y" current_day]
            (String "010" "")
    else mret tt in
  status round = Ok tt
  ∧ stdout round = if day + i <=? today then inline_line g m (day + i) else [].
Proof.
  cbv zeta. destruct (day + i <=? today); [|done].
  rewrite (colour_of_bucket _ (default_bucket (day + i))). done.
Qed.

Lemma concat_until {A} (F : Z → list A) (first today n : Z) :
  0 ≤ n →
  concat ((λ i, if first + i <=? today then F (first + i) else [])
          <$> seqZ 0 n)
  = concat (F <$> seqZ first (Z.min n (today - first + 1))).
Proof.
  intros Hn. set (k := Z.max 0 (Z.min n (today - first + 1))).
  replace n with (k + (n - k)) at 1 by lia.
  rewrite seqZ_app by lia. rewrite fmap_app, concat_app.
  assert (seqZ first (Z.min n (today - first + 1)) = seqZ first k) as ->.
  { destruct (decide (0 ≤ Z.min n (today - first + 1))).
    - by replace k with (Z.min n (today - first + 1)) by lia.
    - rewrite !seqZ_nil by lia. done. }
  replace (seqZ first k) with (Z.add first <$> seqZ 0 k)
    by (rewrite fmap_add_seqZ; f_equal; lia).
  rewrite <- list_fmap_compose.
  assert (concat ((λ i, if first + i <=? today then F (first + i) else [])
                  <$> seqZ (0 + k) (n - k)) = []) as ->.
  { apply concat_nil_Forall, Forall_fmap, Forall_forall.
    intros i Hi%elem_of_seqZ. cbn.
    rewrite (proj2 (Z.leb_gt (first + i) today)); [done|lia]. }
  rewrite app_nil_r. f_equal. apply Forall_fmap_ext_1, Forall_forall.
  intros i Hi%elem_of_seqZ. cbn.
  rewrite (proj2 (Z.leb_le (first + i) today)); [done|lia].
Qed.
End inline.

(** What [graph_inline] prints, for a map of buckets. *)
Lemma graph_inline_run (g : globals) (today : Z) (m : gmap Z Q) :
  six_colors g → buckets m →
  graph_inline g today m
  = match sorted m with
    | [] => mkIO [] (Ok tt)
    | day :: _ =>
        mkIO (concat (inline_line g m
                      <$> seqZ day (Z.min (54 * 7) (today - day + 1)))
              ++ [OutStr (String "010" "")])
             (Ok tt)
    end.
Proof.
  intros Hsix Hbuckets. unfold graph_inline.
  destruct (sorted m) as [|day rest]; [done|].
  pose proof (inline_round g m Hsix Hbuckets today day) as Hround.
  cbv zeta in Hround.
  unfold mbind at 1, IO_bind. rewrite for_in_IO_ok.
  2:{ intros i _. apply Hround. }
  cbn [status stdout print app]. f_equal.
  rewrite stdout_for_in by (intros i _; apply Hround).
  f_equal.
  rewrite <- (concat_until (inline_line g m) day today (54 * 7)) by lia.
  f_equal. apply Forall_fmap_ext_1, Forall_forall.
  intros i _. apply Hround.
Qed.

(** X12. For a map of buckets, [graph_inline] prints nothing when the
    map is empty; otherwise it prints one line for every date from the
    first day of the map to the current day, 378 lines at most, in
    increasing order, then an empty line.  A date that the map does not
    have is printed in the colour of bucket 0. *)
Theorem graph_inline_lines (g : globals) (today : Z) (m : gmap Z Q) :
  six_colors g → buckets m →
  graph_inline g today m
  = match sorted m with
    | [] => mkIO [] (Ok tt)
    | day :: _ =>
        mkIO (concat (inline_line g m
                      <$> seqZ day (Z.min (54 * 7) (today - day + 1)))
              ++ [OutStr (String "010" "")])
             (Ok tt)
    end.
Proof. apply graph_inline_run. Qed.

Lemma graph_inline_lines_witness :
  graph_inline default_globals 738916 turn_of_january
  = match sorted turn_of_january with
    | [] => mkIO [] (Ok tt)
    | day :: _ =>
        mkIO (concat (inline_line default_globals turn_of_january
                      <$> seqZ day (Z.min (54 * 7) (738916 - day + 1)))
              ++ [OutStr (String "010" "")])
             (Ok tt)
    end.
Proof.
  apply graph_inline_lines.
  - reflexivity.
  - apply buckets_check. vm_compute. reflexivity.
Defined.

(** * Further properties of [main] *)

Section main_more.
Variable parse_date : string → result datetime.

Lemma lift_bind {A B} (a : A) (f : A → IO B) : lift (Ok a) ≫= f = f a.
Proof. unfold mbind, IO_bind, lift. cbn. by destruct (f a). Qed.

(** [main] from the call of [normalize] on, for a log that has been read
    without fault. *)
Lemma main_unfold (cli : Namespace) (g : globals) (today : Z) (log : string)
    (line : string) (lines : list string)
    (commits_db : gmap Z (datetime * list Commit)) :
  configure cli = Ok g →
  split (remove_char "'" log) (String "010" "") = line :: lines →
  line ≠ "" →
  read_commits parse_date g (line :: lines) = Ok commits_db →
  main parse_date cli today (Ok log)
  = (day_contribution_map ←
       lift (normalize
               (count_commits (values commits_db).*1 (window today)) 0 5);
     matrix ←
       (if GRAPH_INLINE g
        then graph_inline g today day_contribution_map;; mret None
        else matrix ← graph_block g day_contribution_map;
             mret (Some matrix));
     (if SHOW_STAT g then
        print [] (String "010" "");;
        print [OutStats
                 (commit_author <$> concat ((values commits_db).*2))] ""
      else mret tt);;
     mret matrix).
Proof.
  intros Hg Hsplit Hline Hread. unfold main.
  rewrite Hg, lift_bind, Hsplit. destruct line as [|ch line']; [done|].
  by rewrite Hread, lift_bind.
Qed.

Lemma main_flat cli g today log line lines commits_db :
  configure cli = Ok g →
  split (remove_char "'" log) (String "010" "") = line :: lines →
  line ≠ "" →
  read_commits parse_date g (line :: lines) = Ok commits_db →
  all_equal (count_commits (values commits_db).*1 (window today)) →
  main parse_date cli today (Ok log) = mkIO [] (Raise ZeroDivisionError).
Proof.
  intros Hg Hsplit Hline Hread Hflat.
  rewrite (main_unfold cli g today log line lines commits_db) by done.
  set (counts := count_commits (values commits_db).*1 (window today)) in *.
  assert (counts ≠ ∅) as Hne.
  { destruct (window_lookup today) as (ws & Hws & _ & Hlookup).
    pose proof (count_commits_lookup (values commits_db).*1 (window today)
                  today) as Hcount.
    rewrite Hlookup, decide_True in Hcount by lia.
    destruct Hcount as (v & Hv & _). intros Hempty. fold counts in Hv.
    by rewrite Hempty, lookup_empty in Hv. }
  destruct (py_min_least counts Hne) as (lo & _ & Hlo).
  destruct (py_max_greatest counts Hne) as (hi & _ & Hhi).
  rewrite (normalize_flat counts 0 5 lo hi Hlo Hhi); [done|].
  by apply (all_equal_extremes counts lo hi).
Qed.

(** The map that [normalize] leaves for [graph_block] and
    [graph_inline]: buckets, on the days of the window. *)
Lemma main_buckets today (commits_db : gmap Z (datetime * list Commit)) :
  ¬ all_equal (count_commits (values commits_db).*1 (window today)) →
  ∃ buckets_map,
    normalize (count_commits (values commits_db).*1 (window today)) 0 5
    = Ok buckets_map
    ∧ buckets buckets_map ∧ buckets_map ≠ ∅
    ∧ sorted buckets_map = sorted (window today).
Proof.
  intros Hne.
  destruct (normalize_buckets _ Hne) as (buckets_map & Hnorm & Hbuckets & Hdom).
  exists buckets_map. split; [done|]. split; [done|].
  destruct (window_interval today) as (ws & Hws & _ & Hwindow).
  assert (∀ d, is_Some (buckets_map !! d) ↔ ws ≤ d ≤ today) as Hkeys.
  { intros d. rewrite Hdom, <- Hwindow.
    pose proof (count_commits_lookup (values commits_db).*1 (window today) d)
      as Hcount.
    destruct (window today !! d) as [v|].
    - destruct Hcount as (v' & -> & _). split; eauto.
    - rewrite Hcount. split; by intros [? ?]. }
  split.
  - intros Hempty. destruct (proj2 (Hkeys today)) as [v Hv]; [lia|].
    by rewrite Hempty, lookup_empty in Hv.
  - by rewrite (sorted_interval buckets_map ws today Hkeys),
               (sorted_interval (window today) ws today Hwindow).
Qed.

Lemma main_block_run cli g today log line lines commits_db :
  configure cli = Ok g → GRAPH_INLINE g = false →
  split (remove_char "'" log) (String "010" "") = line :: lines →
  line ≠ "" →
  read_commits parse_date g (line :: lines) = Ok commits_db →
  ¬ all_equal (count_commits (values commits_db).*1 (window today)) →
  ∃ buckets_map matrix,
    normalize (count_commits (values commits_db).*1 (window today)) 0 5
    = Ok buckets_map
    ∧ sorted buckets_map = sorted (window today)
    ∧ build_matrix g buckets_map = Ok matrix
    ∧ Forall (λ c, Column.len c = 7%nat) matrix
    ∧ placed_days matrix = sorted (window today)
    ∧ main parse_date cli today (Ok log)
      = mkIO (stdout (print_matrix g matrix) ++ report g commits_db)
             (Ok (Some matrix)).
Proof.
  intros Hg Hblock Hsplit Hline Hread Hne.
  destruct (main_buckets today commits_db Hne)
    as (buckets_map & Hnorm & Hbuckets & Hnonempty & Hsorted).
  assert (six_colors g) as Hsix.
  { destruct (configure_ok cli) as (g' & Hg' & Hsix).
    rewrite Hg in Hg'. by injection Hg' as <-. }
  destruct (graph_block_run g buckets_map Hsix Hbuckets Hnonempty)
    as (matrix & Hrun & Hbuild & Hfull & Hdays).
  exists buckets_map, matrix. split; [done|]. split; [done|]. split; [done|].
  split; [done|]. split; [by rewrite Hdays|].
  rewrite (main_unfold cli g today log line lines commits_db) by done.
  rewrite Hnorm, lift_bind, Hblock, Hrun. unfold report.
  unfold mbind, IO_bind, mret, IO_ret, print. cbn [status stdout].
  destruct (SHOW_STAT g); cbn [status stdout app]; by rewrite ?app_nil_r.
Qed.

Lemma main_inline_run cli g today log line lines commits_db :
  configure cli = Ok g → GRAPH_INLINE g = true →
  split (remove_char "'" log) (String "010" "") = line :: lines →
  line ≠ "" →
  read_commits parse_date g (line :: lines) = Ok commits_db →
  ¬ all_equal (count_commits (values commits_db).*1 (window today)) →
  ∃ buckets_map,
    normalize (count_commits (values commits_db).*1 (window today)) 0 5
    = Ok buckets_map
    ∧ (∀ d, is_Some (buckets_map !! d) ↔ is_Some (window today !! d))
    ∧ main parse_date cli today (Ok log)
      = mkIO (concat (inline_line g buckets_map <$> sorted (window today))
              ++ [OutStr (String "010" "")] ++ report g commits_db)
             (Ok None).
Proof.
  intros Hg Hinline Hsplit Hline Hread Hne.
  destruct (main_buckets today commits_db Hne)
    as (buckets_map & Hnorm & Hbuckets & Hnonempty & Hsorted).
  assert (six_colors g) as Hsix.
  { destruct (configure_ok cli) as (g' & Hg' & Hsix).
    rewrite Hg in Hg'. by injection Hg' as <-. }
  exists buckets_map. split; [done|]. split.
  { intros d. by rewrite <- !elem_of_sorted, Hsorted. }
  rewrite (main_unfold cli g today log line lines commits_db) by done.
  rewrite Hnorm, lift_bind, Hinline.
  rewrite (graph_inline_run g today buckets_map Hsix Hbuckets).
  destruct (window_interval today) as (ws & Hws & _ & Hwindow).
  rewrite Hsorted, (sorted_interval (window today) ws today Hwindow).
  rewrite seqZ_cons by lia.
  replace (Z.min (54 * 7) (today - ws + 1)) with (today - ws + 1) by lia.
  rewrite <- seqZ_cons by lia. unfold report.
  unfold mbind, IO_bind, mret, IO_ret, print. cbn [status stdout].
  destruct (SHOW_STAT g); cbn [status stdout app];
    by rewrite ?app_nil_r, <- ?app_assoc.
Qed.

Lemma printed_dates_lines g m (l : list Z) :
  printed_dates (concat (inline_line g m <$> l)) = l.
Proof.
  unfold printed_dates. induction l as [|d l IH]; [done|].
  cbn [fmap list_fmap concat]. by rewrite omap_app, IH.
Qed.

Lemma printed_dates_report g commits_db : printed_dates (report g commits_db) = [].
Proof. unfold report. by destruct (SHOW_STAT g). Qed.

(** Timestamps of days that the map does not have change nothing. *)
Lemma count_commits_outside (dates : list datetime) (m : gmap Z Q) :
  Forall (λ dt, m !! dt_date dt = None) dates → count_commits dates m = m.
Proof.
  induction 1 as [|dt dates Hdt _ IH]; [done|].
  unfold count_commits in *. cbn [foldl].
  by rewrite ymd2ord_ord2ymd, Hdt.
Qed.

Lemma window_all_equal (today : Z) : all_equal (window today).
Proof.
  destruct (window_lookup today) as (ws & _ & _ & Hlookup).
  intros k1 k2 v1 v2. rewrite !Hlookup.
  destruct (decide (ws ≤ k1 ≤ today)); [|done].
  destruct (decide (ws ≤ k2 ≤ today)); [|done].
  by intros [= <-] [= <-].
Qed.
End main_more.

(** X13. When [g.log] raises one of the three exceptions of [git], [main]
    prints the question about the git directory and returns, so that the
    process ends with status 0; any other exception leaves [main] with
    nothing printed. *)
Theorem main_git_error (parse_date : string → result datetime)
    (cli : Namespace) (today : Z) (e : exn) :
  main parse_date cli today (Raise e)
  = match e with
    | InvalidGitRepositoryError | GitCommandError | GitCommandNotFound =>
        mkIO [OutStr "Are you sure your in an initialized git directory?";
              OutStr (String "010" "")] (Ok None)
    | _ => mkIO [] (Raise e)
    end
  ∧ (exit_status (status (main parse_date cli today (Raise e))) = Some 0
     ↔ e = InvalidGitRepositoryError ∨ e = GitCommandError
       ∨ e = GitCommandNotFound ∨ e = SystemExit 0).
Proof.
  destruct (configure_ok cli) as (g & Hg & _).
  unfold main. rewrite Hg, lift_bind.
  destruct e as [| | | |code| | |]; (split; [reflexivity|]); cbn;
    try (split; [done|intros [|[|[|]]]; done]);
    try (split; [intros _|done]; auto).
  split.
  - intros [= ->]. auto.
  - intros [|[|[|[= ->]]]]; done.
Qed.

(** When [main] ends with [ZeroDivisionError]. *)
Lemma main_zero_division_cases (parse_date : string → result datetime)
    (cli : Namespace) (g : globals) (today : Z) (log : string)
    (line : string) (lines : list string)
    (commits_db : gmap Z (datetime * list Commit)) :
  configure cli = Ok g →
  split (remove_char "'" log) (String "010" "") = line :: lines →
  line ≠ "" →
  read_commits parse_date g (line :: lines) = Ok commits_db →
  (status (main parse_date cli today (Ok log)) = Raise ZeroDivisionError
   ↔ all_equal (count_commits (values commits_db).*1 (window today)))
  ∧ (status (main parse_date cli today (Ok log)) = Raise ZeroDivisionError →
     stdout (main parse_date cli today (Ok log)) = []).
Proof.
  intros Hg Hsplit Hline Hread.
  set (counts := count_commits (values commits_db).*1 (window today)).
  assert (all_equal counts ∨ ¬ all_equal counts) as [Hflat|Hne].
  { assert (counts ≠ ∅) as Hnonempty.
    { destruct (window_lookup today) as (ws & Hws & _ & Hlookup).
      pose proof (count_commits_lookup (values commits_db).*1 (window today)
                    today) as Hcount.
      rewrite Hlookup, decide_True in Hcount by lia.
      destruct Hcount as (v & Hv & _). intros Hempty. fold counts in Hv.
      by rewrite Hempty, lookup_empty in Hv. }
    destruct (py_min_least counts Hnonempty) as (lo & _ & Hlo).
    destruct (py_max_greatest counts Hnonempty) as (hi & _ & Hhi).
    rewrite (all_equal_extremes counts lo hi Hlo Hhi).
    destruct (Qeq_dec lo hi); [by left|by right]. }
  - rewrite (main_flat parse_date cli g today log line lines commits_db)
      by done.
    done.
  - assert (∃ out r, main parse_date cli today (Ok log) = mkIO out (Ok r))
      as (out & r & ->).
    { destruct (GRAPH_INLINE g) eqn:Hmode.
      - destruct (main_inline_run parse_date cli g today log line lines
                    commits_db Hg Hmode Hsplit Hline Hread Hne)
          as (buckets_map & _ & _ & ->). eauto.
      - destruct (main_block_run parse_date cli g today log line lines
                    commits_db Hg Hmode Hsplit Hline Hread Hne)
          as (buckets_map & matrix & _ & _ & _ & _ & _ & ->). eauto. }
    cbn [status]. split; [|done]. split; [done|]. intros Hflat. by destruct Hne.
Qed.

(** X14. On a log that is read without fault, [main] ends with
    [ZeroDivisionError] exactly when the counts of the days of the window
    come out all equal, and nothing has been printed then; the counts
    come out all equal when no timestamp that is kept falls on a day of
    the window. *)
Theorem main_zero_division (parse_date : string → result datetime)
    (cli : Namespace) (g : globals) (today : Z) (log : string)
    (line : string) (lines : list string)
    (commits_db : gmap Z (datetime * list Commit)) :
  configure cli = Ok g →
  split (remove_char "'" log) (String "010" "") = line :: lines →
  line ≠ "" →
  read_commits parse_date g (line :: lines) = Ok commits_db →
  (status (main parse_date cli today (Ok log)) = Raise ZeroDivisionError
   ↔ all_equal (count_commits (values commits_db).*1 (window today)))
  ∧ (status (main parse_date cli today (Ok log)) = Raise ZeroDivisionError →
     stdout (main parse_date cli today (Ok log)) = [])
  ∧ (Forall (λ dt, window today !! dt_date dt = None) (values commits_db).*1 →
     all_equal (count_commits (values commits_db).*1 (window today))).
Proof.
  intros Hg Hsplit Hline Hread.
  destruct (main_zero_division_cases parse_date cli g today log line lines
              commits_db Hg Hsplit Hline Hread) as [Hiff Hout].
  split; [done|]. split; [done|].
  intros Houtside. rewrite count_commits_outside by done.
  apply window_all_equal.
Qed.

Lemma main_zero_division_witness :
  (status (main late_may_parse_date default_cli first_of_june (Ok late_may_log))
   = Raise ZeroDivisionError
   ↔ all_equal (count_commits (values late_may_commits_db).*1
                  (window first_of_june)))
  ∧ (status (main late_may_parse_date default_cli first_of_june
               (Ok late_may_log)) = Raise ZeroDivisionError →
     stdout (main late_may_parse_date default_cli first_of_june
               (Ok late_may_log)) = [])
  ∧ (Forall (λ dt, window first_of_june !! dt_date dt = None)
            (values late_may_commits_db).*1 →
     all_equal (count_commits (values late_may_commits_db).*1
                  (window first_of_june))).
Proof.
  apply (main_zero_division late_may_parse_date default_cli default_globals
           first_of_june late_may_log "2015-05-26 12:00:00 +0000 ~ carol" []).
  - reflexivity.
  - vm_compute. reflexivity.
  - discriminate.
  - vm_compute. reflexivity.
Defined.

(** X15. A run of [main] in block mode, on a log that is read without
    fault and leaves counts that are not all equal: [main] prints the
    matrix and then the report, if any; the columns of the matrix have 7
    slots, its days are the days of the window in increasing order, and
    every day is in the row of its weekday. *)
Theorem main_block_grid (parse_date : string → result datetime)
    (cli : Namespace) (g : globals) (today : Z) (log : string)
    (line : string) (lines : list string)
    (commits_db : gmap Z (datetime * list Commit)) :
  configure cli = Ok g → GRAPH_INLINE g = false →
  split (remove_char "'" log) (String "010" "") = line :: lines →
  line ≠ "" →
  read_commits parse_date g (line :: lines) = Ok commits_db →
  ¬ all_equal (count_commits (values commits_db).*1 (window today)) →
  ∃ matrix,
    main parse_date cli today (Ok log)
    = mkIO (stdout (print_matrix g matrix) ++ report g commits_db)
           (Ok (Some matrix))
    ∧ Forall (λ c, Column.len c = 7%nat) matrix
    ∧ placed_days matrix = sorted (window today)
    ∧ weekday_rows matrix.
Proof.
  intros Hg Hblock Hsplit Hline Hread Hne.
  destruct (main_block_run parse_date cli g today log line lines commits_db
              Hg Hblock Hsplit Hline Hread Hne)
    as (buckets_map & matrix & _ & Hsorted & Hbuild & Hfull & Hdays & Hrun).
  exists matrix. split; [done|]. split; [done|]. split; [done|].
  destruct (window_interval today) as (ws & _ & _ & Hwindow).
  rewrite (sorted_interval (window today) ws today Hwindow) in Hsorted.
  by apply (build_matrix_rows g buckets_map matrix ws (today - ws + 1)).
Qed.

Lemma main_block_grid_witness :
  ∃ matrix,
    main sample_parse_date default_cli first_of_june (Ok march_log)
    = mkIO (stdout (print_matrix default_globals matrix)
            ++ report default_globals march_commits_db)
           (Ok (Some matrix))
    ∧ Forall (λ c, Column.len c = 7%nat) matrix
    ∧ placed_days matrix = sorted (window first_of_june)
    ∧ weekday_rows matrix.
Proof.
  apply (main_block_grid sample_parse_date default_cli default_globals
           first_of_june march_log "2016-03-01 10:00:00 -0500 ~ alice" []).
  - reflexivity.
  - reflexivity.
  - vm_compute. reflexivity.
  - discriminate.
  - vm_compute. reflexivity.
  - apply (not_all_equal_check _ 736024 736116 1%Q 0%Q); vm_compute; reflexivity.
Defined.

(** X16. A run of [main] in inline mode, on a log that is read without
    fault and leaves counts that are not all equal: [main] prints one
    line for every day of the window, in increasing order and in the
    colour of the bucket of the day, then an empty line and the report,
    if any.  The 378 rounds of the loop of [graph_inline] are enough for
    every window. *)
Theorem main_inline_days (parse_date : string → result datetime)
    (cli : Namespace) (g : globals) (today : Z) (log : string)
    (line : string) (lines : list string)
    (commits_db : gmap Z (datetime * list Commit)) :
  configure cli = Ok g → GRAPH_INLINE g = true →
  split (remove_char "'" log) (String "010" "") = line :: lines →
  line ≠ "" →
  read_commits parse_date g (line :: lines) = Ok commits_db →
  ¬ all_equal (count_commits (values commits_db).*1 (window today)) →
  ∃ buckets_map,
    normalize (count_commits (values commits_db).*1 (window today)) 0 5
    = Ok buckets_map
    ∧ main parse_date cli today (Ok log)
      = mkIO (concat (inline_line g buckets_map <$> sorted (window today))
              ++ [OutStr (String "010" "")] ++ report g commits_db)
             (Ok None)
    ∧ printed_dates (stdout (main parse_date cli today (Ok log)))
      = sorted (window today).
Proof.
  intros Hg Hinline Hsplit Hline Hread Hne.
  destruct (main_inline_run parse_date cli g today log line lines commits_db
              Hg Hinline Hsplit Hline Hread Hne)
    as (buckets_map & Hnorm & _ & Hrun).
  exists buckets_map. split; [done|]. split; [done|].
  rewrite Hrun. cbn [stdout]. unfold printed_dates.
  rewrite !omap_app. fold (printed_dates (report g commits_db)).
  fold (printed_dates (concat (inline_line g buckets_map
                               <$> sorted (window today)))).
  rewrite printed_dates_lines, printed_dates_report. cbn.
  by rewrite app_nil_r.
Qed.

Lemma main_inline_days_witness :
  ∃ buckets_map,
    normalize (count_commits (values march_commits_db).*1
                 (window first_of_june)) 0 5
    = Ok buckets_map
    ∧ main sample_parse_date inline_cli first_of_june (Ok march_log)
      = mkIO (concat (inline_line inline_globals buckets_map
                      <$> sorted (window first_of_june))
              ++ [OutStr (String "010" "")]
              ++ report inline_globals march_commits_db)
             (Ok None)
    ∧ printed_dates (stdout (main sample_parse_date inline_cli first_of_june
                               (Ok march_log)))
      = sorted (window first_of_june).
Proof.
  apply (main_inline_days sample_parse_date inline_cli inline_globals
           first_of_june march_log "2016-03-01 10:00:00 -0500 ~ alice" []).
  - reflexivity.
  - reflexivity.
  - vm_compute. reflexivity.
  - discriminate.
  - vm_compute. reflexivity.
  - apply (not_all_equal_check _ 736024 736116 1%Q 0%Q); vm_compute; reflexivity.
Defined.

(** * Properties of the loops of [main] *)

Section commits.
Variable parse_date : string → result datetime.
Variable g : globals.
Implicit Types (commits_db : gmap Z (datetime * list Commit)).

Lemma concat_Permutation {A} (l1 l2 : list (list A)) :
  l1 ≡ₚ l2 → concat l1 ≡ₚ concat l2.
Proof.
  induction 1 as [|x l1 l2 _ IH|x y l|l1 l2 l3 _ IH1 _ IH2]; cbn.
  - done.
  - by rewrite IH.
  - rewrite !app_assoc. by rewrite (Permutation_app_comm y x).
  - by rewrite IH1.
Qed.

Lemma commits_insert_new commits_db k (x : datetime * list Commit) :
  commits_db !! k = None →
  concat (values (<[k := x]> commits_db)).*2
  ≡ₚ concat (values commits_db).*2 ++ x.2.
Proof.
  intros Hk. unfold values.
  rewrite (concat_Permutation _ (((k, x) :: map_to_list commits_db).*2).*2).
  - cbn. apply Permutation_app_comm.
  - by rewrite (map_to_list_insert commits_db k x Hk).
Qed.

Lemma commits_insert_old commits_db k dt cs c :
  commits_db !! k = Some (dt, cs) →
  concat (values (<[k := (dt, cs ++ [c])]> commits_db)).*2
  ≡ₚ concat (values commits_db).*2 ++ [c].
Proof.
  intros Hk. rewrite <- insert_delete_eq.
  rewrite commits_insert_new by apply lookup_delete_eq.
  unfold values.
  rewrite (concat_Permutation (map_to_list commits_db).*2.*2
             (((k, (dt, cs)) :: map_to_list (delete k commits_db)).*2).*2).
  - cbn. rewrite app_assoc. apply Permutation_app_tail.
    apply Permutation_app_comm.
  - by rewrite (map_to_list_delete commits_db k (dt, cs) Hk).
Qed.

(** One round of the loop over the lines of the log. *)
Lemma read_commits_round rc commits_db commits_db' :
  by_timestamp commits_db →
  (match split rc " ~ " with
   | [date; author] =>
       date ← parse_date date;
       if match SHOW_BY_DAY g with
          | Some name => negb (String.eqb name (strftime_A (dt_date date)))
          | None => false
          end
       then Ok commits_db
       else
         let commit := {| commit_date := date; commit_author := author |} in
         match commits_db !! instant date with
         | Some (key, commits) =>
             Ok (<[instant date := (key, commits ++ [commit])]> commits_db)
         | None => Ok (<[instant date := (date, [commit])]> commits_db)
         end
   | _ => Raise ValueError
   end) = Ok commits_db' →
  by_timestamp commits_db'
  ∧ line_fault parse_date rc = None
  ∧ concat (values commits_db').*2
    ≡ₚ concat (values commits_db).*2
       ++ option_list (kept_commit parse_date g rc).
Proof.
  intros Hwf. unfold kept_commit, line_fault.
  destruct (split rc " ~ ") as [|date [|author [|]]]; try done.
  destruct (parse_date date) as [dt| |]; try done. cbn [mbind result_bind].
  destruct (match SHOW_BY_DAY g with
            | Some name => negb (String.eqb name (strftime_A (dt_date dt)))
            | None => false
            end).
  { intros [= <-]. split; [done|]. split; [done|]. cbn. by rewrite app_nil_r. }
  cbv zeta. destruct (commits_db !! instant dt) as [[key cs]|] eqn:Hk;
    intros [= <-]; (split; [|split; [done|]]).
  - intros k dt' cs' Hlookup.
    destruct (decide (k = instant dt)) as [->|Hne].
    + rewrite lookup_insert_eq in Hlookup. injection Hlookup as <- <-.
      destruct (Hwf _ _ _ Hk) as ((c & Hhead & Hkey) & Hall).
      split.
      * exists c. split; [|done]. destruct cs; [done|]. exact Hhead.
      * apply Forall_app. split; [done|]. by apply Forall_singleton.
    + rewrite lookup_insert_ne in Hlookup by done. by apply Hwf.
  - by apply commits_insert_old.
  - intros k dt' cs' Hlookup.
    destruct (decide (k = instant dt)) as [->|Hne].
    + rewrite lookup_insert_eq in Hlookup. injection Hlookup as <- <-.
      split; [by eexists|]. by apply Forall_singleton.
    + rewrite lookup_insert_ne in Hlookup by done. by apply Hwf.
  - by apply commits_insert_new.
Qed.

Lemma read_commits_loop (raw_commits : list string) commits_db commits_db' :
  by_timestamp commits_db →
  for_in raw_commits
    (λ rc commits_db,
       match split rc " ~ " with
       | [date; author] =>
           date ← parse_date date;
           if match SHOW_BY_DAY g with
              | Some name => negb (String.eqb name (strftime_A (dt_date date)))
              | None => false
              end
           then Ok commits_db
           else
             let commit := {| commit_date := date; commit_author := author |} in
             match commits_db !! instant date with
             | Some (key, commits) =>
                 Ok (<[instant date := (key, commits ++ [commit])]> commits_db)
             | None => Ok (<[instant date := (date, [commit])]> commits_db)
             end
       | _ => Raise ValueError
       end)
    commits_db = Ok commits_db' →
  by_timestamp commits_db'
  ∧ Forall (λ rc, line_fault parse_date rc = None) raw_commits
  ∧ concat (values commits_db').*2
    ≡ₚ concat (values commits_db).*2
       ++ omap (kept_commit parse_date g) raw_commits.
Proof.
  revert commits_db. induction raw_commits as [|rc raw_commits IH];
    intros commits_db Hwf.
  - intros [= <-]. split; [done|]. split; [done|]. cbn. by rewrite app_nil_r.
  - cbn [for_in].
    match goal with |- (?round ≫= _) = _ → _ =>
      destruct round as [commits_db1| |] eqn:Hround; [|done..] end.
    cbn [mbind result_bind]. intros Hrest.
    destruct (read_commits_round rc commits_db commits_db1 Hwf Hround)
      as (Hwf1 & Hfault & Hperm).
    destruct (IH commits_db1 Hwf1 Hrest) as (Hwf' & Hfaults & Hperm').
    split; [done|]. split; [by constructor|].
    rewrite Hperm', Hperm, <- app_assoc. apply Permutation_app_head.
    cbn. by destruct (kept_commit parse_date g rc).
Qed.
End commits.

(** X17. When the loop over the lines of the log ends without fault,
    no line was in fault and [commits_db] holds the commits of the lines
    that pass the filter on the weekday, each of them once and none
    else, every one under its timestamp; no key is without a commit, and
    the [datetime] of a key is that of its first commit. *)
Theorem read_commits_keeps (parse_date : string → result datetime)
    (g : globals) (raw_commits : list string)
    (commits_db : gmap Z (datetime * list Commit)) :
  read_commits parse_date g raw_commits = Ok commits_db →
  concat (values commits_db).*2 ≡ₚ omap (kept_commit parse_date g) raw_commits
  ∧ by_timestamp commits_db
  ∧ Forall (λ rc, line_fault parse_date rc = None) raw_commits.
Proof.
  intros Hread. apply read_commits_loop in Hread as (Hwf & Hfaults & Hperm).
  - split; [|done]. by rewrite Hperm.
  - intros k dt cs Hk. by rewrite lookup_empty in Hk.
Qed.

Lemma read_commits_keeps_witness :
  concat (values sample_commits_db).*2
  ≡ₚ omap (kept_commit sample_parse_date default_globals) sample_raw_commits
  ∧ by_timestamp sample_commits_db
  ∧ Forall (λ rc, line_fault sample_parse_date rc = None) sample_raw_commits.
Proof.
  apply read_commits_keeps. vm_compute. reflexivity.
Defined.

Section faults.
Variable parse_date : string → result datetime.

Lemma read_commits_fault g pre rc post commits_db e :
  read_commits parse_date g pre = Ok commits_db →
  line_fault parse_date rc = Some e →
  read_commits parse_date g (pre ++ rc :: post) = Raise e.
Proof.
  unfold read_commits, line_fault. intros Hpre Hfault.
  rewrite for_in_app, Hpre. cbn [mbind result_bind for_in].
  destruct (split rc " ~ ") as [|date [|author [|]]];
    try (by injection Hfault as <-).
  by destruct (parse_date date) as [dt|e'|]; [|injection Hfault as <-|].
Qed.
End faults.

(** X18. A line of the log in fault ends the run: when [rc.split(" ~ ")]
    has not two parts, as for an author whose name holds [" ~ "], [main]
    ends with [ValueError], and when [parse_date] raises, with its
    exception; nothing is printed and no line after it is read. *)
Theorem main_line_fault (parse_date : string → result datetime)
    (cli : Namespace) (g : globals) (today : Z) (log : string)
    (pre post : list string) (rc : string)
    (commits_db : gmap Z (datetime * list Commit)) (e : exn) :
  configure cli = Ok g →
  split (remove_char "'" log) (String "010" "") = pre ++ rc :: post →
  hd rc pre ≠ "" →
  read_commits parse_date g pre = Ok commits_db →
  line_fault parse_date rc = Some e →
  main parse_date cli today (Ok log) = mkIO [] (Raise e).
Proof.
  intros Hg Hsplit Hfirst Hpre Hfault. unfold main.
  rewrite Hg, lift_bind, Hsplit.
  rewrite (read_commits_fault parse_date g pre rc post commits_db e) by done.
  destruct pre as [|line pre]; cbn in Hfirst |- *.
  - by destruct rc.
  - by destruct line.
Qed.

Lemma main_line_fault_witness :
  main sample_parse_date default_cli first_of_june
    (Ok "'2016-03-01 10:00:00 -0500 ~ eve ~ mallory'")
  = mkIO [] (Raise ValueError).
Proof.
  apply (main_line_fault sample_parse_date default_cli default_globals
           first_of_june _ [] []
           "2016-03-01 10:00:00 -0500 ~ eve ~ mallory" ∅).
  - reflexivity.
  - vm_compute. reflexivity.
  - discriminate.
  - reflexivity.
  - vm_compute. reflexivity.
Defined.

(** * Further properties of the aggregation *)

Section counting.
Implicit Types (dates : list datetime) (m : gmap Z Q) (d : Z).

Lemma count_commits_swap m (dt1 dt2 : datetime) :
  count_commits [dt1; dt2] m = count_commits [dt2; dt1] m.
Proof.
  unfold count_commits. cbn [foldl]. rewrite !ymd2ord_ord2ymd.
  destruct (decide (dt_date dt1 = dt_date dt2)) as [Heq|Hne].
  { rewrite Heq. done. }
  destruct (m !! dt_date dt1) as [v1|] eqn:H1;
    destruct (m !! dt_date dt2) as [v2|] eqn:H2;
    rewrite ?lookup_insert_ne, ?H1, ?H2 by done; try done.
  by apply insert_insert_ne.
Qed.

Lemma count_commits_app dates1 dates2 m :
  count_commits (dates1 ++ dates2) m
  = count_commits dates2 (count_commits dates1 m).
Proof. unfold count_commits. by rewrite foldl_app. Qed.

Lemma count_commits_Permutation dates dates' m :
  dates ≡ₚ dates' → count_commits dates m = count_commits dates' m.
Proof.
  intros Hperm. revert m.
  induction Hperm as [|dt l1 l2 _ IH|dt1 dt2 l|l1 l2 l3 _ IH1 _ IH2]; intros m.
  - done.
  - change (dt :: l1) with ([dt] ++ l1). change (dt :: l2) with ([dt] ++ l2).
    by rewrite !count_commits_app, IH.
  - change (dt2 :: dt1 :: l) with ([dt2; dt1] ++ l).
    change (dt1 :: dt2 :: l) with ([dt1; dt2] ++ l).
    by rewrite !count_commits_app, count_commits_swap.
  - by rewrite IH1.
Qed.
End counting.

(** X19. The loop over the timestamps adds no day to the map and takes
    none away; to the count of a day of the map it adds the number of
    the timestamps of the list that fall on that day, and timestamps of
    other days change nothing. *)
Theorem count_commits_events (dates : list datetime) (m : gmap Z Q) (d : Z) :
  (m !! d = None → count_commits dates m !! d = None)
  ∧ (∀ v, m !! d = Some v →
       ∃ v', count_commits dates m !! d = Some v'
         ∧ v' == v + inject_Z (Z.of_nat (events_on dates d))).
Proof.
  pose proof (count_commits_lookup dates m d) as Hcount.
  split.
  - intros Hd. by rewrite Hd in Hcount.
  - intros v Hd. by rewrite Hd in Hcount.
Qed.

(** X20. The counts do not depend on the order of the timestamps: the
    loop gives the same map for a list and for every rearrangement of
    it. *)
Theorem count_commits_order (dates dates' : list datetime) (m : gmap Z Q) :
  dates ≡ₚ dates' → count_commits dates m = count_commits dates' m.
Proof. apply count_commits_Permutation. Qed.

Lemma count_commits_order_witness :
  count_commits [first_of_march; late_may] (window first_of_june)
  = count_commits [late_may; first_of_march] (window first_of_june).
Proof. apply count_commits_order. apply perm_swap. Defined.

(** * Properties of the settings *)

(** X21. Reading the command line never fails and always leaves a
    palette of six colours.  With [--day] the weekday that is kept is the
    name at the place of the option in [sun, sat, mon, tues, wedn, thur,
    fri], read in the list of the names from Sunday to Saturday: [sun]
    keeps the Sundays, [sat] the Mondays, [mon] the Tuesdays, and so on
    to [fri], which keeps the Saturdays. *)
Theorem configure_settings (cli : Namespace) :
  ∃ g, configure cli = Ok g
    ∧ six_colors g
    ∧ SHOW_BY_DAY g
      = (λ c, match c with
              | day_sun => "Sunday" | day_sat => "Monday"
              | day_mon => "Tuesday" | day_tues => "Wednesday"
              | day_wedn => "Thursday" | day_thur => "Friday"
              | day_fri => "Saturday"
              end) <$> cli_day cli.
Proof.
  destruct cli as [t w [[]|] [] s b mg a]; eexists;
    (split; [reflexivity|split; reflexivity]).
Qed.

(** * Properties of [print_stats] *)

Section stats.
Implicit Types (l : list string) (counter : gmap string nat)
  (items : list (string * nat)).

Lemma filter_none {A} (P : A → Prop) `{!∀ a, Decision (P a)} (l : list A) :
  (∀ a, a ∈ l → ¬ P a) → filter P l = [].
Proof.
  induction l as [|a l IH]; intros Hl; [done|].
  rewrite filter_cons_False by (apply Hl; left).
  apply IH. intros a' Ha'. apply Hl. by right.
Qed.

Lemma Counter_acc l counter a :
  foldl (λ counter elem, <[elem := S (default 0%nat (counter !! elem))]> counter)
        counter l !! a
  = if decide (a ∈ l)
    then Some (default 0%nat (counter !! a)
               + length (filter (λ x, x = a) l))%nat
    else counter !! a.
Proof.
  revert counter. induction l as [|x l IH]; intros counter.
  - cbn. rewrite decide_False; [done|]. apply not_elem_of_nil.
  - cbn [foldl]. rewrite IH. destruct (decide (x = a)) as [->|Hne].
    + rewrite lookup_insert_eq, filter_cons_True by done.
      rewrite (decide_True (P := a ∈ a :: l)) by left.
      destruct (decide (a ∈ l)) as [Hin|Hout]; cbn.
      * f_equal. lia.
      * f_equal. rewrite filter_none; [cbn; lia|]. by intros y Hy ->.
    + rewrite lookup_insert_ne, filter_cons_False by done.
      destruct (decide (a ∈ l)) as [Hin|Hout].
      * rewrite decide_True; [done|by right].
      * rewrite decide_False; [done|]. by intros [->|?]%elem_of_cons.
Qed.

Lemma Counter_lookup l a :
  Counter l !! a
  = if decide (a ∈ l) then Some (length (filter (λ x, x = a) l)) else None.
Proof. unfold Counter. rewrite Counter_acc. by rewrite lookup_empty. Qed.

Lemma insert_by_count_Permutation item items :
  insert_by_count item items ≡ₚ item :: items.
Proof.
  induction items as [|item' items IH]; [done|]. cbn [insert_by_count].
  destruct (item'.2 <? item.2)%nat; [done|].
  rewrite IH. apply perm_swap.
Qed.

Lemma insert_by_count_sorted item items :
  StronglySorted (λ x y : string * nat, (y.2 ≤ x.2)%nat) items →
  StronglySorted (λ x y : string * nat, (y.2 ≤ x.2)%nat)
                 (insert_by_count item items).
Proof.
  induction 1 as [|item' items Hsorted IH Hall]; cbn [insert_by_count].
  - repeat constructor.
  - destruct (item'.2 <? item.2)%nat eqn:Hlt.
    + apply Nat.ltb_lt in Hlt. constructor; [by constructor|].
      constructor; [lia|]. eapply Forall_impl; [exact Hall|].
      cbn. intros y Hy. lia.
    + apply Nat.ltb_ge in Hlt. constructor; [done|].
      rewrite insert_by_count_Permutation. by constructor.
Qed.

Lemma sort_by_count acc items :
  StronglySorted (λ x y : string * nat, (y.2 ≤ x.2)%nat) acc →
  let sorted_items := foldl (λ acc item, insert_by_count item acc) acc items in
  sorted_items ≡ₚ acc ++ items
  ∧ StronglySorted (λ x y : string * nat, (y.2 ≤ x.2)%nat) sorted_items.
Proof.
  cbv zeta. revert acc. induction items as [|item items IH]; intros acc Hacc.
  - cbn. by rewrite app_nil_r.
  - cbn [foldl].
    destruct (IH (insert_by_count item acc)) as [Hperm Hsorted];
      [by apply insert_by_count_sorted|].
    split; [|done]. rewrite Hperm, insert_by_count_Permutation.
    cbn. apply Permutation_middle.
Qed.

(** The ranking of [most_common]. *)
Lemma most_common_spec counter n :
  let top_n := most_common counter n in
  length top_n = min n (size counter)
  ∧ NoDup top_n.*1
  ∧ StronglySorted (λ x y : string * nat, (y.2 ≤ x.2)%nat) top_n
  ∧ (∀ a c, (a, c) ∈ top_n → counter !! a = Some c)
  ∧ (∀ a c b c', (a, c) ∈ top_n → counter !! b = Some c' →
       b ∉ top_n.*1 → (c' ≤ c)%nat).
Proof.
  cbv zeta. unfold most_common.
  destruct (sort_by_count [] (map_to_list counter)) as [Hperm Hsorted];
    [constructor|].
  cbv zeta in Hperm, Hsorted. cbn [app] in Hperm.
  set (ranked := foldl (λ acc item, insert_by_count item acc) []
                       (map_to_list counter)) in *.
  split; [|split; [|split; [|split]]].
  - rewrite length_take, Hperm. by rewrite length_map_to_list.
  - apply (sublist_NoDup _ ranked.*1).
    + rewrite Hperm. apply NoDup_fst_map_to_list.
    + apply fmap_sublist, sublist_take.
  - rewrite <- (take_drop n ranked) in Hsorted.
    by apply StronglySorted_app_1_l in Hsorted.
  - intros a c Hin. apply elem_of_map_to_list. rewrite <- Hperm.
    eapply elem_of_sublist; [done|apply sublist_take].
  - intros a c b c' Hin Hb Hout.
    apply elem_of_map_to_list in Hb. rewrite <- Hperm in Hb.
    rewrite <- (take_drop n ranked) in Hb, Hsorted.
    apply elem_of_app in Hb as [Hb|Hb].
    + destruct Hout. apply list_elem_of_fmap. by exists (b, c').
    + apply (StronglySorted_app_1_elem_of _ _ _ (a, c) (b, c') Hsorted Hin Hb).
Qed.

Lemma count_authors (cs : list Commit) (a : string) :
  length (filter (λ x, x = a) (commit_author <$> cs))
  = length (filter (λ c, commit_author c = a) cs).
Proof.
  induction cs as [|c cs IH]; [done|]. cbn [fmap list_fmap].
  destruct (decide (commit_author c = a)).
  - rewrite !filter_cons_True by done. cbn. by rewrite IH.
  - by rewrite !filter_cons_False.
Qed.

Lemma stdout_stats_lines (items : list (nat * (string * nat))) (s : unit) :
  for_in items
    (λ '(idx, info) _,
       print [OutStr (stats_line idx info)] (String "010" ""))
    s
  = mkIO (concat ((λ '(idx, info),
                     [OutStr (stats_line idx info); OutStr (String "010" "")])
                  <$> items))
         (Ok tt).
Proof.
  revert s. induction items as [|[idx info] items IH]; intros []; [done|].
  cbn [for_in fmap list_fmap concat].
  unfold mbind at 1, IO_bind, print. cbn [status stdout]. by rewrite IH.
Qed.
End stats.

(** X22. The ranking that [print_stats] prints: at most [n] authors, no
    author twice, every author with the number of the commits of
    [commits_db] that are of that author, commits with a common
    timestamp included; the counts go from the greatest to the least,
    and no author that is left out has more commits than an author of
    the ranking. *)
Theorem print_stats_ranking (commits_db : gmap Z (datetime * list Commit))
    (n : nat) :
  let counter := Counter (commit_author <$> concat (values commits_db).*2) in
  let top_n := most_common counter n in
  length top_n = min n (size counter)
  ∧ NoDup top_n.*1
  ∧ StronglySorted (λ x y : string * nat, (y.2 ≤ x.2)%nat) top_n
  ∧ (∀ author count, (author, count) ∈ top_n →
       count = commits_of commits_db author ∧ (0 < count)%nat)
  ∧ (∀ author count other, (author, count) ∈ top_n →
       other ∉ top_n.*1 → (commits_of commits_db other ≤ count)%nat).
Proof.
  cbv zeta.
  destruct (most_common_spec
              (Counter (commit_author <$> concat (values commits_db).*2)) n)
    as (Hlen & Hnodup & Hsorted & Hcount & Hrest).
  split; [done|]. split; [done|]. split; [done|]. split.
  - intros author count Hin. apply Hcount in Hin.
    rewrite Counter_lookup in Hin.
    destruct (decide (author ∈ _)) as [Hauthor|]; [|done].
    injection Hin as <-. unfold commits_of. rewrite count_authors.
    split; [done|].
    apply list_elem_of_fmap in Hauthor as (c & -> & Hc).
    assert (c ∈ filter (λ c', commit_author c' = commit_author c)
                       (concat (values commits_db).*2)) as Hfilter
      by (by apply list_elem_of_filter).
    destruct (filter _ _); [by apply not_elem_of_nil in Hfilter|cbn; lia].
  - intros author count other Hin Hout. unfold commits_of.
    rewrite <- count_authors.
    destruct (decide (other ∈ commit_author <$> concat (values commits_db).*2))
      as [Hother|Hother].
    + apply (Hrest author count other _ Hin); [|done].
      rewrite Counter_lookup. by rewrite decide_True.
    + rewrite filter_none; [cbn; lia|]. by intros y Hy ->.
Qed.

(** X23. [print_stats] prints nothing when there is no commit or [n] is
    0; otherwise it prints the title and one line for every author of
    the ranking, numbered from 1. *)
Theorem print_stats_lines (commits_db : gmap Z (datetime * list Commit))
    (n : nat) :
  let top_n := most_common
                 (Counter (commit_author <$> concat (values commits_db).*2)) n in
  print_stats commits_db n
  = mkIO (match top_n with
          | [] => []
          | _ =>
              [OutStr ("Top " +:+ pretty n +:+ " committers:");
               OutStr (String "010" "")]
              ++ concat (imap (λ idx info,
                                 [OutStr (stats_line idx info);
                                  OutStr (String "010" "")]) top_n)
          end) (Ok tt)
  ∧ (top_n = [] ↔ n = 0%nat ∨ concat (values commits_db).*2 = []).
Proof.
  cbv zeta. split.
  - unfold print_stats. cbv zeta.
    destruct (most_common _ n) as [|item top_n] eqn:Htop; [done|].
    rewrite stdout_stats_lines. unfold mbind, IO_bind, print.
    cbn [status stdout app]. do 3 f_equal.
    by rewrite fmap_imap.
  - destruct (most_common_spec
                (Counter (commit_author <$> concat (values commits_db).*2)) n)
      as (Hlen & _).
    cbv zeta in Hlen. rewrite <- length_zero_iff_nil, Hlen.
    assert (size (Counter (commit_author <$> concat (values commits_db).*2))
            = 0%nat ↔ concat (values commits_db).*2 = []) as Hsize.
    { rewrite map_size_empty_iff. split.
      - intros Hempty.
        destruct (concat (values commits_db).*2) as [|c cs]; [done|].
        pose proof (Counter_lookup (commit_author <$> c :: cs)
                      (commit_author c)) as Hc.
        rewrite Hempty, lookup_empty, decide_True in Hc; [done|]. left.
      - by intros ->. }
    rewrite <- Hsize. lia.
Qed.

(** * Properties of [get_months] *)

Section months.

Lemma month_cases m :
  1 ≤ m ≤ 12 →
  m = 1 ∨ m = 2 ∨ m = 3 ∨ m = 4 ∨ m = 5 ∨ m = 6 ∨ m = 7 ∨ m = 8 ∨ m = 9
  ∨ m = 10 ∨ m = 11 ∨ m = 12.
Proof. lia. Qed.

(** The place of a date in its year determines its month and its day. *)
Lemma month_day_unique y m d m' d' :
  1 ≤ m ≤ 12 → 1 ≤ d ≤ days_in_month y m →
  1 ≤ m' ≤ 12 → 1 ≤ d' ≤ days_in_month y m' →
  days_before_month y m + d = days_before_month y m' + d' →
  m = m' ∧ d = d'.
Proof.
  intros Hm Hd Hm' Hd'.
  rewrite (days_in_month_leap y m), (days_in_month_leap y m') in *.
  rewrite (days_before_month_leap y m), (days_before_month_leap y m').
  destruct (is_leap y);
    destruct (month_cases m Hm) as [->|[->|[->|[->|[->|[->|[->|[->|[->|[->|[->| ->]]]]]]]]]]];
    destruct (month_cases m' Hm') as [->|[->|[->|[->|[->|[->|[->|[->|[->|[->|[->| ->]]]]]]]]]]];
    calendar_values; lia.
Qed.

Lemma days_before_month_end y m :
  1 ≤ m ≤ 12 →
  days_before_month y m + days_in_month y m
  ≤ 365 + (if is_leap y then 1 else 0).
Proof.
  intros Hm. rewrite (days_in_month_leap y m), (days_before_month_leap y m).
  destruct (is_leap y);
    destruct (month_cases m Hm) as [->|[->|[->|[->|[->|[->|[->|[->|[->|[->|[->| ->]]]]]]]]]]];
    calendar_values; lia.
Qed.

Lemma days_before_month_nonneg y m : 1 ≤ m ≤ 12 → 0 ≤ days_before_month y m.
Proof.
  intros Hm. rewrite (days_before_month_leap y m).
  destruct (is_leap y);
    destruct (month_cases m Hm) as [->|[->|[->|[->|[->|[->|[->|[->|[->|[->|[->| ->]]]]]]]]]]];
    calendar_values; lia.
Qed.

Lemma days_before_month_succ y m :
  1 ≤ m ≤ 11 →
  days_before_month y (m + 1) = days_before_month y m + days_in_month y m.
Proof.
  intros Hm. rewrite (days_in_month_leap y m), (days_before_month_leap y m),
    (days_before_month_leap y (m + 1)).
  assert (1 ≤ m ≤ 12) as Hm' by lia.
  destruct (is_leap y);
    destruct (month_cases m Hm') as [->|[->|[->|[->|[->|[->|[->|[->|[->|[->|[->| ->]]]]]]]]]]];
    calendar_values; lia.
Qed.

Lemma days_in_month_range y m : 1 ≤ m ≤ 12 → 28 ≤ days_in_month y m ≤ 31.
Proof.
  intros Hm. rewrite (days_in_month_leap y m).
  destruct (is_leap y);
    destruct (month_cases m Hm) as [->|[->|[->|[->|[->|[->|[->|[->|[->|[->|[->| ->]]]]]]]]]]];
    calendar_values; lia.
Qed.

(** [date(year, month, day)] has that year, that month and that day. *)
Lemma ord2ymd_ymd2ord y m d :
  1 ≤ m ≤ 12 → 1 ≤ d ≤ days_in_month y m →
  ord2ymd (ymd2ord y m d) = (y, m, d).
Proof.
  intros Hm Hd. unfold ymd2ord.
  pose proof (days_before_month_end y m Hm) as Hend.
  pose proof (days_before_month_nonneg y m Hm) as Hstart.
  set (doy := days_before_month y m + d - 1).
  replace (days_before_year y + days_before_month y m + d)
    with (days_before_year y + 1 + doy) by (unfold doy; lia).
  assert (0 ≤ doy < 365 + (if is_leap y then 1 else 0)) as Hdoy
    by (unfold doy; lia).
  rewrite (ord2ymd_day_of_year y doy Hdoy).
  pose proof (month_day_check_inv (is_leap y) doy
                (month_day_checked (is_leap y) doy Hdoy)) as Hcheck.
  cbv zeta in Hcheck. destruct Hcheck as (Hm' & Hd' & Hsum & _).
  rewrite <- (days_in_month_leap y) in Hd'.
  rewrite <- (days_before_month_leap y) in Hsum.
  assert (doy + 1 = days_before_month y m + d) as Hplace
    by (unfold doy; lia).
  destruct (month_day_unique y m d _ _ Hm Hd Hm' Hd') as [<- <-]; [lia|].
  done.
Qed.

(** The date that [get_months] reaches in one round, for a date that is
    not among the first days of a long month. *)
Lemma month_back n :
  let y := year n in
  let m := month n in
  let n' := n - days_in_month y m in
  days_in_month y m - 27 ≤ day n →
  year n' * 12 + month n' = y * 12 + m - 1
  ∧ 1 ≤ month n' ≤ 12
  ∧ day n' - days_in_month (year n') (month n') = day n - days_in_month y m.
Proof.
  cbv zeta. intros Hday.
  pose proof (month_range n) as Hm. pose proof (day_range n) as Hd.
  pose proof (ymd2ord_ord2ymd n) as Hn.
  set (y := year n) in *. set (m := month n) in *. set (d := day n) in *.
  destruct (decide (m = 1)) as [Hjan|Hlater].
  - pose proof (days_in_month_range (y - 1) 12 ltac:(lia)) as Hdec.
    assert (days_in_month y m = 31) as Hlen by (rewrite Hjan; reflexivity).
    assert (days_in_month (y - 1) 12 = 31) as Hlen' by reflexivity.
    assert (n - days_in_month y m = ymd2ord (y - 1) 12 d) as ->.
    { rewrite <- Hn, Hlen. unfold ymd2ord. rewrite Hjan.
      pose proof (days_before_year_succ (y - 1)) as Hsucc.
      replace (y - 1 + 1) with y in Hsucc by lia.
      rewrite Hsucc. unfold days_before_month.
      change (nth (Z.to_nat 1) DAYS_BEFORE_MONTH 0) with 0.
      change (nth (Z.to_nat 12) DAYS_BEFORE_MONTH 0) with 334.
      change (2 <? 1) with false. change (2 <? 12) with true.
      cbn [andb]. lia. }
    unfold year, month, day. rewrite ord2ymd_ymd2ord by lia. cbn [fst snd].
    lia.
  - pose proof (days_in_month_range y (m - 1) ltac:(lia)) as Hprev.
    pose proof (days_in_month_range y m ltac:(lia)) as Hcur.
    pose proof (days_before_month_succ y (m - 1) ltac:(lia)) as Hsucc.
    replace (m - 1 + 1) with m in Hsucc by lia.
    assert (n - days_in_month y m
            = ymd2ord y (m - 1)
                (d - days_in_month y m + days_in_month y (m - 1))) as ->.
    { rewrite <- Hn at 1. unfold ymd2ord. lia. }
    unfold year, month, day. rewrite ord2ymd_ymd2ord by lia. cbn [fst snd].
    lia.
Qed.

Lemma months_before_shift y m y' m' i :
  y' * 12 + m' = y * 12 + m - 1 →
  months_before y' m' i = months_before y m (1 + i).
Proof.
  intros Hlin. unfold months_before.
  replace (m - 1 - (1 + i)) with (m' - 1 - i + (y' - y) * 12) by lia.
  rewrite Z.div_add, Z_mod_plus_full by lia. f_equal. lia.
Qed.

Lemma months_before_0 y m : 1 ≤ m ≤ 12 → months_before y m 0 = (y, m).
Proof.
  intros Hm. unfold months_before.
  rewrite Z.sub_0_r, Z.div_small, Z.mod_small by lia. f_equal; lia.
Qed.

Lemma get_months_run (k : nat) (n : Z) (include_year : bool) :
  days_in_month (year n) (month n) - 27 ≤ day n →
  get_months n k include_year
  = (λ i, let '(y, m) := months_before (year n) (month n) i in
          (if include_year then Some y else None, month_abbr m))
    <$> seqZ 1 (Z.of_nat k).
Proof.
  revert n. induction k as [|k IH]; intros n Hday; [done|].
  cbn [get_months]. cbv zeta.
  destruct (month_back n Hday) as (Hlin & Hm' & Hday').
  set (n' := n - days_in_month (year n) (month n)) in *. clearbody n'.
  rewrite (IH n') by lia.
  rewrite (seqZ_cons 1 (Z.of_nat (S k))) by lia.
  replace (Z.pred (Z.of_nat (S k))) with (Z.of_nat k) by lia.
  cbn [fmap list_fmap]. f_equal.
  - assert (months_before (year n) (month n) 1 = (year n', month n')) as ->;
      [|done].
    change 1 with (1 + 0).
    rewrite <- (months_before_shift _ _ (year n') (month n')) by lia.
    by apply months_before_0.
  - rewrite <- (fmap_add_seqZ 1 1), <- list_fmap_compose.
    apply Forall_fmap_ext_1, Forall_forall. intros i _. unfold compose.
    by rewrite (months_before_shift (year n) (month n) (year n') (month n') i)
      by lia.
Qed.

Lemma from_fourth_day n :
  4 ≤ day n → days_in_month (year n) (month n) - 27 ≤ day n.
Proof.
  intros Hday.
  pose proof (days_in_month_range (year n) (month n) (month_range n)). lia.
Qed.
End months.

(** X24. From a date that is the fourth day of its month or a later day,
    [get_months] lists the months before the month of the date, the
    nearest first: the item [i] is the abbreviation of the month that
    lies [i] months back, with its year when [include_year] is set. *)
Theorem get_months_previous (start_date : Z) (months : nat)
    (include_year : bool) :
  4 ≤ day start_date →
  get_months start_date months include_year
  = (λ i, let '(y, m) :=
            months_before (year start_date) (month start_date) i in
          (if include_year then Some y else None, month_abbr m))
    <$> seqZ 1 (Z.of_nat months).
Proof.
  intros Hday. by apply get_months_run, from_fourth_day.
Qed.

Lemma get_months_previous_witness :
  get_months 738916 12 false
  = (λ i, let '(y, m) := months_before (year 738916) (month 738916) i in
          (if false then Some y else None, month_abbr m))
    <$> seqZ 1 (Z.of_nat 12).
Proof. apply get_months_previous. vm_compute. discriminate. Defined.

(** From the first days of a month the list can miss a month: one round
    from 1 March 2023 goes 31 days back, to 29 January. *)
Example get_months_misses_february :
  get_months (ymd2ord 2023 3 1) 2 false = [(None, "Jan"); (None, "Dec")].
Proof. vm_compute. reflexivity. Qed.

(** X25. Without [include_year], and on a day that is the fourth of its
    month or later, [get_months_with_last_same_as_first] returns 13
    months, whatever its arguments: the month of the current day, the
    twelve months before it, the nearest first, and so the month of the
    current day again at the end. *)
Theorem months_with_last_same_as_first (today start_date : Z) (months : nat) :
  4 ≤ day today →
  ∃ previous,
    get_months_with_last_same_as_first today start_date months false
    = Ok ((None, month_abbr (month today)) :: previous)
    ∧ previous = get_months today 12 false
    ∧ length previous = 12%nat
    ∧ last previous = Some (None, month_abbr (month today)).
Proof.
  intros Hday. exists (get_months today 12 false).
  assert (last (get_months today 12 false)
          = Some (None, month_abbr (month today))) as Hlast.
  { rewrite (get_months_run 12 today false (from_fourth_day today Hday)).
    change (seqZ 1 (Z.of_nat 12)) with (seqZ 1 11 ++ [12]).
    rewrite fmap_app. cbn [fmap list_fmap]. rewrite last_snoc.
    pose proof (month_range today).
    assert (months_before (year today) (month today) 12
            = (year today - 1, month today)) as ->; [|done].
    unfold months_before.
    replace (month today - 1 - 12) with (month today - 1 + (-1) * 12) by lia.
    rewrite Z.div_add, Z_mod_plus_full, Z.div_small, Z.mod_small by lia.
    f_equal; lia. }
  split; [|done].
  unfold get_months_with_last_same_as_first. cbv zeta.
  assert (py_index (get_months today 12 false) (-1)
          = Ok (None, month_abbr (month today))) as ->; [|done].
  destruct (get_months today 12 false) as [|a l] eqn:Hl using rev_ind;
    [done|].
  rewrite py_index_last. rewrite last_snoc in Hlast. by injection Hlast as ->.
Qed.

Lemma months_with_last_same_as_first_witness :
  ∃ previous,
    get_months_with_last_same_as_first 738916 first_of_june 3 false
    = Ok ((None, month_abbr (month 738916)) :: previous)
    ∧ previous = get_months 738916 12 false
    ∧ length previous = 12%nat
    ∧ last previous = Some (None, month_abbr (month 738916)).
Proof.
  apply months_with_last_same_as_first. vm_compute. discriminate.
Defined.

(** * The settings and the matrix *)

Section settings.
Variables g g' : globals.
Hypothesis Hwidth : BLOCK_WIDTH g = BLOCK_WIDTH g'.
Hypothesis Hcolors : COLORS g = COLORS g'.

Lemma place_day_settings (m : gmap Z Q) d matrix :
  place_day g m d matrix = place_day g' m d matrix.
Proof.
  destruct (m !! d) as [v|] eqn:Hv.
  - apply (place_day_colour g g' m m d v v); [done..|]. by rewrite Hcolors.
  - unfold place_day, getitem. rewrite Hv.
    by destruct (py_index matrix (-1)).
Qed.

Lemma for_in_ext {A S} (l : list A) (body body' : A → S → result S) (s : S) :
  (∀ a s', body a s' = body' a s') → for_in l body s = for_in l body' s.
Proof.
  intros Hbody. revert s. induction l as [|a l IH]; intros s; [done|].
  cbn [for_in]. rewrite Hbody. destruct (body' a s); [|done..].
  cbn [mbind result_bind]. apply IH.
Qed.

Lemma build_matrix_settings (m : gmap Z Q) :
  build_matrix g m = build_matrix g' m.
Proof.
  unfold build_matrix. cbv zeta.
  destruct (py_index (sorted m) 0) as [first| |]; [|done..].
  cbn [mbind result_bind]. rewrite !first_column_ok. unfold blank.
  rewrite Hwidth. cbn [mbind result_bind].
  rewrite (for_in_ext _ (place_day g m) (place_day g' m))
    by (intros; apply place_day_settings).
  destruct (for_in _ _ _) as [matrix| |]; [|done..].
  cbn [mbind result_bind].
  destruct (py_index matrix (-1)) as [last| |]; [|done..].
  cbn [mbind result_bind]. unfold Column.fill.
  by rewrite (fill_loop_width g g' 7 last Hwidth).
Qed.

Lemma paintable_settings (m : gmap Z Q) (l : list Z) :
  forallb (paintable g m) l = forallb (paintable g' m) l.
Proof.
  induction l as [|d l IH]; [done|]. cbn [forallb]. rewrite IH.
  unfold paintable. by rewrite Hcolors.
Qed.
End settings.

(** X26. The matrix depends on the settings through the width of the
    block and the palette only: two runs of [graph_block] that differ in
    [--merge], [--block] or any other option return the same matrix, or
    raise the same exception. *)
Theorem graph_block_settings (g g' : globals) (m : gmap Z Q) :
  BLOCK_WIDTH g = BLOCK_WIDTH g' → COLORS g = COLORS g' →
  status (graph_block g m) = status (graph_block g' m).
Proof.
  intros Hwidth Hcolors.
  pose proof (graph_block_cases g m) as Hrun.
  pose proof (graph_block_cases g' m) as Hrun'.
  rewrite <- (paintable_settings g g' Hcolors m) in Hrun'.
  destruct (bool_decide (m ≠ ∅) && forallb (paintable g m) (sorted m)).
  - destruct Hrun as (matrix & Hrun & _). destruct Hrun' as (matrix' & Hrun' & _).
    assert (build_matrix g m = Ok matrix) as Hbuild
      by (apply graph_block_status; by rewrite Hrun).
    assert (build_matrix g' m = Ok matrix') as Hbuild'
      by (apply graph_block_status; by rewrite Hrun').
    rewrite (build_matrix_settings g g' Hwidth Hcolors) in Hbuild.
    rewrite Hrun, Hrun'. cbn. congruence.
  - by rewrite Hrun, Hrun'.
Qed.

Lemma graph_block_settings_witness :
  status (graph_block default_globals turn_of_january)
  = status (graph_block merged_globals turn_of_january).
Proof. apply graph_block_settings; reflexivity. Defined.

(** * The filter on the weekday *)

Section day_filter.
Variable parse_date : string → result datetime.

Lemma count_commits_untouched (dates : list datetime) (m : gmap Z Q) (d : Z) :
  Forall (λ dt, dt_date dt ≠ d) dates →
  count_commits dates m !! d = m !! d.
Proof.
  intros Hdates. revert m. induction Hdates as [|dt dates Hdt _ IH]; intros m.
  - done.
  - change (dt :: dates) with ([dt] ++ dates).
    rewrite count_commits_app, IH. unfold count_commits. cbn [foldl].
    rewrite ymd2ord_ord2ymd.
    destruct (m !! dt_date dt) as [v|]; [|done].
    by rewrite lookup_insert_ne.
Qed.

Lemma elem_of_concat {A} (x : A) (l : list A) (ls : list (list A)) :
  x ∈ l → l ∈ ls → x ∈ concat ls.
Proof.
  intros Hx. induction ls as [|l' ls IH]; intros Hl.
  - by apply not_elem_of_nil in Hl.
  - cbn. apply elem_of_app. apply elem_of_cons in Hl as [->|Hl]; [by left|].
    right. by apply IH.
Qed.

Lemma kept_commit_weekday g rc c name :
  kept_commit parse_date g rc = Some c → SHOW_BY_DAY g = Some name →
  strftime_A (dt_date (commit_date c)) = name.
Proof.
  unfold kept_commit. intros Hkept Hday. rewrite Hday in Hkept.
  destruct (split rc " ~ ") as [|date [|author [|]]]; try done.
  destruct (parse_date date) as [dt| |]; try done.
  destruct (String.eqb name (strftime_A (dt_date dt))) eqn:Heq; [|done].
  injection Hkept as <-. cbn. symmetry. by apply String.eqb_eq.
Qed.

Lemma kept_timestamps_weekday g raw_commits commits_db name :
  read_commits parse_date g raw_commits = Ok commits_db →
  SHOW_BY_DAY g = Some name →
  Forall (λ dt, strftime_A (dt_date dt) = name) (values commits_db).*1.
Proof.
  intros Hread Hday.
  apply (read_commits_loop parse_date g) in Hread as (Hwf & _ & Hperm).
  2:{ intros k dt cs Hk. by rewrite lookup_empty in Hk. }
  rewrite (proj2 (values_nil (∅ : gmap Z (datetime * list Commit))) eq_refl)
    in Hperm.
  cbn [fmap list_fmap concat app] in Hperm.
  apply Forall_forall. intros dt Hdt.
  apply list_elem_of_fmap in Hdt as ([dt' cs] & -> & Hin).
  apply elem_of_values in Hin as [k Hk].
  destruct (Hwf k dt' cs Hk) as ((c & Hhead & <-) & _). cbn [fst].
  assert (c ∈ concat (values commits_db).*2) as Hc.
  { apply (elem_of_concat c cs).
    - destruct cs; [done|]. injection Hhead as ->. left.
    - apply list_elem_of_fmap. exists (commit_date c, cs). split; [done|].
      apply elem_of_values. by exists k. }
  rewrite Hperm in Hc. apply list_elem_of_omap in Hc as (rc & _ & Hkept).
  by apply (kept_commit_weekday g rc).
Qed.
End day_filter.

(** X27. With [--day], when the log is read without fault, the loop
    over the timestamps leaves the count of every day of another weekday
    than the one that is kept as it is: in [main] such a day has no
    contribution. *)
Theorem day_filter_counts (parse_date : string → result datetime)
    (g : globals) (raw_commits : list string)
    (commits_db : gmap Z (datetime * list Commit)) (name : string)
    (m : gmap Z Q) (d : Z) :
  read_commits parse_date g raw_commits = Ok commits_db →
  SHOW_BY_DAY g = Some name →
  strftime_A d ≠ name →
  count_commits (values commits_db).*1 m !! d = m !! d.
Proof.
  intros Hread Hday Hother. apply count_commits_untouched.
  eapply Forall_impl;
    [exact (kept_timestamps_weekday parse_date g raw_commits commits_db name
              Hread Hday)|].
  cbn. intros dt Hdt Heq. apply Hother. by rewrite <- Heq.
Qed.

Lemma day_filter_counts_witness :
  count_commits (values sample_commits_db).*1 (window first_of_june) !! 736025
  = window first_of_june !! 736025.
Proof.
  apply (day_filter_counts sample_parse_date day_mon_globals sample_raw_commits
           sample_commits_db "Tuesday").
  - vm_compute. reflexivity.
  - reflexivity.
  - vm_compute. discriminate.
Defined.

(** * The least bucket *)

(** X28. On a window whose counts are not all equal, bucket 0 is the
    bucket of the days with the least count and of no other day: a day
    with more than the least count is never in bucket 0. *)
Theorem normalize_least_bucket `{Countable K} (d : gmap K Q) (minV maxV : Q) :
  least d minV → greatest d maxV → (minV < maxV)%Q →
  ∃ d', normalize d 0 5 = Ok d' ∧
    ∀ k rawCount, d !! k = Some rawCount →
      (d' !! k = Some 0%Q ↔ rawCount == minV).
Proof.
  intros Hm HM Hlt.
  destruct (normalize_rescale d 0 5 minV maxV Hm HM Hlt) as (d' & Hrun & Hd').
  exists d'. split; [done|]. intros k v Hv. rewrite Hd', Hv. cbn.
  unfold math_ceil.
  destruct (unit_interval minV maxV v Hlt) as [H0 H1];
    [by apply (proj2 Hm k)|by apply (proj2 HM k)|].
  set (t := ((v - minV) / (maxV - minV))%Q) in *.
  split.
  - intros [= Hzero].
    pose proof (Qle_ceiling (t * (5 - 0) + 0)) as Hle.
    rewrite Hzero in Hle.
    change (inject_Z 0) with 0%Q in Hle.
    assert (t == 0) as Ht by lra.
    unfold t in Ht.
    assert (v - minV == 0) as Hdiff.
    { rewrite <- (Qmult_div_r (v - minV) (maxV - minV)) by lra.
      rewrite Ht. ring. }
    lra.
  - intros Heq. rewrite (Qceiling_comp (t * (5 - 0) + 0) 0); [done|].
    unfold t. rewrite Heq. field. lra.
Qed.

Lemma normalize_least_bucket_witness :
  ∃ d', normalize scenario_A 0 5 = Ok d' ∧
    ∀ k rawCount, scenario_A !! k = Some rawCount →
      (d' !! k = Some 0%Q ↔ rawCount == 0).
Proof.
  apply (normalize_least_bucket scenario_A 0 4).
  - apply (least_check _ 736000); vm_compute; reflexivity.
  - apply (greatest_check _ 736009); vm_compute; reflexivity.
  - reflexivity.
Defined.
